(** * SMS notification dispatch engine ([notifications/services.py])

    A shallow embedding of [SMSService] and of the properties its
    specification states about it, followed by the two views of
    [notifications/views.py] that call it or stand for its gateway.

    Conventions of the embedding.
    - A Python [str] is a [string]; its characters are the code points
      0..255, with Python's [str.isspace] and [str.isdigit] tabulated on
      that range.  The text functions work on the character list of a
      string ([chars]) and are wrapped back ([text]).
    - A Python [float] is a binary64 number of [SpecFloat]; conversions
      from decimal text round to nearest, ties to even, and the format
      [,.2f] rounds the exact binary value in the same way.
    - Dynamically typed arguments are values of [PyVal]: [None], booleans,
      integers and strings.
    - Every operation that touches the network or the logger returns the
      list of events it produced together with its outcome, which is either
      a returned value or a raised exception.  The network, the clock, the
      random source and the standard output are an environment [Env] of
      the flow; what is printed is not an event, but a [print] that raises
      is the exception of the environment.
    - The tasks that [asyncio.gather] runs concurrently share nothing but
      the configuration: each has its own environment, and the bulk
      dispatcher returns their traces task by task. *)

From Stdlib Require Import ZArith List Ascii String Bool Lia.
From Stdlib Require Import Floats.SpecFloat DecimalString DecimalN.
From stdpp Require Import gmap strings list fin_maps.

Local Open Scope string_scope.
Local Open Scope Z_scope.

(** ** Python strings *)

Definition chars (s : string) : list ascii := list_ascii_of_string s.
Definition text (l : list ascii) : string := string_of_list_ascii l.

(** [str.isspace] of one character, on the code points 0..255: the ASCII
    separators 9..13 and 28..31, the space, NEL (133) and NBSP (160).  The
    same predicate is the class [\s] of [re] on [str] patterns. *)
Definition isspace (c : ascii) : bool :=
  let n := N_of_ascii c in
  ((9 <=? n) && (n <=? 13) || (28 <=? n) && (n <=? 31)
   || (n =? 32) || (n =? 133) || (n =? 160))%N.

(** [str.isdigit] of one character, on the code points 0..255: the ASCII
    digits and the superscripts two, three and one (178, 179, 185). *)
Definition isdigit_char (c : ascii) : bool :=
  let n := N_of_ascii c in
  ((48 <=? n) && (n <=? 57) || (n =? 178) || (n =? 179) || (n =? 185))%N.

(** [s.isdigit()]: all characters are digits and there is at least one. *)
Definition isdigit (l : list ascii) : bool :=
  negb (Nat.eqb (length l) 0) && forallb isdigit_char l.

Fixpoint lstrip (l : list ascii) : list ascii :=
  match l with
  | c :: r => if isspace c then lstrip r else l
  | [] => []
  end.

(** Removal of the trailing whitespace: a character is dropped when it is
    whitespace and nothing remains after it. *)
Fixpoint rstrip (l : list ascii) : list ascii :=
  match l with
  | [] => []
  | c :: r =>
      match rstrip r with
      | [] => if isspace c then [] else [c]
      | r' => c :: r'
      end
  end.

(** [s.strip()] *)
Definition strip (l : list ascii) : list ascii := rstrip (lstrip l).

(** [s.replace(old, new)] for a one-character [old]. *)
Definition replace1 (old : ascii) (new : list ascii) (l : list ascii)
  : list ascii :=
  flat_map (fun c => if Ascii.eqb c old then new else [c]) l.

(** [s.startswith(p)] *)
Fixpoint startswith (p l : list ascii) : bool :=
  match p, l with
  | [], _ => true
  | a :: p', b :: l' => Ascii.eqb a b && startswith p' l'
  | _ :: _, [] => false
  end.

(** [re.sub(r'\s+', ' ', s)]: every maximal run of whitespace becomes one
    space.  [in_run] tells that the previous character was whitespace. *)
Fixpoint collapse_from (in_run : bool) (l : list ascii) : list ascii :=
  match l with
  | [] => []
  | c :: r =>
      if isspace c
      then (if in_run then collapse_from true r
            else " "%char :: collapse_from true r)
      else c :: collapse_from false r
  end.

Definition re_sub_spaces (l : list ascii) : list ascii :=
  collapse_from false l.

(** ** Amounts *)

(** A Python [float] is a binary64 number. *)
Definition prec : Z := 53.
Definition emax : Z := 1024.

(** A [decimal.Decimal]: a finite number [(-1)^sign * coefficient *
    10^exponent], an infinity, a quiet or a signalling NaN. *)
Inductive PyDecimal : Type :=
  | DFinite (sign : bool) (coefficient : N) (exponent : Z)
  | DInfinity (sign : bool)
  | DNaN
  | DsNaN.

(** The binary64 number nearest to [(-1)^sign * coefficient * 10^exponent],
    ties to even; an infinity beyond the range. *)
Definition nearest_float (sign : bool) (coefficient : N) (exponent : Z)
  : spec_float :=
  match coefficient with
  | N0 => S754_zero sign
  | Npos c =>
      if 0 <=? exponent
      then binary_normalize prec emax
             ((if sign then Zneg c else Zpos c) * 10 ^ exponent) 0 sign
      else SFdiv prec emax (S754_finite sign c 0)
             (S754_finite false (Z.to_pos (10 ^ (- exponent))) 0)
  end.

(** The integer nearest to [m * 2^e * 100], ties to even. *)
Definition cents (m : positive) (e : Z) : N :=
  if 0 <=? e then Z.to_N (Zpos m * 2 ^ e * 100)
  else
    let n := Zpos m * 100 in
    let d := 2 ^ (- e) in
    let q := n / d in
    let r := n mod d in
    Z.to_N (if (d <? 2 * r) || ((d =? 2 * r) && Z.odd q) then q + 1 else q).

Definition digit (d : N) : ascii := ascii_of_N (48 + d).

(** The decimal digits of a natural number. *)
Definition decimal_digits (n : N) : list ascii :=
  chars (NilZero.string_of_uint (N.to_uint n)).

(** The grouping by thousands, on the digits in reverse order. *)
Fixpoint group3 (l : list ascii) : list ascii :=
  match l with
  | a :: b :: c :: ((_ :: _) as rest) => a :: b :: c :: ","%char :: group3 rest
  | _ => l
  end.

Definition group_thousands (digits : list ascii) : list ascii :=
  rev (group3 (rev digits)).

(** [f"{x:,.2f}"] for a float [x]. *)
Definition format_2f (x : spec_float) : string :=
  match x with
  | S754_nan => "nan"
  | S754_infinity s => if s then "-inf" else "inf"
  | S754_zero s => (if s then "-" else "") ++ "0.00"
  | S754_finite s m e =>
      let c := cents m e in
      let whole := (c / 100)%N in
      let hundredths := (c mod 100)%N in
      (if s then "-" else "")
      ++ text (group_thousands (decimal_digits whole))
      ++ "."
      ++ text [digit (hundredths / 10); digit (hundredths mod 10)]
  end.

(** The characters that [float] trims: the ASCII whitespace of C, and the
    two other spaces of the range, which it first turns into a space. *)
Definition float_space (c : ascii) : bool :=
  let n := N_of_ascii c in
  ((9 <=? n) && (n <=? 13) || (n =? 32) || (n =? 133) || (n =? 160))%N.

Definition is_ascii_digit (c : ascii) : bool :=
  let n := N_of_ascii c in ((48 <=? n) && (n <=? 57))%N.

Fixpoint float_lstrip (l : list ascii) : list ascii :=
  match l with
  | c :: r => if float_space c then float_lstrip r else l
  | [] => []
  end.

Definition float_strip (l : list ascii) : list ascii :=
  rev (float_lstrip (rev (float_lstrip l))).

(** An underscore is accepted between two digits only; [prev] is the
    previous character.  The result is the text without underscores. *)
Fixpoint remove_underscores (prev : option ascii) (l : list ascii)
  : option (list ascii) :=
  match l with
  | [] =>
      match prev with
      | Some p => if Ascii.eqb p "_" then None else Some []
      | None => Some []
      end
  | c :: r =>
      let prev_digit :=
        match prev with Some p => is_ascii_digit p | None => false end in
      let prev_underscore :=
        match prev with Some p => Ascii.eqb p "_" | None => false end in
      if Ascii.eqb c "_"
      then if prev_digit then remove_underscores (Some c) r else None
      else if prev_underscore && negb (is_ascii_digit c) then None
      else option_map (cons c) (remove_underscores (Some c) r)
  end.

Fixpoint span_digits (l : list ascii) : list ascii * list ascii :=
  match l with
  | c :: r =>
      if is_ascii_digit c
      then let '(d, rest) := span_digits r in (c :: d, rest)
      else ([], l)
  | [] => ([], [])
  end.

Definition parse_sign (l : list ascii) : bool * list ascii :=
  match l with
  | c :: r =>
      if Ascii.eqb c "-" then (true, r)
      else if Ascii.eqb c "+" then (false, r)
      else (false, l)
  | [] => (false, [])
  end.

(** The value of a string of digits. *)
Definition next_digit (n : N) (c : ascii) : N :=
  (10 * n + (N_of_ascii c - 48))%N.

Definition digits_value (l : list ascii) : N := fold_left next_digit l 0%N.

Definition lower (c : ascii) : ascii :=
  let n := N_of_ascii c in
  if ((65 <=? n) && (n <=? 90))%N then ascii_of_N (n + 32) else c.

(** [inf], [infinity] and [nan], in any case, after the sign. *)
Definition parse_inf_or_nan (sign : bool) (l : list ascii)
  : option spec_float :=
  let w := text (map lower l) in
  if String.eqb w "inf" || String.eqb w "infinity"
  then Some (S754_infinity sign)
  else if String.eqb w "nan" then Some S754_nan
  else None.

(** A decimal literal: digits with an optional point and an optional
    exponent, at least one digit before the exponent. *)
Definition parse_decimal (sign : bool) (l : list ascii) : option spec_float :=
  let '(int_part, l) := span_digits l in
  let '(frac_part, l) :=
    match l with
    | c :: r => if Ascii.eqb c "." then span_digits r else ([], l)
    | [] => ([], [])
    end in
  match (int_part ++ frac_part)%list with
  | [] => None
  | mantissa =>
      let exponent :=
        match l with
        | [] => Some 0
        | c :: r =>
            if Ascii.eqb c "e" || Ascii.eqb c "E"
            then
              let '(esign, r) := parse_sign r in
              let '(d, rest) := span_digits r in
              match d, rest with
              | _ :: _, [] =>
                  let e := Z.of_N (digits_value d) in
                  Some (if esign then - e else e)
              | _, _ => None
              end
            else None
        end in
      match exponent with
      | Some e =>
          Some (nearest_float sign (digits_value mantissa)
                  (e - Z.of_nat (length frac_part)))
      | None => None
      end
  end.

(** [float(s)] for a string [s]; [None] is the [ValueError]. *)
Definition float_of_str (s : string) : option spec_float :=
  let l := float_strip (chars s) in
  match remove_underscores None l with
  | None => None
  | Some l =>
      let '(sign, l) := parse_sign l in
      match parse_decimal sign l with
      | Some x => Some x
      | None => parse_inf_or_nan sign l
      end
  end.

(** [float(d)] for a [Decimal]; [None] is the [ValueError] of a
    signalling NaN. *)
Definition float_of_decimal (d : PyDecimal) : option spec_float :=
  match d with
  | DFinite s c e => Some (nearest_float s c e)
  | DInfinity s => Some (S754_infinity s)
  | DNaN => Some S754_nan
  | DsNaN => None
  end.

(** ** Dynamically typed values *)

(** The values that reach the engine as phone, message, type and payload
    fields: [None], booleans, integers and strings. *)
Inductive PyVal : Type :=
  | VNone
  | VBool (b : bool)
  | VInt (z : Z)
  | VStr (s : string).

(** Truth value of a Python object, as [if v:] and [not v] test it. *)
Definition truthy (v : PyVal) : bool :=
  match v with
  | VNone => false
  | VBool b => b
  | VInt z => negb (z =? 0)
  | VStr s => negb (Nat.eqb (String.length s) 0)
  end.

(** An object passed as [additional_data]: a scalar or a dictionary with
    string keys. *)
Inductive PyObj : Type :=
  | Scalar (v : PyVal)
  | Dict (d : gmap string PyVal).

Definition truthy_obj (o : PyObj) : bool :=
  match o with
  | Scalar v => truthy v
  | Dict d => negb (Nat.eqb (size d) 0)
  end.

(** The key under which a hashable value is stored in a [dict]: [True]
    and [1], [False] and [0] are the same key. *)
Inductive Key : Type :=
  | KNone
  | KNum (z : Z)
  | KStr (s : string).

Definition key_of (v : PyVal) : Key :=
  match v with
  | VNone => KNone
  | VBool b => KNum (if b then 1 else 0)
  | VInt z => KNum z
  | VStr s => KStr s
  end.

#[global] Instance Key_eq_dec : EqDecision Key.
Proof. solve_decision. Defined.

#[global] Instance Key_countable : Countable Key.
Proof.
  refine (inj_countable'
            (fun k => match k with
                      | KNone => inl tt
                      | KNum z => inr (inl z)
                      | KStr s => inr (inr s)
                      end)
            (fun x => match x with
                      | inl _ => KNone
                      | inr (inl z) => KNum z
                      | inr (inr s) => KStr s
                      end) _).
  intros []; reflexivity.
Defined.

(** ** Validator *)

(** [SMSService._validate_phone] *)
Definition _validate_phone (phone : PyVal) : bool :=
  match phone with
  | VStr s =>
      if negb (truthy phone) then false
      else
        let phone_clean := replace1 " " [] (strip (chars s)) in
        let phone_clean :=
          if startswith (chars "+") phone_clean
          then skipn 1 phone_clean else phone_clean in
        (9 <=? length phone_clean)%nat && isdigit phone_clean
  | _ => false
  end.

(** [SMSService._validate_message] *)
Definition _validate_message (message : PyVal) : string :=
  match message with
  | VStr s =>
      if negb (truthy message) then ""
      else
        let message := strip (chars s) in
        let message := re_sub_spaces message in
        let message :=
          if (300 <? length message)%nat
          then (firstn 297 message ++ chars "...")%list
          else message in
        let message :=
          replace1 "009" (chars " ")
            (replace1 "013" (chars " ")
               (replace1 "010" (chars " ") message)) in
        text message
  | _ => ""
  end.

(** ** Effects: events, exceptions, outcomes *)

(** The exceptions the engine can meet; all of them derive from Python's
    [Exception]. *)
Inductive Exn : Type :=
  | TypeError
  | ValueError
  | AttributeError
  | TimeoutError
  | JSONDecodeError
  | OverflowError
  | ConnectError
  | UnicodeEncodeError
  | UnicodeDecodeError.

(** The body of a POST: the generic gateway takes a reference and a
    payload, the named gateway a token, a phone and a message. *)
Inductive Body : Type :=
  | GenericBody (reference : string) (payload : gmap string PyVal)
  | GatewayBody (token phone msg : string).

Record Request : Type := mkRequest {
  rq_headers : list (string * string);
  rq_url : string;
  rq_method : string;
  rq_data : Body
}.

(** What the engine reads of an [httpx.Response]: the status code, the
    body text and whether [response.json()] parses that text. *)
Record Response : Type := mkResponse {
  status_code : Z;
  resp_text : string;
  json_parses : bool
}.

(** One [await asyncio.wait_for(make_rest_request(...), timeout)]: the
    request returns a response or [None], or the await raises (a timeout,
    or a fault that escapes the client). *)
Inductive Attempt : Type :=
  | Returned (r : option Response)
  | Failed (e : Exn).

Inductive Level : Type := INFO | WARNING | ERROR.

(** One constructor per logging call of [services.py]. *)
Inductive LogMsg : Type :=
  | UnableToNormalize (phone : string)
  | InvalidEthiopianFormat (phone : string)
  | GeezNoApiKey
  | GeezNormalizeFailed (phone : PyVal)
  | GeezSending (masked : string)
  | GeezApiResponse
  | GeezSent (masked : string)
  | GeezAttemptFailed (n : Z) (status : option Z)
  | GeezAttemptError (n : Z) (e : Exn)
  | GeezAllFailed (masked : string)
  | GeezServiceError (e : Exn)
  | SmsConfigError
  | SmsInvalidPhone (phone : PyVal)
  | SmsSending (reference : string) (phone : PyVal)
  | SmsSent (reference : string)
  | SmsAttemptFailed (n : Z) (status : option Z) (reference : string)
  | SmsAttemptError (n : Z) (e : Exn) (reference : string)
  | SmsAllFailed (reference : string)
  | SmsServiceError (e : Exn)
  | CustomInvalidPhone (phone : PyVal)
  | CustomEmptyMessage (prefix : string)
  | NotificationEmptyMessage (prefix : string).

Inductive Event : Type :=
  | Post (r : Request)
  | Sleep (seconds : Z)
  | Log (lvl : Level) (msg : LogMsg).

Inductive Result (A : Type) : Type :=
  | Ok (a : A)
  | Raise (e : Exn).
Arguments Ok {A} a.
Arguments Raise {A} e.

(** A computation of the engine: the events it produced, in order, and how
    it ended. *)
Definition M (A : Type) : Type := (list Event * Result A)%type.

Definition ret {A} (a : A) : M A := ([], Ok a).
Definition raise {A} (e : Exn) : M A := ([], Raise e).

Definition bind {A B} (m : M A) (k : A -> M B) : M B :=
  match m with
  | (t, Ok a) => let '(t', r) := k a in ((t ++ t')%list, r)
  | (t, Raise e) => (t, Raise e)
  end.

(** [try: m except Exception as e: h e] *)
Definition catch {A} (m : M A) (h : Exn -> M A) : M A :=
  match m with
  | (t, Ok a) => (t, Ok a)
  | (t, Raise e) => let '(t', r) := h e in ((t ++ t')%list, r)
  end.

Definition emit (e : Event) : M unit := ([e], Ok tt).
Definition log (lvl : Level) (msg : LogMsg) : M unit := emit (Log lvl msg).
Definition sleep (seconds : Z) : M unit := emit (Sleep seconds).

Notation "'do' x <- m ; k" := (bind m (fun x => k))
  (at level 10, x name, m at level 100, k at level 200).
Notation "'run' m ; k" := (bind m (fun _ => k))
  (at level 10, m at level 100, k at level 200).

Definition trace {A} (m : M A) : list Event := fst m.
Definition outcome {A} (m : M A) : Result A := snd m.

(** The requests a computation posted, in order. *)
Definition posts (t : list Event) : list Request :=
  flat_map (fun e => match e with Post r => [r] | _ => [] end) t.

(** The durations a computation slept, in order. *)
Definition sleeps (t : list Event) : list Z :=
  flat_map (fun e => match e with Sleep n => [n] | _ => [] end) t.

(** ** Configuration and environment *)

(** The module constants read from the settings.  [SMS_TIMEOUT] is the
    fixed bound of one attempt; an attempt that exceeds it is the
    [Failed TimeoutError] of the transport. *)
Record Config : Type := mkConfig {
  SAVING_API_URL : option string;
  SMS_API_KEY : option string;
  SMS_RETRY_ATTEMPTS : Z
}.

Definition SMS_TIMEOUT : Z := 30.

(** What one dispatch flow meets outside the engine: the answer of the
    network to its [attempt]-th request, the clock, the random source, and
    the standard output: [print_fault attempt] is the exception that a
    [print] raises during that attempt ([UnicodeEncodeError] where the
    stream cannot encode the text), [None] when the text is written. *)
Record Env : Type := mkEnv {
  transport : nat -> Request -> Attempt;
  strftime_now : string;
  uuid4_hex : string;
  print_fault : nat -> option Exn
}.

(** Truth value of an optional string ([None] and [""] are false). *)
Definition str_truthy (o : option string) : bool :=
  match o with
  | Some s => negb (Nat.eqb (String.length s) 0)
  | None => false
  end.

(** [needle in hay] on strings. *)
Fixpoint contains (needle hay : list ascii) : bool :=
  startswith needle hay ||
  match hay with
  | [] => false
  | _ :: hay' => contains needle hay'
  end.

(** [SMSService._create_headers] *)
Definition _create_headers : list (string * string) :=
  [("Accept", "application/json"); ("Content-Type", "application/json")].

(** [SMSService._generate_reference]: the timestamp without its last three
    characters, and the first eight characters of the random hex. *)
Definition _generate_reference (env : Env) (prefix : string) : string :=
  let now := chars (strftime_now env) in
  let timestamp := text (firstn (length now - 3) now) in
  let random_suffix := text (firstn 8 (chars (uuid4_hex env))) in
  prefix ++ "_" ++ timestamp ++ "_" ++ random_suffix.

(** [await asyncio.wait_for(make_rest_request(headers, url, "POST", data),
    timeout=SMS_TIMEOUT)] as the [attempt]-th request of the flow. *)
Definition wait_for_request (env : Env) (attempt : nat) (r : Request)
  : M (option Response) :=
  run emit (Post r);
  match transport env attempt r with
  | Returned resp => ret resp
  | Failed e => raise e
  end.

Definition status_of (resp : option Response) : option Z :=
  option_map status_code resp.

(** [response and response.status_code == 200] *)
Definition is_200 (resp : option Response) : bool :=
  match resp with
  | Some r => status_code r =? 200
  | None => false
  end.

(** ** Gateway phone normalisation *)

(** [SMSService._normalize_ethiopian_phone]; [None] is the source's
    [return None], after the warning of the branch that rejects. *)
Definition _normalize_ethiopian_phone (phone : string) : M (option string) :=
  let phone_clean := replace1 "-" [] (replace1 " " [] (strip (chars phone))) in
  let phone_clean :=
    if startswith (chars "+") phone_clean
    then skipn 1 phone_clean else phone_clean in
  do handled <-
    (if startswith (chars "251") phone_clean then ret (Some phone_clean)
     else if startswith (chars "0") phone_clean
     then ret (Some (chars "251" ++ skipn 1 phone_clean)%list)
     else if startswith (chars "9") phone_clean
             && Nat.eqb (length phone_clean) 9
     then ret (Some (chars "251" ++ phone_clean)%list)
     else
       run log WARNING (UnableToNormalize phone);
       ret None);
  match handled with
  | None => ret None
  | Some phone_clean =>
      if startswith (chars "2519") phone_clean
         && Nat.eqb (length phone_clean) 12
      then ret (Some (text phone_clean))
      else
        run log WARNING (InvalidEthiopianFormat phone);
        ret None
  end.

(** ** Amount formatting *)

(** What is passed as an amount: a float, a [Decimal], a string, an
    integer (a boolean is the integer 0 or 1), or [None]. *)
Inductive Amount : Type :=
  | AFloat (x : spec_float)
  | ADecimal (d : PyDecimal)
  | AStr (s : string)
  | AInt (z : Z)
  | ANone.

(** What reaches the format of [_format_amount]: past the conversion of
    the strings and of the [Decimal]s, a float, an integer or [None]. *)
Inductive FormatArg : Type :=
  | FFloat (x : spec_float)
  | FInt (z : Z)
  | FNone.

(** [f"{amount:,.2f}"]: a float is formatted, an integer is converted to
    a float first ([OverflowError] beyond the range), [None] refuses the
    format. *)
Definition format_spec (amount : FormatArg) : M string :=
  match amount with
  | FFloat x => ret (format_2f x)
  | FInt z =>
      match nearest_float (z <? 0) (Z.abs_N z) 0 with
      | S754_infinity _ => raise OverflowError
      | x => ret (format_2f x)
      end
  | FNone => raise TypeError
  end.

(** [SMSService._format_amount] *)
Definition _format_amount (amount : Amount) : M string :=
  catch
    (do amount <-
       (match amount with
        | AStr s =>
            match float_of_str s with
            | Some x => ret (FFloat x)
            | None => raise ValueError
            end
        | ADecimal d =>
            match float_of_decimal d with
            | Some x => ret (FFloat x)
            | None => raise ValueError
            end
        | AFloat x => ret (FFloat x)
        | AInt z => ret (FInt z)
        | ANone => ret FNone
        end);
     format_spec amount)
    (fun e =>
       match e with
       | ValueError | TypeError => ret "0.00"
       | _ => raise e
       end).

(** ** Delivery engine *)

Section Engine.

Variable cfg : Config.
Variable env : Env.

(** The [for attempt in range(SMS_RETRY_ATTEMPTS)] loop of
    [_send_geezsms] and what follows it; [todo] counts the iterations
    left and [attempt] is the loop variable.  After a response with status
    200 the body is parsed when it is not empty, then a line is printed,
    both inside the [try] of the attempt: an exception of either is that
    of the attempt. *)
Fixpoint geezsms_attempts (r : Request) (masked : string)
    (todo : nat) (attempt : nat) : M bool :=
  match todo with
  | O =>
      run log ERROR (GeezAllFailed masked);
      ret false
  | S todo' =>
      do returned <-
        catch
          (do response <- wait_for_request env attempt r;
           if is_200 response
           then
             run (match response with
                  | Some resp =>
                      if negb (Nat.eqb (String.length (resp_text resp)) 0)
                         && negb (json_parses resp)
                      then raise JSONDecodeError
                      else ret tt
                  | None => ret tt
                  end);
             run (match print_fault env attempt with
                  | Some e => raise e
                  | None => ret tt
                  end);
             run log INFO GeezApiResponse;
             run log INFO (GeezSent masked);
             ret (Some true)
           else
             run log WARNING
                   (GeezAttemptFailed (Z.of_nat attempt + 1)
                      (status_of response));
             ret None)
          (fun e =>
             run log ERROR (GeezAttemptError (Z.of_nat attempt + 1) e);
             ret None);
      match returned with
      | Some b => ret b
      | None =>
          run (if Z.of_nat attempt <? SMS_RETRY_ATTEMPTS cfg - 1
               then sleep (Z.min (2 ^ Z.of_nat attempt) 10)
               else ret tt);
          geezsms_attempts r masked todo' (S attempt)
      end
  end.

(** [SMSService._send_geezsms].  A [phone] that is not a string has no
    [strip]: the call of the normaliser raises [AttributeError] inside the
    outer [try]. *)
Definition _send_geezsms (phone : PyVal) (message : string) : M bool :=
  catch
    (if negb (str_truthy (SMS_API_KEY cfg))
     then
       run log ERROR GeezNoApiKey;
       ret false
     else
       do normalized_phone <-
         (match phone with
          | VStr s => _normalize_ethiopian_phone s
          | _ => raise AttributeError
          end);
       if negb (str_truthy normalized_phone)
       then
         run log ERROR (GeezNormalizeFailed phone);
         ret false
       else
         let normalized_phone := default "" normalized_phone in
         let headers :=
           [("Accept", "application/json");
            ("Content-Type", "application/json")] in
         let sms_data :=
           GatewayBody (default "" (SMS_API_KEY cfg))
             normalized_phone message in
         let masked := text (firstn 8 (chars normalized_phone)) in
         run log INFO (GeezSending masked);
         geezsms_attempts
           (mkRequest headers (default "" (SAVING_API_URL cfg))
              "POST" sms_data)
           masked (Z.to_nat (SMS_RETRY_ATTEMPTS cfg)) 0)
    (fun e =>
       run log ERROR (GeezServiceError e);
       ret false).

(** The retry loop of [send_sms] and what follows it. *)
Fixpoint send_sms_attempts (r : Request) (reference : string)
    (todo : nat) (attempt : nat) : M bool :=
  match todo with
  | O =>
      run log ERROR (SmsAllFailed reference);
      ret false
  | S todo' =>
      do returned <-
        catch
          (do response <- wait_for_request env attempt r;
           if is_200 response
           then
             run log INFO (SmsSent reference);
             ret (Some true)
           else
             run log WARNING
                   (SmsAttemptFailed (Z.of_nat attempt + 1)
                      (status_of response) reference);
             ret None)
          (fun e =>
             run log ERROR
                   (SmsAttemptError (Z.of_nat attempt + 1) e reference);
             ret None);
      match returned with
      | Some b => ret b
      | None =>
          run (if Z.of_nat attempt <? SMS_RETRY_ATTEMPTS cfg - 1
               then sleep (Z.min (2 ^ Z.of_nat attempt) 10)
               else ret tt);
          send_sms_attempts r reference todo' (S attempt)
      end
  end.

(** [SMSService.send_sms] *)
Definition send_sms (reference : string) (payload : gmap string PyVal)
    (phone : PyVal) : M bool :=
  catch
    (if negb (str_truthy (SAVING_API_URL cfg))
     then
       run log ERROR SmsConfigError;
       ret false
     else if truthy phone && negb (_validate_phone phone)
     then
       run log WARNING (SmsInvalidPhone phone);
       ret false
     else
       let headers := _create_headers in
       let sms_url := default "" (SAVING_API_URL cfg) ++ "/send_sms" in
       let sms_data := GenericBody reference payload in
       run log INFO
             (SmsSending reference
                (if truthy phone then phone else VStr "in_payload"));
       send_sms_attempts (mkRequest headers sms_url "POST" sms_data)
         reference (Z.to_nat (SMS_RETRY_ATTEMPTS cfg)) 0)
    (fun e =>
       run log ERROR (SmsServiceError e);
       ret false).


(** [phone[:4]]: only a string can be sliced. *)
Definition slice4 (phone : PyVal) : M string :=
  match phone with
  | VStr s => ret (text (firstn 4 (chars s)))
  | _ => raise TypeError
  end.

(** [payload.update(additional_data)]: the entries of a dictionary replace
    those of the payload; a scalar is not a mapping. *)
Definition dict_update (payload : gmap string PyVal) (other : PyObj)
  : M (gmap string PyVal) :=
  match other with
  | Dict d => ret (d ∪ payload)
  | Scalar (VStr _) => raise ValueError
  | Scalar _ => raise TypeError
  end.

(** [SMSService.send_custom_sms] *)
Definition send_custom_sms (phone message message_type : PyVal)
    (additional_data : PyObj) : M bool :=
  if negb (_validate_phone phone)
  then
    run log WARNING (CustomInvalidPhone phone);
    ret false
  else
    let clean_message := _validate_message message in
    if negb (str_truthy (Some clean_message))
    then
      do prefix <- slice4 phone;
      run log WARNING (CustomEmptyMessage prefix);
      ret false
    else if str_truthy (SAVING_API_URL cfg)
            && contains (chars "geezsms.com")
                 (chars (default "" (SAVING_API_URL cfg)))
    then _send_geezsms phone clean_message
    else
      let reference := _generate_reference env "CUSTOM" in
      let payload : gmap string PyVal :=
        <["type" := message_type]>
          (<["message" := VStr clean_message]>
             (<["phone" := phone]> ∅)) in
      do payload <-
        (if truthy_obj additional_data
         then dict_update payload additional_data
         else ret payload);
      send_sms reference payload phone.

(** [SMSService.send_notification_sms] *)
Definition send_notification_sms (phone message : PyVal) : M bool :=
  let clean_message := _validate_message message in
  if negb (str_truthy (Some clean_message))
  then
    do prefix <- slice4 phone;
    run log WARNING (NotificationEmptyMessage prefix);
    ret false
  else
    send_custom_sms phone (VStr clean_message) (VStr "notification")
      (Scalar VNone).

(** [SMSService.send_transaction_sms] *)
Definition send_transaction_sms (reference product_name : string)
    (balance : Amount) (bank_name : string) (phone : PyVal) : M bool :=
  do saving_balance <- _format_amount balance;
  let payload : gmap string PyVal :=
    <["type" := VStr "transaction"]>
      (<["bank_name" := VStr bank_name]>
         (<["saving_balance" := VStr saving_balance]>
            (<["product_name" := VStr product_name]> ∅))) in
  send_sms reference payload phone.

(** [SMSService.send_deposit_sms] *)
Definition send_deposit_sms (phone : PyVal) (amount balance : Amount)
    (product_name bank_name reference : string) (customer_name : PyVal)
  : M bool :=
  do amount <- _format_amount amount;
  do saving_balance <- _format_amount balance;
  let payload : gmap string PyVal :=
    <["type" := VStr "deposit_confirmation"]>
      (<["bank_name" := VStr bank_name]>
         (<["saving_balance" := VStr saving_balance]>
            (<["product_name" := VStr product_name]>
               (<["amount" := VStr amount]>
                  (<["transaction_type" := VStr "DEPOSIT"]>
                     (<["phone" := phone]> ∅)))))) in
  let payload :=
    if truthy customer_name
    then <["customer_name" := customer_name]> payload
    else payload in
  send_sms reference payload phone.

(** [SMSService.send_subscription_sms] *)
Definition send_subscription_sms (reference customer_name product_name
    bank_name subscription_type : string) (phone : PyVal) : M bool :=
  let payload : gmap string PyVal :=
    <["type" := VStr (subscription_type ++ "_subscription")]>
      (<["bank_name" := VStr bank_name]>
         (<["product_name" := VStr product_name]>
            (<["customer_name" := VStr customer_name]> ∅))) in
  send_sms reference payload phone.

End Engine.

(** ** Bulk dispatcher *)

(** One entry of [sms_requests], as [send_multiple_sms] reads it:
    [get_phone], [get_message] and [get_additional_data] are what
    [.get(key)] returns ([None] for an absent key), [key_type] is the
    entry of the key ["type"] if there is one. *)
Record SmsRequest : Type := mkSmsRequest {
  get_phone : PyVal;
  get_message : PyVal;
  key_type : option PyVal;
  get_additional_data : PyObj
}.

(** The first loop of [send_multiple_sms]: an entry with a phone and a
    message becomes a task (a coroutine that has not run yet, with the
    environment [envs i] of the [i]-th entry), any other entry is
    recorded as a failure. *)
Fixpoint collect_tasks (cfg : Config) (envs : nat -> Env) (i : nat)
    (sms_requests : list SmsRequest)
    (results : gmap Key bool) (tasks : list (PyVal * M bool))
  : gmap Key bool * list (PyVal * M bool) :=
  match sms_requests with
  | [] => (results, tasks)
  | sms_request :: rest =>
      let phone := get_phone sms_request in
      let message := get_message sms_request in
      let message_type :=
        default (VStr "notification") (key_type sms_request) in
      let additional_data := get_additional_data sms_request in
      if truthy phone && truthy message
      then
        let task :=
          send_custom_sms cfg (envs i) phone message message_type
            additional_data in
        collect_tasks cfg envs (S i) rest results
          (tasks ++ [(phone, task)])%list
      else
        collect_tasks cfg envs (S i) rest
          (<[key_of (if truthy phone then phone else VStr "invalid")
             := false]> results)
          tasks
  end.

(** [result if not isinstance(result, Exception) else False] *)
Definition result_or_false (r : Result bool) : bool :=
  match r with
  | Ok b => b
  | Raise _ => false
  end.

(** [SMSService.send_multiple_sms]: the map of results, and the events of
    each task that [asyncio.gather] ran, task by task. *)
Definition send_multiple_sms (cfg : Config) (envs : nat -> Env)
    (sms_requests : list SmsRequest)
  : list (list Event) * Result (gmap Key bool) :=
  let '(results, tasks) := collect_tasks cfg envs 0 sms_requests ∅ [] in
  let task_results := map (fun t => outcome (snd t)) tasks in
  let results :=
    fold_left
      (fun results '((phone, _), result) =>
         <[key_of phone := result_or_false result]> results)
      (combine tasks task_results) results in
  (map (fun t => trace (snd t)) tasks, Ok results).

(** ** The validator as the specification words it *)

(** The final acceptance test: twelve characters starting with 2519. *)
Definition accept_gateway (l : list ascii) : option string :=
  if startswith (chars "2519") l && Nat.eqb (length l) 12
  then Some (text l) else None.

(** Removal of one leading plus sign. *)
Definition drop_plus (s : list ascii) : list ascii :=
  match s with
  | c :: r => if Ascii.eqb c "+" then r else s
  | [] => []
  end.

Definition without_separators (s : list ascii) : list ascii :=
  List.filter (fun c => negb (Ascii.eqb c " " || Ascii.eqb c "-")) s.

(** [normalizeGatewayPhone] as the specification describes it: spaces and
    hyphens are removed, one leading plus sign is dropped, and the local
    form without a prefix is a string of exactly nine digits. *)
Definition normalizeGatewayPhone_spec (raw : string) : option string :=
  let s := drop_plus (without_separators (chars raw)) in
  if startswith (chars "251") s then accept_gateway s
  else if startswith (chars "0") s
  then accept_gateway (chars "251" ++ skipn 1 s)%list
  else if startswith (chars "9") s && Nat.eqb (length s) 9
          && forallb is_ascii_digit s
  then accept_gateway (chars "251" ++ s)%list
  else None.

(** The same description with the two points on which the code differs:
    the whitespace around the number is trimmed first, whatever it is, and
    the local form is any nine characters starting with 9. *)
Definition normalizeGatewayPhone_amended (raw : string) : option string :=
  let s := drop_plus (without_separators (strip (chars raw))) in
  if startswith (chars "251") s then accept_gateway s
  else if startswith (chars "0") s
  then accept_gateway (chars "251" ++ skipn 1 s)%list
  else if startswith (chars "9") s && Nat.eqb (length s) 9
  then accept_gateway (chars "251" ++ s)%list
  else None.

(** A list is tidy when its whitespace is made of single spaces, none of
    them first or last.  [after_space] tells that the previous character
    was a space (or that the list starts here). *)
Fixpoint tidy_from (after_space : bool) (l : list ascii) : bool :=
  match l with
  | [] => negb after_space
  | c :: r =>
      if isspace c
      then negb after_space && Ascii.eqb c " " && tidy_from true r
      else tidy_from false r
  end.

Fixpoint ends_nonspace (l : list ascii) : bool :=
  match l with
  | [] => false
  | c :: r =>
      match r with
      | [] => negb (isspace c)
      | _ => ends_nonspace r
      end
  end.

(** ** Vocabulary of the statements *)

Definition newline_free (m : list ascii) : list ascii :=
  replace1 "009" (chars " ")
    (replace1 "013" (chars " ") (replace1 "010" (chars " ") m)).

Definition truncated (m : list ascii) : list ascii :=
  if (300 <? length m)%nat
  then (firstn 297 m ++ chars "...")%list else m.

Definition prefixed {A} (t : list Event) (m : M A) : M A :=
  ((t ++ trace m)%list, outcome m).

(** The backoff of the iteration [attempt]: nothing after the last one. *)
Definition backoff (cfg : Config) (attempt : nat) : list Event :=
  if Z.of_nat attempt <? SMS_RETRY_ATTEMPTS cfg - 1
  then [Sleep (Z.min (2 ^ Z.of_nat attempt) 10)] else [].

(** [response.json()] raises on a body that is not empty and does not
    parse. *)
Definition json_raises (response : option Response) : bool :=
  match response with
  | Some resp =>
      negb (Nat.eqb (String.length (resp_text resp)) 0)
      && negb (json_parses resp)
  | None => false
  end.

(** An attempt of the generic path succeeds on a response with status
    200. *)
Definition ok_generic (a : Attempt) : bool :=
  match a with
  | Returned response => is_200 response
  | Failed _ => false
  end.

(** On the gateway path an answer is a success when it is a response with
    status 200 whose body is empty or parses; the attempt succeeds when,
    moreover, its line is printed ([gateway_attempt_ok]). *)
Definition ok_gateway (a : Attempt) : bool :=
  match a with
  | Returned response => is_200 response && negb (json_raises response)
  | Failed _ => false
  end.

(** The attempt of index [attempt] of the generic path succeeds when the
    answer to its request is a success. *)
Definition generic_attempt_ok (env : Env) (r : Request) (attempt : nat)
  : bool :=
  ok_generic (transport env attempt r).

(** Whether [print] writes its line during the attempt. *)
Definition printed (env : Env) (attempt : nat) : bool :=
  match print_fault env attempt with
  | None => true
  | Some _ => false
  end.

(** The attempt of index [attempt] of the gateway path succeeds when the
    answer to its request is a success and the line is printed. *)
Definition gateway_attempt_ok (env : Env) (r : Request) (attempt : nat)
  : bool :=
  ok_gateway (transport env attempt r) && printed env attempt.

(** The request of the generic path. *)
Definition generic_request (cfg : Config) (reference : string)
    (payload : gmap string PyVal) : Request :=
  mkRequest _create_headers
    (default "" (SAVING_API_URL cfg) ++ "/send_sms") "POST"
    (GenericBody reference payload).

(** The request of the gateway path. *)
Definition gateway_request (cfg : Config) (normalized_phone message : string)
  : Request :=
  mkRequest
    [("Accept", "application/json"); ("Content-Type", "application/json")]
    (default "" (SAVING_API_URL cfg)) "POST"
    (GatewayBody (default "" (SMS_API_KEY cfg)) normalized_phone message).

Definition geez_cfg : Config :=
  mkConfig (Some "https://api.geezsms.com/api/v1/sms/send")
    (Some "secret-token") 3.

(** The network fails twice, then answers 200 with the body [OK], which is
    not JSON. *)
Definition plain_ok_env : Env :=
  mkEnv
    (fun attempt _ =>
       match attempt with
       | 2%nat => Returned (Some (mkResponse 200 "OK" false))
       | _ => Returned None
       end)
    "20260101120000123456" "0123456789abcdef0123456789abcdef"
    (fun _ => None).

Definition gateway_selected (cfg : Config) : bool :=
  str_truthy (SAVING_API_URL cfg)
  && contains (chars "geezsms.com") (chars (default "" (SAVING_API_URL cfg))).

(** The payload that [send_custom_sms] builds before the merge. *)
Definition custom_payload (phone : PyVal) (clean_message : string)
    (message_type : PyVal) : gmap string PyVal :=
  <["type" := message_type]>
    (<["message" := VStr clean_message]> (<["phone" := phone]> ∅)).

Definition generic_cfg : Config :=
  mkConfig (Some "https://saving.example.com/api") (Some "secret-token") 3.

(** An entry is valid when it has a phone and a message. *)
Definition is_valid (r : SmsRequest) : bool :=
  truthy (get_phone r) && truthy (get_message r).

(** The key under which an entry is recorded. *)
Definition entry_key (r : SmsRequest) : Key :=
  key_of (if truthy (get_phone r) then get_phone r else VStr "invalid").

(** The send of a valid entry, in its own environment. *)
Definition entry_send (cfg : Config) (env : Env) (r : SmsRequest) : M bool :=
  send_custom_sms cfg env (get_phone r) (get_message r)
    (default (VStr "notification") (key_type r)) (get_additional_data r).

Definition entry_outcome (cfg : Config) (env : Env) (r : SmsRequest) : bool :=
  result_or_false (outcome (entry_send cfg env r)).

(** The tasks of the valid entries, in order; [i] is the index of the
    first entry of the list. *)
Fixpoint tasks_from (cfg : Config) (envs : nat -> Env) (i : nat)
    (l : list SmsRequest) : list (PyVal * M bool) :=
  match l with
  | [] => []
  | r :: rest =>
      if is_valid r
      then (get_phone r, entry_send cfg (envs i) r)
             :: tasks_from cfg envs (S i) rest
      else tasks_from cfg envs (S i) rest
  end.

(** Successive writes [results[key x] = value x]. *)
Definition writes {X} (key : X -> Key) (value : X -> bool) (l : list X)
    (m : gmap Key bool) : gmap Key bool :=
  fold_left (fun m x => <[key x := value x]> m) l m.

(** The shape of an amount, read from its last character: two digits, a
    point, then groups of three digits separated by commas, the last
    group of one to three digits, and an optional minus sign. *)
Fixpoint grouped_rev (l : list ascii) : bool :=
  match l with
  | [] => false
  | a :: l1 =>
      is_ascii_digit a &&
      match l1 with
      | [] => true
      | b :: l2 =>
          if Ascii.eqb b "-" then Nat.eqb (length l2) 0
          else
            is_ascii_digit b &&
            match l2 with
            | [] => true
            | c :: l3 =>
                if Ascii.eqb c "-" then Nat.eqb (length l3) 0
                else
                  is_ascii_digit c &&
                  match l3 with
                  | [] => true
                  | d :: l4 =>
                      if Ascii.eqb d "-" then Nat.eqb (length l4) 0
                      else Ascii.eqb d "," && grouped_rev l4
                  end
            end
      end
  end.

Definition money_shape (s : string) : bool :=
  match rev (chars s) with
  | d2 :: d1 :: p :: int_rev =>
      is_ascii_digit d2 && is_ascii_digit d1 && Ascii.eqb p "."
      && grouped_rev int_rev
  | _ => false
  end.

Definition is_finite (x : spec_float) : bool :=
  match x with
  | S754_zero _ | S754_finite _ _ _ => true
  | _ => false
  end.



(** A network that answers 200 with an empty body to every request. *)
Definition ok_env : Env :=
  mkEnv (fun _ _ => Returned (Some (mkResponse 200 "" true)))
    "20260101120000123456" "0123456789abcdef0123456789abcdef"
    (fun _ => None).

(** Two entries with the same phone, the second without message. *)
Definition same_phone_requests : list SmsRequest :=
  [mkSmsRequest (VStr "0911223344") (VStr "hello") None (Scalar VNone);
   mkSmsRequest (VStr "0911223344") VNone None (Scalar VNone)].

(** ** Further operations of [SMSService] *)

(** Truth value of an amount, as [if fee_amount] tests it: a float or an
    integer is false when it is zero, a [Decimal] when it is a zero (an
    infinity and the NaNs are true), a string when it is empty; [None] is
    false. *)
Definition amount_truthy (amount : Amount) : bool :=
  match amount with
  | AFloat (S754_zero _) => false
  | AFloat _ => true
  | ADecimal (DFinite _ c _) => negb (c =? 0)%N
  | ADecimal _ => true
  | AStr s => negb (Nat.eqb (String.length s) 0)
  | AInt z => negb (z =? 0)
  | ANone => false
  end.

(** [float(amount)]: a string that does not read and a signalling NaN
    raise [ValueError], an integer beyond the range [OverflowError],
    [None] raises [TypeError]. *)
Definition float_of_amount (amount : Amount) : M spec_float :=
  match amount with
  | AFloat x => ret x
  | ADecimal d =>
      match float_of_decimal d with
      | Some x => ret x
      | None => raise ValueError
      end
  | AStr s =>
      match float_of_str s with
      | Some x => ret x
      | None => raise ValueError
      end
  | AInt z =>
      match nearest_float (z <? 0) (Z.abs_N z) 0 with
      | S754_infinity _ => raise OverflowError
      | x => ret x
      end
  | ANone => raise TypeError
  end.

(** [x > 0] on floats: false on the zeros and on NaN. *)
Definition float_gt_zero (x : spec_float) : bool :=
  match x with
  | S754_finite false _ _ | S754_infinity false => true
  | _ => false
  end.

Section Operations.

Variable cfg : Config.
Variable env : Env.

(** [SMSService.send_withdrawal_sms] *)
Definition send_withdrawal_sms (phone : PyVal) (amount balance : Amount)
    (product_name bank_name reference : string) (fee_amount : Amount)
    (customer_name : PyVal) : M bool :=
  do amount <- _format_amount amount;
  do saving_balance <- _format_amount balance;
  let payload : gmap string PyVal :=
    <["type" := VStr "withdrawal_confirmation"]>
      (<["bank_name" := VStr bank_name]>
         (<["saving_balance" := VStr saving_balance]>
            (<["product_name" := VStr product_name]>
               (<["amount" := VStr amount]>
                  (<["transaction_type" := VStr "WITHDRAWAL"]>
                     (<["phone" := phone]> ∅)))))) in
  do charged <-
    (if amount_truthy fee_amount
     then
       do fee <- float_of_amount fee_amount;
       ret (float_gt_zero fee)
     else ret false);
  do payload <-
    (if (charged : bool)
     then
       do fee <- _format_amount fee_amount;
       ret (<["fee_amount" := VStr fee]> payload)
     else ret payload);
  let payload :=
    if truthy customer_name
    then <["customer_name" := customer_name]> payload
    else payload in
  send_sms cfg env reference payload phone.

(** [SMSService.send_transfer_sms] *)
Definition send_transfer_sms (reference : string) (amount : Amount)
    (debit_product credit_product : string)
    (debit_balance credit_balance : Amount) (bank_name : string)
    (recipient_name phone : PyVal) : M bool :=
  do amount <- _format_amount amount;
  do saving_balance <- _format_amount debit_balance;
  do credit_saving_balance <- _format_amount credit_balance;
  let payload : gmap string PyVal :=
    <["type" := VStr "transfer_confirmation"]>
      (<["bank_name" := VStr bank_name]>
         (<["credit_saving_balance" := VStr credit_saving_balance]>
            (<["saving_balance" := VStr saving_balance]>
               (<["credit_product_name" := VStr credit_product]>
                  (<["debit_product_name" := VStr debit_product]>
                     (<["amount" := VStr amount]>
                        (<["transaction_type" := VStr "TRANSFER"]> ∅))))))) in
  let payload :=
    if truthy recipient_name
    then <["recipient_name" := recipient_name]> payload
    else payload in
  send_sms cfg env reference payload phone.

End Operations.

(** ** The HTTP views ([notifications/views.py]) *)

(** What [json.loads(request.body)] returns: an object, whose entries are
    scalars here, or a value that is not an object (an array, a string, a
    number, [true], [false] or [null]). *)
Inductive JsonValue : Type :=
  | JObject (d : gmap string PyVal)
  | JOther.

(** A value of a response: a literal text, or [str(e)] for the exception
    that was caught. *)
Inductive ResponseText : Type :=
  | Lit (s : string)
  | StrOf (e : Exn).

(** A [JsonResponse]: the entries of its dictionary and its status. *)
Record JsonResponse : Type := mkJsonResponse {
  jr_content : list (string * ResponseText);
  jr_status : Z
}.

(** [d.get(k)] *)
Definition dict_get (d : gmap string PyVal) (k : string) : PyVal :=
  default VNone (d !! k).

(** [SendSmsView.post]; [body] is what [json.loads(request.body)] does, and
    [async_to_sync] runs the service call to its end. *)
Definition SendSmsView_post (cfg : Config) (env : Env)
    (body : Result JsonValue) : M JsonResponse :=
  catch
    (do data <- ([], body);
     do d <-
       (match data with
        | JObject d => ret d
        | JOther => raise AttributeError
        end);
     let phone := dict_get d "phone" in
     let message := dict_get d "message" in
     if negb (truthy phone) || negb (truthy message)
     then
       ret (mkJsonResponse
              [("error", Lit "Phone and message are required")] 400)
     else
       do success <-
         send_custom_sms cfg env phone message (VStr "notification")
           (Scalar VNone);
       if (success : bool)
       then
         ret (mkJsonResponse
                [("status", Lit "success"); ("message", Lit "SMS sent")] 200)
       else
         ret (mkJsonResponse
                [("status", Lit "error");
                 ("message", Lit "Failed to send SMS")] 500))
    (fun e =>
       match e with
       | JSONDecodeError =>
           ret (mkJsonResponse [("error", Lit "Invalid JSON")] 400)
       | _ =>
           ret (mkJsonResponse
                  [("status", Lit "error"); ("message", StrOf e)] 500)
       end).

(** [MockSavingApiView.post]: the body is parsed and not looked at. *)
Definition MockSavingApiView_post {A} (body : Result A) : JsonResponse :=
  match body with
  | Ok _ =>
      mkJsonResponse
        [("status", Lit "success"); ("message", Lit "Mock SMS accepted")] 200
  | Raise e => mkJsonResponse [("error", StrOf e)] 400
  end.

(** ** Vocabulary of the further statements *)

(** The sleep after the attempt of index [k]. *)
Definition capped_backoff (k : nat) : Z := Z.min (2 ^ Z.of_nat k) 10.

(** A text made of whitespace only. *)
Definition blank (l : list ascii) : bool := forallb isspace l.

(** The network hands every request to the mock view, as the JSON object
    that the client serialised, and returns the status of its answer. *)
Definition served_by_mock (env : Env) : Prop :=
  forall attempt r, exists resp,
    transport env attempt r = Returned (Some resp)
    /\ status_code resp = jr_status (MockSavingApiView_post (Ok (rq_data r))).

Definition mock_cfg : Config :=
  mkConfig (Some "http://localhost:8000/notifications/mock-api") None 3.

(** A network that answers as the mock view does: the status is that of
    the view, the body some JSON text, which the generic path does not
    read. *)
Definition mock_env : Env :=
  mkEnv
    (fun _ r =>
       Returned
         (Some (mkResponse
                  (jr_status (MockSavingApiView_post (Ok (rq_data r))))
                  "{}" true)))
    "20260101120000123456" "0123456789abcdef0123456789abcdef"
    (fun _ => None).

(** What a run of a retry loop is: it ended with the result [b] after [n]
    requests [r], at most [limit]; the first [n - 1] failed and each was
    followed by its sleep; the last one succeeded when [b] is true, and
    failed as the [limit]-th one when [b] is false. *)
Definition run_of (env : Env) (ok : Attempt -> bool) (r : Request)
    (limit : nat) (m : M bool) (n : nat) (b : bool) : Prop :=
  outcome m = Ok b
  /\ (n <= limit)%nat
  /\ posts (trace m) = repeat r n
  /\ sleeps (trace m) = map capped_backoff (seq 0 (n - 1))
  /\ (forall k, (k < n - 1)%nat -> ok (transport env k r) = false)
  /\ (b = true -> (1 <= n)%nat /\ ok (transport env (n - 1) r) = true)
  /\ (b = false /\ (1 <= n)%nat ->
      n = limit /\ ok (transport env (n - 1) r) = false).

(** The same, the success of the attempt of index [k] being [ok k]. *)
Definition run_by (ok : nat -> bool) (r : Request) (limit : nat)
    (m : M bool) (n : nat) (b : bool) : Prop :=
  outcome m = Ok b
  /\ (n <= limit)%nat
  /\ posts (trace m) = repeat r n
  /\ sleeps (trace m) = map capped_backoff (seq 0 (n - 1))
  /\ (forall k, (k < n - 1)%nat -> ok k = false)
  /\ (b = true -> (1 <= n)%nat /\ ok (n - 1)%nat = true)
  /\ (b = false /\ (1 <= n)%nat -> n = limit /\ ok (n - 1)%nat = false).

(** What the named gateway is to receive: the configured token, a phone of
    twelve digits that starts with 2519, and a message of 1 to 300
    characters whose whitespace is made of single inner spaces. *)
Definition gateway_body_ok (cfg : Config) (body : Body) : Prop :=
  match body with
  | GatewayBody token phone msg =>
      token = default "" (SMS_API_KEY cfg)
      /\ String.length phone = 12%nat
      /\ startswith (chars "2519") (chars phone) = true
      /\ forallb isdigit_char (chars phone) = true
      /\ (1 <= String.length msg <= 300)%nat
      /\ tidy_from true (chars msg) = true
  | GenericBody _ _ => False
  end.

(** The entry ["fee_amount"] of a withdrawal: the formatted fee when it is
    a true value whose float is greater than zero. *)
Definition fee_field (fee_amount : Amount) : option PyVal :=
  if amount_truthy fee_amount
  then
    match outcome (float_of_amount fee_amount) with
    | Ok x => if float_gt_zero x then Some (VStr (format_2f x)) else None
    | Raise _ => None
    end
  else None.

(** An entry that is set only for a true value. *)
Definition optional_field (v : PyVal) : option PyVal :=
  if truthy v then Some v else None.

(** An amount that makes the formatter raise. *)
Definition overflows (amount : Amount) : Prop :=
  _format_amount amount = raise OverflowError.

(** A parsed body with a true phone and a true message. *)
Definition has_phone_and_message (d : gmap string PyVal) : bool :=
  truthy (dict_get d "phone") && truthy (dict_get d "message").

(** The clock prints twenty digits ([%Y%m%d%H%M%S%f]) and the random
    source thirty-two hexadecimal digits. *)
Definition well_formed (env : Env) : Prop :=
  String.length (strftime_now env) = 20%nat
  /\ String.length (uuid4_hex env) = 32%nat.

(** The millisecond of the clock and the eight random digits that a
    reference keeps. *)
Definition reference_stamp (env : Env) : list ascii * list ascii :=
  (firstn 17 (chars (strftime_now env)), firstn 8 (chars (uuid4_hex env))).

(** * Properties *)

(** ** Strings *)

Lemma chars_text l : chars (text l) = l.
Proof. apply list_ascii_of_string_of_list_ascii. Qed.

Lemma text_chars s : text (chars s) = s.
Proof. apply string_of_list_ascii_of_string. Qed.

Lemma length_text l : String.length (text l) = length l.
Proof. induction l as [|c l IH]; simpl; [reflexivity | now rewrite IH]. Qed.

Lemma length_chars s : length (chars s) = String.length s.
Proof. rewrite <- (text_chars s) at 2. now rewrite length_text. Qed.

Lemma isspace_space : isspace " " = true.
Proof. reflexivity. Qed.

Lemma ascii_eqb_true a b : Ascii.eqb a b = true -> a = b.
Proof. apply Ascii.eqb_eq. Qed.

(** *** Trimming *)

Lemma lstrip_snoc l c :
  lstrip (l ++ [c])
  = match lstrip l with
    | [] => if isspace c then [] else [c]
    | l' => (l' ++ [c])%list
    end.
Proof.
  induction l as [|a l IH]; simpl; [reflexivity |].
  destruct (isspace a); [exact IH | reflexivity].
Qed.

(** [rstrip] is [lstrip] read from the end. *)
Lemma rstrip_rev l : rstrip l = rev (lstrip (rev l)).
Proof.
  induction l as [|c r IH]; [reflexivity |].
  cbn [rstrip rev]. rewrite lstrip_snoc, IH.
  destruct (lstrip (rev r)) as [|a l'] eqn:H.
  - simpl. now destruct (isspace c).
  - rewrite (rev_app_distr (a :: l') [c]).
    change (rev [c]) with [c]. cbn [app].
    remember (rev (a :: l')) as x eqn:Hx.
    destruct x as [|y x]; [| reflexivity].
    apply (f_equal (@length ascii)) in Hx. rewrite length_rev in Hx.
    discriminate.
Qed.

(** *** Tidy lists are fixed by every step of the sanitiser *)

Lemma tidy_collapse_fixed l :
  forall after in_run,
    (in_run = true -> after = true) ->
    tidy_from after l = true -> collapse_from in_run l = l.
Proof.
  induction l as [|c r IH]; intros after in_run Himp Ht; simpl in *.
  - reflexivity.
  - destruct (isspace c) eqn:Hc.
    + apply andb_prop in Ht as [Ht Hr]. apply andb_prop in Ht as [Ha Heq].
      apply negb_true_iff in Ha. apply ascii_eqb_true in Heq. subst c.
      destruct in_run.
      * specialize (Himp eq_refl). congruence.
      * f_equal. apply (IH true true); auto.
    + f_equal. apply (IH false false); [discriminate | assumption].
Qed.

Lemma tidy_lstrip_fixed l : tidy_from true l = true -> lstrip l = l.
Proof.
  destruct l as [|c r]; simpl; [reflexivity |].
  destruct (isspace c); simpl; [discriminate | reflexivity].
Qed.

Lemma tidy_nonempty l : tidy_from true l = true -> l <> [].
Proof. intros H Hl. subst l. discriminate. Qed.

Lemma tidy_rstrip_fixed l : forall b, tidy_from b l = true -> rstrip l = l.
Proof.
  induction l as [|c r IH]; intros b Ht; simpl in *; [reflexivity |].
  destruct (isspace c) eqn:Hc.
  - apply andb_prop in Ht as [_ Hr].
    rewrite (IH _ Hr). destruct r; [discriminate | reflexivity].
  - rewrite (IH _ Ht). destruct r; reflexivity.
Qed.

Lemma tidy_strip_fixed l : tidy_from true l = true -> strip l = l.
Proof.
  intros H. unfold strip. rewrite (tidy_lstrip_fixed _ H).
  eapply tidy_rstrip_fixed; eassumption.
Qed.

Lemma tidy_replace1_fixed old new l :
  isspace old = true -> old <> " "%char ->
  forall b, tidy_from b l = true -> replace1 old new l = l.
Proof.
  intros Hold Hne. induction l as [|c r IH]; intros b Ht; simpl in *.
  - reflexivity.
  - destruct (Ascii.eqb c old) eqn:Heq.
    + apply ascii_eqb_true in Heq. subst c. rewrite Hold in Ht.
      apply andb_prop in Ht as [Ht _]. apply andb_prop in Ht as [_ Ht].
      apply ascii_eqb_true in Ht. contradiction.
    + simpl. f_equal. destruct (isspace c).
      * apply andb_prop in Ht as [_ Hr]. eapply IH; eassumption.
      * eapply IH; eassumption.
Qed.

Lemma tidy_nospace l :
  forallb (fun c => negb (isspace c)) l = true -> tidy_from false l = true.
Proof.
  induction l as [|c r IH]; simpl; [reflexivity |].
  intros H. apply andb_prop in H as [Hc Hr].
  apply negb_true_iff in Hc. rewrite Hc. auto.
Qed.

Lemma tidy_nospace_nonempty b l :
  l <> [] -> forallb (fun c => negb (isspace c)) l = true ->
  tidy_from b l = true.
Proof.
  destruct l as [|c r]; [congruence |]. simpl. intros _ H.
  apply andb_prop in H as [Hc Hr]. apply negb_true_iff in Hc. rewrite Hc.
  now apply tidy_nospace.
Qed.

Lemma tidy_truncate dots :
  dots <> [] -> forallb (fun c => negb (isspace c)) dots = true ->
  forall l n b, tidy_from b l = true ->
    tidy_from b (firstn n l ++ dots)%list = true.
Proof.
  intros Hne Hdots. induction l as [|c r IH]; intros n b Ht.
  - rewrite firstn_nil. simpl. now apply tidy_nospace_nonempty.
  - destruct n as [|n]; [simpl; now apply tidy_nospace_nonempty |].
    simpl in *. destruct (isspace c).
    + apply andb_prop in Ht as [Ht Hr]. rewrite Ht. simpl. now apply IH.
    + now apply IH.
Qed.

(** *** The sanitiser produces tidy lists *)

Lemma rstrip_ends l : rstrip l = [] \/ ends_nonspace (rstrip l) = true.
Proof.
  induction l as [|c r IH]; simpl; [now left |].
  destruct (rstrip r) as [|d r'] eqn:Hr.
  - destruct (isspace c) eqn:Hc; [now left | right; simpl; now rewrite Hc].
  - right. destruct IH as [IH | IH]; [discriminate |]. exact IH.
Qed.

Lemma rstrip_head c r :
  isspace c = false -> exists r', rstrip (c :: r) = c :: r'.
Proof.
  intros Hc. simpl. destruct (rstrip r); rewrite ?Hc; eauto.
Qed.

Lemma lstrip_head l :
  lstrip l = [] \/ exists c r, lstrip l = c :: r /\ isspace c = false.
Proof.
  induction l as [|c r IH]; simpl; [now left |].
  destruct (isspace c) eqn:Hc; [exact IH | right; eauto].
Qed.

Lemma strip_shape l :
  strip l = [] \/
  exists c r, strip l = c :: r /\ isspace c = false
              /\ ends_nonspace (c :: r) = true.
Proof.
  unfold strip. destruct (lstrip_head l) as [-> | (c & r & -> & Hc)].
  - now left.
  - destruct (rstrip_head c r Hc) as [r' Hr'].
    right. exists c, r'. split; [exact Hr' |]. split; [exact Hc |].
    destruct (rstrip_ends (c :: r)) as [H | H]; rewrite Hr' in H;
      [discriminate | exact H].
Qed.

Lemma collapse_tidy l :
  forall b, ends_nonspace l = true ->
    tidy_from b (collapse_from b l) = true.
Proof.
  induction l as [|c r IH]; intros b He; [discriminate |].
  simpl in He. simpl. destruct (isspace c) eqn:Hc.
  - destruct r as [|d r']; [discriminate |].
    destruct b.
    + now apply IH.
    + change (tidy_from true (collapse_from true (d :: r')) = true).
      now apply IH.
  - change (tidy_from b (c :: collapse_from false r) = true).
    simpl. rewrite Hc. destruct r as [|d r']; [reflexivity |].
    now apply IH.
Qed.

Lemma collapse_strip_tidy l :
  re_sub_spaces (strip l) = [] \/
  tidy_from true (re_sub_spaces (strip l)) = true.
Proof.
  destruct (strip_shape l) as [-> | (c & r & -> & Hc & He)]; [now left |].
  right. unfold re_sub_spaces.
  pose proof (collapse_tidy (c :: r) true He) as H.
  simpl in *. rewrite Hc in *. exact H.
Qed.

(** *** The sanitiser *)

Lemma validate_message_unfold s :
  _validate_message (VStr s) =
  if Nat.eqb (String.length s) 0 then ""
  else text (newline_free (truncated (re_sub_spaces (strip (chars s))))).
Proof.
  unfold _validate_message, truthy. rewrite negb_involutive. reflexivity.
Qed.

Lemma newline_free_tidy m :
  tidy_from true m = true -> newline_free m = m.
Proof.
  intros H. unfold newline_free.
  assert (Hfix : forall old, isspace old = true -> old <> " "%char ->
                   replace1 old (chars " ") m = m).
  { intros old H1 H2. now apply (tidy_replace1_fixed old _ m H1 H2 true). }
  rewrite (Hfix "010"%char), (Hfix "013"%char), (Hfix "009"%char);
    first [reflexivity | discriminate].
Qed.

Lemma truncated_tidy m :
  tidy_from true m = true -> tidy_from true (truncated m) = true.
Proof.
  intros H. unfold truncated. destruct (300 <? length m)%nat; [| exact H].
  apply tidy_truncate; [discriminate | reflexivity | exact H].
Qed.

Lemma truncated_length m : (length (truncated m) <= 300)%nat.
Proof.
  unfold truncated. destruct (Nat.ltb_spec 300 (length m)) as [H | H].
  - rewrite length_app, firstn_length_le by lia.
    change (length (chars "...")) with 3%nat. lia.
  - exact H.
Qed.

Lemma truncated_short m : (length m <= 300)%nat -> truncated m = m.
Proof.
  intros H. unfold truncated.
  destruct (Nat.ltb_spec 300 (length m)); [lia | reflexivity].
Qed.

(** A tidy list of at most 300 characters is a fixed point. *)
Lemma validate_message_fixed m :
  tidy_from true m = true -> (length m <= 300)%nat ->
  _validate_message (VStr (text m)) = text m.
Proof.
  intros Ht Hlen. rewrite validate_message_unfold, length_text.
  destruct m as [|c r]; [discriminate |].
  change (Nat.eqb (length (c :: r)) 0) with false. cbv iota.
  rewrite chars_text, (tidy_strip_fixed _ Ht).
  unfold re_sub_spaces.
  rewrite (tidy_collapse_fixed _ true false) by (discriminate || assumption).
  rewrite truncated_short by assumption.
  now rewrite newline_free_tidy.
Qed.

(** The sanitiser returns the empty string or a tidy text of at most 300
    characters. *)
Lemma validate_message_shape s :
  _validate_message (VStr s) = "" \/
  exists m, _validate_message (VStr s) = text m
            /\ tidy_from true m = true /\ (length m <= 300)%nat.
Proof.
  rewrite validate_message_unfold.
  destruct (Nat.eqb (String.length s) 0); [now left |].
  destruct (collapse_strip_tidy (chars s)) as [-> | Ht]; [now left |].
  right. exists (truncated (re_sub_spaces (strip (chars s)))).
  pose proof (truncated_tidy _ Ht) as Ht'.
  rewrite (newline_free_tidy _ Ht').
  split; [reflexivity |]. split; [exact Ht' | apply truncated_length].
Qed.

Lemma validate_message_nonstr v :
  (forall s, v <> VStr s) -> _validate_message v = "".
Proof. destruct v; intros H; try reflexivity. now destruct (H s). Qed.

(** C6. [sanitizeMessage] is idempotent: sanitising a sanitised message
    changes nothing, for every string [x]. *)
Theorem validate_message_idempotent (x : string) :
  _validate_message (VStr (_validate_message (VStr x))) =
  _validate_message (VStr x).
Proof.
  destruct (validate_message_shape x) as [-> | (m & -> & Ht & Hlen)].
  - reflexivity.
  - now apply validate_message_fixed.
Qed.

(** Idempotence also holds when the first argument is not a string: the
    sanitiser then returns the empty string. *)
Lemma validate_message_idempotent_any (v : PyVal) :
  _validate_message (VStr (_validate_message v)) = _validate_message v.
Proof.
  destruct v; try reflexivity.
  destruct (validate_message_shape s) as [-> | (m & -> & Ht & Hlen)];
    [reflexivity | now apply validate_message_fixed].
Qed.

(** C7 as stated fails: four hundred spaces are sanitised to the empty
    string, not to 300 characters. *)
Lemma validate_message_400_spaces :
  let x := text (repeat " "%char 400) in
  String.length x = 400%nat /\
  _validate_message (VStr x) = "" /\
  String.length (_validate_message (VStr x)) <> 300%nat.
Proof. vm_compute. repeat split; discriminate. Qed.

(** C7, amended.  Whenever the trimmed and whitespace-collapsed form of the
    input is longer than 300 characters, the sanitiser returns exactly 300
    characters: the first 297 of that form followed by the ellipsis. *)
Theorem validate_message_truncates (x : string) :
  (300 < length (re_sub_spaces (strip (chars x))))%nat ->
  _validate_message (VStr x) =
    text (firstn 297 (re_sub_spaces (strip (chars x))) ++ chars "...")%list
  /\ String.length (_validate_message (VStr x)) = 300%nat.
Proof.
  intros Hlen. rewrite validate_message_unfold.
  destruct (String.length x =? 0)%nat eqn:Hx.
  - apply Nat.eqb_eq in Hx. rewrite <- length_chars in Hx.
    destruct (chars x); [simpl in Hlen; lia | discriminate].
  - destruct (collapse_strip_tidy (chars x)) as [Hnil | Ht].
    + rewrite Hnil in Hlen. simpl in Hlen. lia.
    + rewrite (newline_free_tidy _ (truncated_tidy _ Ht)).
      unfold truncated.
      destruct (Nat.ltb_spec 300 (length (re_sub_spaces (strip (chars x)))));
        [| lia].
      split; [reflexivity |].
      rewrite length_text, length_app, firstn_length_le by lia.
      reflexivity.
Qed.

Lemma validate_message_truncates_witness :
  let x := text (repeat "a"%char 400) in
  (300 < length (re_sub_spaces (strip (chars x))))%nat /\
  String.length (_validate_message (VStr x)) = 300%nat.
Proof.
  split.
  - vm_compute. lia.
  - apply (validate_message_truncates (text (repeat "a"%char 400))).
    vm_compute. lia.
Defined.

(** ** Gateway phone normalisation *)

Lemma replace1_separators l :
  replace1 "-" [] (replace1 " " [] l) = without_separators l.
Proof.
  induction l as [|c r IH]; [reflexivity |].
  unfold replace1, without_separators in *. simpl.
  destruct (Ascii.eqb c " ") eqn:Hs; simpl; [exact IH |].
  destruct (Ascii.eqb c "-") eqn:Hh; simpl; [exact IH |].
  now rewrite IH.
Qed.

Lemma drop_plus_startswith l :
  (if startswith (chars "+") l then skipn 1 l else l) = drop_plus l.
Proof.
  destruct l as [|c r]; [reflexivity |]. simpl.
  rewrite andb_true_r, Ascii.eqb_sym. reflexivity.
Qed.

Lemma accept_gateway_shape l r :
  accept_gateway l = Some r ->
  String.length r = 12%nat /\ startswith (chars "2519") (chars r) = true.
Proof.
  unfold accept_gateway.
  destruct (startswith (chars "2519") l) eqn:Hs; [| discriminate].
  destruct (Nat.eqb_spec (length l) 12) as [Hl | Hl]; [| discriminate].
  simpl. intros [= <-]. now rewrite length_text, chars_text.
Qed.

Lemma normalize_outcome phone :
  outcome (_normalize_ethiopian_phone phone) =
  Ok (normalizeGatewayPhone_amended phone).
Proof.
  unfold _normalize_ethiopian_phone, normalizeGatewayPhone_amended.
  rewrite replace1_separators, drop_plus_startswith.
  set (s := drop_plus (without_separators (strip (chars phone)))).
  unfold accept_gateway.
  destruct (startswith (chars "251") s).
  { cbn [bind ret]. now destruct (_ && _). }
  destruct (startswith (chars "0") s).
  { cbn [bind ret]. now destruct (_ && _). }
  destruct (startswith (chars "9") s && Nat.eqb (length s) 9).
  { cbn [bind ret]. now destruct (_ && _). }
  reflexivity.
Qed.

Lemma normalize_accepts_quietly phone r :
  outcome (_normalize_ethiopian_phone phone) = Ok (Some r) ->
  trace (_normalize_ethiopian_phone phone) = [].
Proof.
  unfold _normalize_ethiopian_phone.
  rewrite replace1_separators, drop_plus_startswith.
  set (s := drop_plus (without_separators (strip (chars phone)))).
  destruct (startswith (chars "251") s).
  { cbn [bind ret]. destruct (_ && _); [reflexivity | discriminate]. }
  destruct (startswith (chars "0") s).
  { cbn [bind ret]. destruct (_ && _); [reflexivity | discriminate]. }
  destruct (startswith (chars "9") s && Nat.eqb (length s) 9).
  { cbn [bind ret]. destruct (_ && _); [reflexivity | discriminate]. }
  discriminate.
Qed.

(** What the normaliser returns has twelve characters and starts with
    2519. *)
Lemma normalize_shape phone r :
  outcome (_normalize_ethiopian_phone phone) = Ok (Some r) ->
  String.length r = 12%nat /\ startswith (chars "2519") (chars r) = true.
Proof.
  rewrite normalize_outcome. intros [= Hr].
  unfold normalizeGatewayPhone_amended in Hr.
  repeat match type of Hr with
         | (if ?b then _ else _) = _ => destruct b
         end;
    try discriminate; eapply accept_gateway_shape; eassumption.
Qed.

(** C5 as stated fails: nine characters that start with 9 are accepted
    whether they are digits or not. *)
Lemma normalize_nine_letters :
  outcome (_normalize_ethiopian_phone "9abcdefgh") = Ok (Some "2519abcdefgh")
  /\ normalizeGatewayPhone_spec "9abcdefgh" = None.
Proof. split; reflexivity. Qed.

(** C5, amended.  The normaliser trims the surrounding whitespace, removes
    spaces and hyphens and one leading plus sign; it then keeps an input
    that starts with 251, replaces a leading 0 by 251, prefixes 251 to a
    nine-character input that starts with 9, and rejects any other shape;
    what it returns has twelve characters and starts with 2519.  The four
    numbers of the specification normalise as it says. *)
Theorem normalize_ethiopian_phone_correct :
  (forall phone,
     outcome (_normalize_ethiopian_phone phone) =
       Ok (normalizeGatewayPhone_amended phone)
     /\ forall r, outcome (_normalize_ethiopian_phone phone) = Ok (Some r) ->
          String.length r = 12%nat
          /\ startswith (chars "2519") (chars r) = true)
  /\ outcome (_normalize_ethiopian_phone "0911223344")
     = Ok (Some "251911223344")
  /\ outcome (_normalize_ethiopian_phone "911223344")
     = Ok (Some "251911223344")
  /\ outcome (_normalize_ethiopian_phone "251911223344")
     = Ok (Some "251911223344")
  /\ outcome (_normalize_ethiopian_phone "12345") = Ok None.
Proof.
  split; [| repeat split; reflexivity].
  intros phone. split; [apply normalize_outcome |].
  intros r. rewrite normalize_outcome. intros [= Hr].
  unfold normalizeGatewayPhone_amended in Hr.
  repeat match type of Hr with
         | (if ?b then _ else _) = _ => destruct b
         end;
    try discriminate; eapply accept_gateway_shape; eassumption.
Qed.

(** ** The monad of traces *)

Lemma posts_app t1 t2 : posts (t1 ++ t2) = (posts t1 ++ posts t2)%list.
Proof. apply flat_map_app. Qed.

Lemma sleeps_app t1 t2 : sleeps (t1 ++ t2) = (sleeps t1 ++ sleeps t2)%list.
Proof. apply flat_map_app. Qed.

Lemma bind_emit {A} e (k : unit -> M A) :
  bind (emit e) k = prefixed [e] (k tt).
Proof. unfold bind, emit, prefixed. now destruct (k tt). Qed.

Lemma bind_log {A} lvl msg (k : unit -> M A) :
  bind (log lvl msg) k = prefixed [Log lvl msg] (k tt).
Proof. apply bind_emit. Qed.

Lemma bind_ret {A B} (a : A) (k : A -> M B) : bind (ret a) k = k a.
Proof. unfold bind, ret. now destruct (k a). Qed.

Lemma bind_prefixed {A B} t (m : M A) (k : A -> M B) :
  bind (prefixed t m) k = prefixed t (bind m k).
Proof.
  destruct m as [t1 [a | e]]; unfold prefixed, bind; simpl.
  - destruct (k a). simpl. now rewrite app_assoc.
  - reflexivity.
Qed.

Lemma catch_prefixed {A} t (m : M A) h :
  catch (prefixed t m) h = prefixed t (catch m h).
Proof.
  destruct m as [t1 [a | e]]; unfold prefixed, catch; simpl.
  - reflexivity.
  - destruct (h e). simpl. now rewrite app_assoc.
Qed.

Lemma prefixed_prefixed {A} t1 t2 (m : M A) :
  prefixed t1 (prefixed t2 m) = prefixed (t1 ++ t2) m.
Proof. unfold prefixed. simpl. now rewrite app_assoc. Qed.

Lemma prefixed_nil {A} (m : M A) : prefixed [] m = m.
Proof. now destruct m. Qed.

Lemma trace_prefixed {A} t (m : M A) :
  trace (prefixed t m) = (t ++ trace m)%list.
Proof. reflexivity. Qed.

Lemma outcome_prefixed {A} t (m : M A) : outcome (prefixed t m) = outcome m.
Proof. reflexivity. Qed.

Lemma catch_ret {A} (a : A) h : catch (ret a) h = ret a.
Proof. reflexivity. Qed.

Lemma bind_returned {A B} t (a : A) (k : A -> M B) :
  bind (t, Ok a) k = prefixed t (k a).
Proof. unfold bind, prefixed. now destruct (k a). Qed.

Lemma catch_raise {A} e (h : Exn -> M A) : catch (raise e) h = h e.
Proof. unfold catch, raise. now destruct (h e). Qed.

Lemma bind_raise {A B} e (k : A -> M B) : bind (raise e) k = raise e.
Proof. reflexivity. Qed.

(** Normalisation of a computation into a prefix of events followed by
    what remains to run. *)
Ltac mnorm :=
  repeat first
    [ rewrite bind_prefixed | rewrite catch_prefixed | rewrite bind_ret
    | rewrite catch_ret | rewrite bind_log | rewrite bind_emit
    | rewrite catch_raise | rewrite bind_raise
    | rewrite prefixed_prefixed ].

(** ** The retry loops, one iteration at a time *)

Section Loops.

Variable cfg : Config.
Variable env : Env.

Lemma backoff_run {A} attempt (k : M A) :
  bind (if Z.of_nat attempt <? SMS_RETRY_ATTEMPTS cfg - 1
        then sleep (Z.min (2 ^ Z.of_nat attempt) 10) else ret tt)
       (fun _ => k)
  = prefixed (backoff cfg attempt) k.
Proof.
  unfold backoff. destruct (_ <? _).
  - apply bind_emit.
  - now rewrite bind_ret, prefixed_nil.
Qed.

Lemma send_sms_attempts_step r reference todo attempt :
  send_sms_attempts cfg env r reference (S todo) attempt =
  match transport env attempt r with
  | Returned response =>
      if is_200 response
      then ([Post r; Log INFO (SmsSent reference)], Ok true)
      else prefixed
             ([Post r;
               Log WARNING (SmsAttemptFailed (Z.of_nat attempt + 1)
                              (status_of response) reference)]
              ++ backoff cfg attempt)
             (send_sms_attempts cfg env r reference todo (S attempt))
  | Failed e =>
      prefixed
        ([Post r;
          Log ERROR (SmsAttemptError (Z.of_nat attempt + 1) e reference)]
         ++ backoff cfg attempt)
        (send_sms_attempts cfg env r reference todo (S attempt))
  end.
Proof.
  cbn [send_sms_attempts]. unfold wait_for_request.
  destruct (transport env attempt r) as [response | e]; mnorm.
  - destruct (is_200 response); mnorm; [reflexivity |].
    rewrite backoff_run. now mnorm.
  - rewrite backoff_run. now mnorm.
Qed.

Lemma geezsms_attempts_step r masked todo attempt :
  geezsms_attempts cfg env r masked (S todo) attempt =
  match transport env attempt r with
  | Returned response =>
      if is_200 response
      then
        if json_raises response
        then prefixed
               ([Post r;
                 Log ERROR (GeezAttemptError (Z.of_nat attempt + 1)
                              JSONDecodeError)]
                ++ backoff cfg attempt)
               (geezsms_attempts cfg env r masked todo (S attempt))
        else
          match print_fault env attempt with
          | Some e =>
              prefixed
                ([Post r;
                  Log ERROR (GeezAttemptError (Z.of_nat attempt + 1) e)]
                 ++ backoff cfg attempt)
                (geezsms_attempts cfg env r masked todo (S attempt))
          | None =>
              ([Post r; Log INFO GeezApiResponse;
                Log INFO (GeezSent masked)], Ok true)
          end
      else prefixed
             ([Post r;
               Log WARNING (GeezAttemptFailed (Z.of_nat attempt + 1)
                              (status_of response))]
              ++ backoff cfg attempt)
             (geezsms_attempts cfg env r masked todo (S attempt))
  | Failed e =>
      prefixed
        ([Post r; Log ERROR (GeezAttemptError (Z.of_nat attempt + 1) e)]
         ++ backoff cfg attempt)
        (geezsms_attempts cfg env r masked todo (S attempt))
  end.
Proof.
  cbn [geezsms_attempts]. unfold wait_for_request.
  destruct (transport env attempt r) as [response | e]; mnorm.
  - destruct (is_200 response) eqn:H200; mnorm.
    + destruct response as [resp |]; [| discriminate].
      unfold json_raises.
      destruct (negb (Nat.eqb (String.length (resp_text resp)) 0)
                && negb (json_parses resp)); mnorm.
      * rewrite backoff_run. now mnorm.
      * destruct (print_fault env attempt) as [e |]; mnorm.
        -- rewrite backoff_run. now mnorm.
        -- reflexivity.
    + rewrite backoff_run. now mnorm.
  - rewrite backoff_run. now mnorm.
Qed.

(** What both loops share: an iteration either returns [True] after its
    request, or posts, backs off and goes on. *)
Section RetryLoop.

Variable r : Request.
Variable loop : nat -> nat -> M bool.
Variable ok : nat -> bool.

Hypothesis loop_done : forall attempt,
  outcome (loop 0%nat attempt) = Ok false
  /\ posts (trace (loop 0%nat attempt)) = []
  /\ sleeps (trace (loop 0%nat attempt)) = [].

Hypothesis loop_step : forall todo attempt,
  if ok attempt
  then outcome (loop (S todo) attempt) = Ok true
       /\ posts (trace (loop (S todo) attempt)) = [r]
       /\ sleeps (trace (loop (S todo) attempt)) = []
  else outcome (loop (S todo) attempt) = outcome (loop todo (S attempt))
       /\ posts (trace (loop (S todo) attempt))
          = r :: posts (trace (loop todo (S attempt)))
       /\ sleeps (trace (loop (S todo) attempt))
          = (sleeps (backoff cfg attempt)
             ++ sleeps (trace (loop todo (S attempt))))%list.

Lemma loop_exhausted todo : forall attempt,
  (forall k, (attempt <= k < attempt + todo)%nat ->
             ok k = false) ->
  outcome (loop todo attempt) = Ok false
  /\ posts (trace (loop todo attempt)) = repeat r todo
  /\ sleeps (trace (loop todo attempt))
     = flat_map (fun k => sleeps (backoff cfg k)) (seq attempt todo).
Proof.
  induction todo as [|todo IH]; intros attempt Hfail.
  - apply loop_done.
  - pose proof (loop_step todo attempt) as Hs.
    rewrite Hfail in Hs by lia. destruct Hs as (Ho & Hp & Hsl).
    destruct (IH (S attempt)) as (Ho' & Hp' & Hsl').
    { intros k Hk. apply Hfail. lia. }
    rewrite Ho, Hp, Hsl, Ho', Hp', Hsl'. auto.
Qed.

Lemma loop_succeeds j : forall todo attempt,
  (j < todo)%nat ->
  (forall k, (attempt <= k < attempt + j)%nat ->
             ok k = false) ->
  ok (attempt + j)%nat = true ->
  outcome (loop todo attempt) = Ok true
  /\ posts (trace (loop todo attempt)) = repeat r (S j)
  /\ sleeps (trace (loop todo attempt))
     = flat_map (fun k => sleeps (backoff cfg k)) (seq attempt j).
Proof.
  induction j as [|j IH]; intros todo attempt Hlt Hfail Hok;
    (destruct todo as [|todo]; [lia |]);
    pose proof (loop_step todo attempt) as Hs.
  - rewrite Nat.add_0_r in Hok. rewrite Hok in Hs. exact Hs.
  - rewrite Hfail in Hs by lia. destruct Hs as (Ho & Hp & Hsl).
    destruct (IH todo (S attempt)) as (Ho' & Hp' & Hsl').
    + lia.
    + intros k Hk. apply Hfail. lia.
    + now replace (S attempt + j)%nat with (attempt + S j)%nat by lia.
    + rewrite Ho, Hp, Hsl, Ho', Hp', Hsl'. auto.
Qed.

Lemma loop_posts todo : forall attempt,
  Forall (eq r) (posts (trace (loop todo attempt))).
Proof.
  induction todo as [|todo IH]; intros attempt.
  - destruct (loop_done attempt) as (_ & -> & _). constructor.
  - pose proof (loop_step todo attempt) as Hs.
    destruct (ok attempt); destruct Hs as (_ & -> & _).
    + repeat constructor.
    + constructor; [reflexivity | apply IH].
Qed.

End RetryLoop.

Lemma sleeps_backoff_cons t attempt :
  sleeps (t ++ backoff cfg attempt) = (sleeps t ++ sleeps (backoff cfg attempt))%list.
Proof. apply sleeps_app. Qed.

Lemma send_sms_attempts_done r reference attempt :
  outcome (send_sms_attempts cfg env r reference 0 attempt) = Ok false
  /\ posts (trace (send_sms_attempts cfg env r reference 0 attempt)) = []
  /\ sleeps (trace (send_sms_attempts cfg env r reference 0 attempt)) = [].
Proof. repeat split. Qed.

Lemma send_sms_attempts_iter r reference todo attempt :
  if ok_generic (transport env attempt r)
  then outcome (send_sms_attempts cfg env r reference (S todo) attempt)
       = Ok true
       /\ posts (trace (send_sms_attempts cfg env r reference (S todo)
                          attempt)) = [r]
       /\ sleeps (trace (send_sms_attempts cfg env r reference (S todo)
                           attempt)) = []
  else outcome (send_sms_attempts cfg env r reference (S todo) attempt)
       = outcome (send_sms_attempts cfg env r reference todo (S attempt))
       /\ posts (trace (send_sms_attempts cfg env r reference (S todo)
                          attempt))
          = r :: posts (trace (send_sms_attempts cfg env r reference todo
                                 (S attempt)))
       /\ sleeps (trace (send_sms_attempts cfg env r reference (S todo)
                           attempt))
          = (sleeps (backoff cfg attempt)
             ++ sleeps (trace (send_sms_attempts cfg env r reference todo
                                 (S attempt))))%list.
Proof.
  rewrite send_sms_attempts_step. unfold ok_generic.
  destruct (transport env attempt r) as [response | e].
  - destruct (is_200 response); [repeat split |].
    rewrite outcome_prefixed, trace_prefixed, posts_app, !sleeps_app.
    repeat split. unfold backoff. now destruct (_ <? _).
  - rewrite outcome_prefixed, trace_prefixed, posts_app, !sleeps_app.
    repeat split. unfold backoff. now destruct (_ <? _).
Qed.

Lemma geezsms_attempts_done r masked attempt :
  outcome (geezsms_attempts cfg env r masked 0 attempt) = Ok false
  /\ posts (trace (geezsms_attempts cfg env r masked 0 attempt)) = []
  /\ sleeps (trace (geezsms_attempts cfg env r masked 0 attempt)) = [].
Proof. repeat split. Qed.

Lemma geezsms_attempts_iter r masked todo attempt :
  if gateway_attempt_ok env r attempt
  then outcome (geezsms_attempts cfg env r masked (S todo) attempt)
       = Ok true
       /\ posts (trace (geezsms_attempts cfg env r masked (S todo)
                          attempt)) = [r]
       /\ sleeps (trace (geezsms_attempts cfg env r masked (S todo)
                           attempt)) = []
  else outcome (geezsms_attempts cfg env r masked (S todo) attempt)
       = outcome (geezsms_attempts cfg env r masked todo (S attempt))
       /\ posts (trace (geezsms_attempts cfg env r masked (S todo)
                          attempt))
          = r :: posts (trace (geezsms_attempts cfg env r masked todo
                                 (S attempt)))
       /\ sleeps (trace (geezsms_attempts cfg env r masked (S todo)
                           attempt))
          = (sleeps (backoff cfg attempt)
             ++ sleeps (trace (geezsms_attempts cfg env r masked todo
                                 (S attempt))))%list.
Proof.
  rewrite geezsms_attempts_step.
  unfold gateway_attempt_ok, ok_gateway, printed.
  destruct (transport env attempt r) as [response | e].
  - destruct (is_200 response); cbn [andb].
    + destruct (json_raises response); cbn [negb andb].
      * rewrite outcome_prefixed, trace_prefixed, posts_app, !sleeps_app.
        repeat split. unfold backoff. now destruct (_ <? _).
      * destruct (print_fault env attempt) as [e |]; [| repeat split].
        rewrite outcome_prefixed, trace_prefixed, posts_app, !sleeps_app.
        repeat split. unfold backoff. now destruct (_ <? _).
    + rewrite outcome_prefixed, trace_prefixed, posts_app, !sleeps_app.
      repeat split. unfold backoff. now destruct (_ <? _).
  - rewrite outcome_prefixed, trace_prefixed, posts_app, !sleeps_app.
    repeat split. unfold backoff. now destruct (_ <? _).
Qed.

End Loops.

(** ** Retry and backoff of the delivery engine *)

Lemma ok_generic_true a :
  ok_generic a = true <->
  exists resp, a = Returned (Some resp) /\ status_code resp = 200.
Proof.
  destruct a as [[resp |] | e]; simpl; split.
  - intros H. exists resp. split; [reflexivity | now apply Z.eqb_eq].
  - intros (resp' & [= <-] & H). now apply Z.eqb_eq.
  - discriminate.
  - intros (? & [=] & _).
  - discriminate.
  - intros (? & [=] & _).
Qed.

Lemma ok_gateway_true a :
  ok_gateway a = true <->
  exists resp, a = Returned (Some resp) /\ status_code resp = 200
               /\ (resp_text resp = "" \/ json_parses resp = true).
Proof.
  destruct a as [[resp |] | e]; simpl; split.
  - intros H. apply andb_prop in H as [H1 H2].
    exists resp. split; [reflexivity |]. split; [now apply Z.eqb_eq |].
    apply negb_true_iff, andb_false_iff in H2 as [H2 | H2].
    + left. apply negb_false_iff, Nat.eqb_eq in H2.
      now destruct (resp_text resp).
    + right. now apply negb_false_iff in H2.
  - intros (resp' & [= <-] & H1 & H2). apply andb_true_intro. split.
    + now apply Z.eqb_eq.
    + apply negb_true_iff, andb_false_iff.
      destruct H2 as [-> | ->]; [now left | now right].
  - discriminate.
  - intros (? & [=] & _).
  - discriminate.
  - intros (? & [=] & _).
Qed.

Lemma send_sms_attempts_returns cfg env r reference todo :
  forall attempt, exists b,
    outcome (send_sms_attempts cfg env r reference todo attempt) = Ok b.
Proof.
  induction todo as [|todo IH]; intros attempt; [now exists false |].
  pose proof (send_sms_attempts_iter cfg env r reference todo attempt) as H.
  destruct (ok_generic (transport env attempt r)).
  - exists true. apply H.
  - destruct (IH (S attempt)) as [b Hb]. exists b.
    destruct H as (-> & _). exact Hb.
Qed.

Lemma geezsms_attempts_returns cfg env r masked todo :
  forall attempt, exists b,
    outcome (geezsms_attempts cfg env r masked todo attempt) = Ok b.
Proof.
  induction todo as [|todo IH]; intros attempt; [now exists false |].
  pose proof (geezsms_attempts_iter cfg env r masked todo attempt) as H.
  destruct (gateway_attempt_ok env r attempt).
  - exists true. apply H.
  - destruct (IH (S attempt)) as [b Hb]. exists b.
    destruct H as (-> & _). exact Hb.
Qed.

Lemma catch_returns {A} (m : M A) h a : outcome m = Ok a -> catch m h = m.
Proof. destruct m as [t [a' | e]]; simpl; [reflexivity | discriminate]. Qed.

(** Past its two checks, [send_sms] is its retry loop. *)
Lemma send_sms_dispatch cfg env reference payload phone :
  str_truthy (SAVING_API_URL cfg) = true ->
  truthy phone && negb (_validate_phone phone) = false ->
  send_sms cfg env reference payload phone =
  prefixed
    [Log INFO (SmsSending reference
                 (if truthy phone then phone else VStr "in_payload"))]
    (send_sms_attempts cfg env (generic_request cfg reference payload)
       reference (Z.to_nat (SMS_RETRY_ATTEMPTS cfg)) 0).
Proof.
  intros Hurl Hphone. unfold send_sms. rewrite Hurl, Hphone. cbn [negb].
  mnorm. fold (generic_request cfg reference payload).
  destruct (send_sms_attempts_returns cfg env
              (generic_request cfg reference payload) reference
              (Z.to_nat (SMS_RETRY_ATTEMPTS cfg)) 0) as [b Hb].
  now rewrite (catch_returns _ _ b Hb).
Qed.

(** Past its checks, [_send_geezsms] is its retry loop. *)
Lemma send_geezsms_dispatch cfg env phone message normalized :
  str_truthy (SMS_API_KEY cfg) = true ->
  outcome (_normalize_ethiopian_phone phone) = Ok (Some normalized) ->
  _send_geezsms cfg env (VStr phone) message =
  prefixed
    (trace (_normalize_ethiopian_phone phone)
     ++ [Log INFO (GeezSending (text (firstn 8 (chars normalized))))])
    (geezsms_attempts cfg env (gateway_request cfg normalized message)
       (text (firstn 8 (chars normalized)))
       (Z.to_nat (SMS_RETRY_ATTEMPTS cfg)) 0).
Proof.
  intros Hkey Hnorm. unfold _send_geezsms. rewrite Hkey. cbv beta iota.
  cbn [negb]. destruct (_normalize_ethiopian_phone phone) as [t res] eqn:Hn.
  simpl in Hnorm. subst res.
  assert (Hlen : str_truthy (Some normalized) = true).
  { destruct (normalize_shape phone normalized) as [Hl _].
    - now rewrite Hn.
    - simpl. now rewrite Hl. }
  rewrite bind_returned. rewrite Hlen. cbn [negb]. mnorm.
  fold (gateway_request cfg normalized message).
  destruct (geezsms_attempts_returns cfg env
              (gateway_request cfg normalized message)
              (text (firstn 8 (chars normalized)))
              (Z.to_nat (SMS_RETRY_ATTEMPTS cfg)) 0) as [b Hb].
  rewrite (catch_returns _ _ b Hb). reflexivity.
Qed.

Lemma flat_map_singletons {A B} (f : A -> list B) (g : A -> B) l :
  (forall x, In x l -> f x = [g x]) -> flat_map f l = map g l.
Proof.
  induction l as [|a l IH]; intros H; simpl; [reflexivity |].
  rewrite (H a) by now left. simpl. f_equal. apply IH.
  intros x Hx. apply H. now right.
Qed.

(** The sleeps of a run that exhausts [n] attempts: [min(2^k, 10)] after
    the attempt of index [k], for every attempt but the last. *)
Lemma backoff_schedule cfg n :
  SMS_RETRY_ATTEMPTS cfg = Z.of_nat n ->
  flat_map (fun k => sleeps (backoff cfg k)) (seq 0 n)
  = map (fun k => Z.min (2 ^ Z.of_nat k) 10) (seq 0 (n - 1)).
Proof.
  intros HN. destruct n as [|m]; [reflexivity |].
  replace (S m - 1)%nat with m by lia.
  rewrite seq_S, flat_map_app. cbn [flat_map]. rewrite app_nil_r.
  replace (sleeps (backoff cfg (0 + m))) with (@nil Z).
  - rewrite app_nil_r. apply flat_map_singletons.
    intros k Hk. apply in_seq in Hk. unfold backoff. rewrite HN.
    destruct (Z.ltb_spec (Z.of_nat k) (Z.of_nat (S m) - 1));
      [reflexivity | lia].
  - unfold backoff. rewrite HN.
    destruct (Z.ltb_spec (Z.of_nat (0 + m)) (Z.of_nat (S m) - 1));
      [lia | reflexivity].
Qed.

(** Generic path, any number of attempts: when every attempt fails, there
    are exactly [SMS_RETRY_ATTEMPTS] requests, the capped exponential
    sleeps between them, and the result is [False]. *)
Lemma send_sms_exhausted cfg env reference payload phone n :
  SMS_RETRY_ATTEMPTS cfg = Z.of_nat n ->
  str_truthy (SAVING_API_URL cfg) = true ->
  truthy phone && negb (_validate_phone phone) = false ->
  (forall k, (k < n)%nat ->
     ok_generic (transport env k (generic_request cfg reference payload))
     = false) ->
  outcome (send_sms cfg env reference payload phone) = Ok false
  /\ posts (trace (send_sms cfg env reference payload phone))
     = repeat (generic_request cfg reference payload) n
  /\ sleeps (trace (send_sms cfg env reference payload phone))
     = map (fun k => Z.min (2 ^ Z.of_nat k) 10) (seq 0 (n - 1)).
Proof.
  intros HN Hurl Hphone Hfail.
  rewrite (send_sms_dispatch cfg env reference payload phone Hurl Hphone).
  rewrite outcome_prefixed, trace_prefixed, posts_app, sleeps_app.
  rewrite HN, Nat2Z.id. cbn [posts sleeps flat_map app].
  rewrite <- (backoff_schedule cfg n HN).
  apply (loop_exhausted cfg _ _ (generic_attempt_ok env _)
           (send_sms_attempts_done cfg env _ reference)
           (send_sms_attempts_iter cfg env _ reference)).
  intros k Hk. apply Hfail. lia.
Qed.

(** Gateway path, any number of attempts: the same, an attempt being
    failed also when its line cannot be printed. *)
Lemma send_geezsms_exhausted cfg env phone message normalized n :
  SMS_RETRY_ATTEMPTS cfg = Z.of_nat n ->
  str_truthy (SMS_API_KEY cfg) = true ->
  outcome (_normalize_ethiopian_phone phone) = Ok (Some normalized) ->
  (forall k, (k < n)%nat ->
     gateway_attempt_ok env (gateway_request cfg normalized message) k
     = false) ->
  outcome (_send_geezsms cfg env (VStr phone) message) = Ok false
  /\ posts (trace (_send_geezsms cfg env (VStr phone) message))
     = repeat (gateway_request cfg normalized message) n
  /\ sleeps (trace (_send_geezsms cfg env (VStr phone) message))
     = map (fun k => Z.min (2 ^ Z.of_nat k) 10) (seq 0 (n - 1)).
Proof.
  intros HN Hkey Hnorm Hfail.
  rewrite (send_geezsms_dispatch cfg env phone message normalized Hkey Hnorm).
  rewrite outcome_prefixed, trace_prefixed, !posts_app, !sleeps_app.
  assert (Hquiet : posts (trace (_normalize_ethiopian_phone phone)) = []
                   /\ sleeps (trace (_normalize_ethiopian_phone phone)) = []).
  { now rewrite (normalize_accepts_quietly phone normalized Hnorm). }
  destruct Hquiet as [-> ->].
  rewrite HN, Nat2Z.id. cbn [posts sleeps flat_map app].
  rewrite <- (backoff_schedule cfg n HN).
  apply (loop_exhausted cfg _ _ (gateway_attempt_ok env _)
           (geezsms_attempts_done cfg env _ _)
           (geezsms_attempts_iter cfg env _ _)).
  intros k Hk. apply Hfail. lia.
Qed.

Lemma backoff_three cfg :
  SMS_RETRY_ATTEMPTS cfg = 3 ->
  flat_map (fun k => sleeps (backoff cfg k)) (seq 0 2) = [1; 2].
Proof. intros H. cbn [seq flat_map]. unfold backoff. now rewrite H. Qed.

(** With three attempts, the generic path: three failures give three
    requests, the sleeps 1 and 2 and [False]; two failures and a response
    with status 200 give [True] after the same sleeps. *)
Lemma send_sms_retry_backoff cfg env reference payload phone :
  SMS_RETRY_ATTEMPTS cfg = 3 ->
  str_truthy (SAVING_API_URL cfg) = true ->
  truthy phone && negb (_validate_phone phone) = false ->
  let r := generic_request cfg reference payload in
  let sent := send_sms cfg env reference payload phone in
  ((forall k, (k < 3)%nat -> ok_generic (transport env k r) = false) ->
   outcome sent = Ok false
   /\ posts (trace sent) = [r; r; r] /\ sleeps (trace sent) = [1; 2])
  /\ (ok_generic (transport env 0 r) = false ->
      ok_generic (transport env 1 r) = false ->
      ok_generic (transport env 2 r) = true ->
      outcome sent = Ok true
      /\ posts (trace sent) = [r; r; r] /\ sleeps (trace sent) = [1; 2]).
Proof.
  intros HN Hurl Hphone r sent. split.
  - intros Hfail.
    apply (send_sms_exhausted cfg env reference payload phone 3 HN Hurl
             Hphone Hfail).
  - intros H0 H1 H2. unfold sent.
    rewrite (send_sms_dispatch cfg env reference payload phone Hurl Hphone).
    rewrite outcome_prefixed, trace_prefixed, posts_app, sleeps_app.
    rewrite HN. cbn [posts sleeps flat_map app].
    rewrite <- (backoff_three cfg HN).
    apply (loop_succeeds cfg r _ (generic_attempt_ok env r)
             (send_sms_attempts_iter cfg env r reference) 2).
    + simpl. lia.
    + intros k Hk. destruct k as [|[|k]]; [assumption | assumption | lia].
    + exact H2.
Qed.

(** With three attempts, the gateway path: the same, for a response with
    status 200 whose body is empty or parses as JSON, followed by a line
    that is printed. *)
Lemma send_geezsms_retry_backoff cfg env phone message normalized :
  SMS_RETRY_ATTEMPTS cfg = 3 ->
  str_truthy (SMS_API_KEY cfg) = true ->
  outcome (_normalize_ethiopian_phone phone) = Ok (Some normalized) ->
  let r := gateway_request cfg normalized message in
  let sent := _send_geezsms cfg env (VStr phone) message in
  ((forall k, (k < 3)%nat -> gateway_attempt_ok env r k = false) ->
   outcome sent = Ok false
   /\ posts (trace sent) = [r; r; r] /\ sleeps (trace sent) = [1; 2])
  /\ (gateway_attempt_ok env r 0 = false ->
      gateway_attempt_ok env r 1 = false ->
      gateway_attempt_ok env r 2 = true ->
      outcome sent = Ok true
      /\ posts (trace sent) = [r; r; r] /\ sleeps (trace sent) = [1; 2]).
Proof.
  intros HN Hkey Hnorm r sent. split.
  - intros Hfail.
    apply (send_geezsms_exhausted cfg env phone message normalized 3 HN Hkey
             Hnorm Hfail).
  - intros H0 H1 H2. unfold sent.
    rewrite (send_geezsms_dispatch cfg env phone message normalized Hkey
               Hnorm).
    rewrite outcome_prefixed, trace_prefixed, !posts_app, !sleeps_app.
    rewrite (normalize_accepts_quietly phone normalized Hnorm).
    rewrite HN. cbn [posts sleeps flat_map app].
    rewrite <- (backoff_three cfg HN).
    apply (loop_succeeds cfg r _ (gateway_attempt_ok env r)
             (geezsms_attempts_iter cfg env r _) 2).
    + simpl. lia.
    + intros k Hk. destruct k as [|[|k]]; [assumption | assumption | lia].
    + exact H2.
Qed.

(** *** A response with status 200 that the gateway path counts as a
    failure *)

(** C1 at that input.  On the gateway path the third attempt returns
    HTTP 200 and the call returns [False] all the same: parsing the body
    for the log raises, and the attempt is counted as failed.  The generic
    path returns [True] on the same answers. *)
Theorem send_geezsms_plain_body_fails :
  let r := gateway_request geez_cfg "251911223344" "hello" in
  let sent := _send_geezsms geez_cfg plain_ok_env (VStr "0911223344") "hello" in
  transport plain_ok_env 2 r = Returned (Some (mkResponse 200 "OK" false))
  /\ outcome sent = Ok false
  /\ posts (trace sent) = [r; r; r]
  /\ sleeps (trace sent) = [1; 2]
  /\ outcome (send_sms geez_cfg plain_ok_env "REF" ∅ (VStr "0911223344"))
     = Ok true.
Proof. repeat split; vm_compute; reflexivity. Qed.

(** ** What is posted, and where *)

(** Every request of [send_sms] is the generic one: the reference and the
    payload, posted to the base URL followed by [/send_sms]. *)
Lemma send_sms_posts cfg env reference payload phone :
  Forall (eq (generic_request cfg reference payload))
    (posts (trace (send_sms cfg env reference payload phone))).
Proof.
  destruct (str_truthy (SAVING_API_URL cfg)) eqn:Hurl.
  - destruct (truthy phone && negb (_validate_phone phone)) eqn:Hphone.
    + unfold send_sms. rewrite Hurl, Hphone. constructor.
    + rewrite (send_sms_dispatch cfg env reference payload phone Hurl Hphone).
      rewrite trace_prefixed, posts_app. cbn [posts flat_map app].
      apply (loop_posts cfg _ _ (generic_attempt_ok env _)
               (send_sms_attempts_done cfg env _ reference)
               (send_sms_attempts_iter cfg env _ reference)).
  - unfold send_sms. rewrite Hurl. constructor.
Qed.

Lemma normalize_no_posts phone :
  posts (trace (_normalize_ethiopian_phone phone)) = [].
Proof.
  unfold _normalize_ethiopian_phone.
  rewrite replace1_separators, drop_plus_startswith.
  set (s := drop_plus (without_separators (strip (chars phone)))).
  destruct (startswith (chars "251") s).
  { cbn [bind ret]. now destruct (_ && _). }
  destruct (startswith (chars "0") s).
  { cbn [bind ret]. now destruct (_ && _). }
  destruct (startswith (chars "9") s && Nat.eqb (length s) 9).
  { cbn [bind ret]. now destruct (_ && _). }
  reflexivity.
Qed.

(** Every request of [_send_geezsms] is the gateway one: the token, the
    normalised phone and the message, posted to the base URL. *)
Lemma send_geezsms_posts cfg env phone message :
  Forall
    (fun r => exists normalized,
       outcome (_normalize_ethiopian_phone phone) = Ok (Some normalized)
       /\ r = gateway_request cfg normalized message)
    (posts (trace (_send_geezsms cfg env (VStr phone) message))).
Proof.
  destruct (str_truthy (SMS_API_KEY cfg)) eqn:Hkey.
  - destruct (outcome (_normalize_ethiopian_phone phone))
      as [[normalized |] | e] eqn:Hnorm.
    + rewrite (send_geezsms_dispatch cfg env phone message normalized Hkey
                 Hnorm).
      rewrite trace_prefixed, !posts_app, normalize_no_posts.
      cbn [posts flat_map app].
      eapply Forall_impl;
        [apply (loop_posts cfg _ _ (gateway_attempt_ok env _)
                  (geezsms_attempts_done cfg env _ _)
                  (geezsms_attempts_iter cfg env _ _)) |].
      intros r <-. eauto.
    + unfold _send_geezsms. rewrite Hkey. cbv beta iota. cbn [negb].
      destruct (_normalize_ethiopian_phone phone) as [t res] eqn:Hn.
      simpl in Hnorm. subst res. rewrite bind_returned. mnorm.
      cbn [str_truthy negb]. mnorm.
      rewrite trace_prefixed, !posts_app.
      pose proof (normalize_no_posts phone) as Hq. rewrite Hn in Hq.
      simpl in Hq. rewrite Hq. constructor.
    + rewrite normalize_outcome in Hnorm. discriminate.
  - unfold _send_geezsms. rewrite Hkey. constructor.
Qed.

(** ** The phone check of [send_sms] *)



(** ** Custom messages *)

Lemma str_truthy_nonempty s : s <> "" -> str_truthy (Some s) = true.
Proof. destruct s; [congruence | reflexivity]. Qed.

(** Past its two checks, [send_custom_sms] on the generic path sends the
    merged payload through [send_sms]. *)
Lemma send_custom_sms_generic cfg env phone message message_type d :
  _validate_phone phone = true ->
  _validate_message message <> "" ->
  gateway_selected cfg = false ->
  send_custom_sms cfg env phone message message_type (Dict d)
  = send_sms cfg env (_generate_reference env "CUSTOM")
      (d ∪ custom_payload phone (_validate_message message) message_type)
      phone.
Proof.
  intros Hphone Hmsg Hgen. unfold send_custom_sms.
  rewrite Hphone, (str_truthy_nonempty _ Hmsg). cbn [negb].
  fold (gateway_selected cfg). rewrite Hgen.
  fold (custom_payload phone (_validate_message message) message_type).
  cbn [truthy_obj]. destruct (Nat.eqb_spec (size d) 0) as [Hd | Hd].
  - apply map_size_empty_inv in Hd. subst d. cbn [negb].
    now rewrite bind_ret, (left_id_L ∅ (∪)).
  - cbn [negb dict_update]. now rewrite bind_ret.
Qed.

(** C10.  On the generic path, the entries of [additional_data] are merged
    into the payload after the built fields: the payload of every request
    posted has, for each key of [additional_data], the value given there
    (in particular for ["phone"], ["message"] and ["type"]), and the built
    value for every other key. *)
Theorem send_custom_sms_additional_data cfg env phone message message_type d :
  _validate_phone phone = true ->
  _validate_message message <> "" ->
  gateway_selected cfg = false ->
  exists payload,
    send_custom_sms cfg env phone message message_type (Dict d)
    = send_sms cfg env (_generate_reference env "CUSTOM") payload phone
    /\ Forall
      (fun r => rq_data r
                = GenericBody (_generate_reference env "CUSTOM") payload)
      (posts (trace (send_custom_sms cfg env phone message message_type
                       (Dict d))))
    /\ (forall k v, d !! k = Some v -> payload !! k = Some v)
    /\ (forall k, d !! k = None ->
          payload !! k
          = custom_payload phone (_validate_message message) message_type
              !! k)
    /\ (forall v, d !! "type" = Some v -> payload !! "type" = Some v)
    /\ (d !! "type" = None -> payload !! "type" = Some message_type).
Proof.
  intros Hphone Hmsg Hgen.
  exists (d ∪ custom_payload phone (_validate_message message) message_type).
  rewrite (send_custom_sms_generic cfg env phone message message_type d
             Hphone Hmsg Hgen).
  split; [reflexivity |]. repeat split.
  - eapply Forall_impl; [apply send_sms_posts |]. now intros r <-.
  - intros k v Hk. now apply lookup_union_Some_l.
  - intros k Hk. now apply lookup_union_r.
  - intros v Hk. now apply lookup_union_Some_l.
  - intros Hk. rewrite lookup_union_r by exact Hk.
    unfold custom_payload. now rewrite lookup_insert_eq.
Qed.

Lemma send_custom_sms_additional_data_witness :
  exists payload,
    Forall
      (fun r => rq_data r
                = GenericBody (_generate_reference plain_ok_env "CUSTOM")
                    payload)
      (posts (trace (send_custom_sms generic_cfg plain_ok_env
                       (VStr "0911223344") (VStr "hello") (VStr "notification")
                       (Dict {["type" := VStr "otp"]}))))
    /\ payload !! "type" = Some (VStr "otp").
Proof.
  destruct (send_custom_sms_additional_data generic_cfg plain_ok_env
              (VStr "0911223344") (VStr "hello") (VStr "notification")
              {["type" := VStr "otp"]})
    as (payload & _ & Hposts & _ & _ & Htype & _).
  - reflexivity.
  - discriminate.
  - reflexivity.
  - exists payload. split; [exact Hposts |].
    apply Htype. apply lookup_singleton_eq.
Defined.

(** ** Faults that reach the caller *)

Lemma send_notification_sms_blank cfg env phone message :
  _validate_message message = "" ->
  send_notification_sms cfg env phone message
  = match phone with
    | VStr s =>
        ([Log WARNING (NotificationEmptyMessage (text (firstn 4 (chars s))))],
         Ok false)
    | _ => ([], Raise TypeError)
    end.
Proof.
  intros H. unfold send_notification_sms. rewrite H. now destruct phone.
Qed.

(** C2 at [send_notification_sms(None, "")]: the warning for a blank
    message slices the phone before any check of it, and the [TypeError]
    of [None[:4]] reaches the caller.  The same holds for any phone that
    is not a string and any message that is blank or not a string. *)
Theorem send_notification_sms_raises cfg env :
  outcome (send_notification_sms cfg env VNone (VStr "")) = Raise TypeError
  /\ outcome (send_notification_sms cfg env (VInt 911223344) (VStr "   "))
     = Raise TypeError
  /\ outcome (send_notification_sms cfg env VNone VNone) = Raise TypeError.
Proof. repeat split. Qed.

(** [send_custom_sms] checks the phone first and returns [False] on the
    same arguments. *)
Lemma send_custom_sms_rejects_nonstring cfg env phone message message_type
    additional_data :
  (forall s, phone <> VStr s) ->
  send_custom_sms cfg env phone message message_type additional_data
  = ([Log WARNING (CustomInvalidPhone phone)], Ok false).
Proof.
  intros H. unfold send_custom_sms.
  destruct phone; try reflexivity. now destruct (H s).
Qed.

(** ** Bulk dispatch *)

Lemma writes_cons {X} (key : X -> Key) value x l m :
  writes key value (x :: l) m
  = writes key value l (<[key x := value x]> m).
Proof. reflexivity. Qed.

Lemma writes_app {X} (key : X -> Key) value l1 l2 m :
  writes key value (l1 ++ l2) m = writes key value l2 (writes key value l1 m).
Proof. apply fold_left_app. Qed.

Lemma writes_other {X} (key : X -> Key) value l : forall m k,
  (forall x, In x l -> key x <> k) ->
  writes key value l m !! k = m !! k.
Proof.
  induction l as [|x l IH]; intros m k H; [reflexivity |].
  rewrite writes_cons, IH by (intros y Hy; apply H; now right).
  apply lookup_insert_ne. apply H. now left.
Qed.

Lemma writes_last {X} (key : X -> Key) value l1 x l2 m :
  (forall y, In y l2 -> key y <> key x) ->
  writes key value (l1 ++ x :: l2) m !! key x = Some (value x).
Proof.
  intros H. rewrite writes_app, writes_cons, writes_other by exact H.
  apply lookup_insert_eq.
Qed.

Lemma writes_is_Some {X} (key : X -> Key) value l : forall m k,
  is_Some (writes key value l m !! k)
  <-> is_Some (m !! k) \/ exists x, In x l /\ key x = k.
Proof.
  induction l as [|x l IH]; intros m k.
  - simpl. split; [auto | intros [H | (x & [] & _)]; exact H].
  - rewrite writes_cons, IH, lookup_insert_is_Some. split.
    + intros [[H | [_ H]] | (y & Hy & Hk)].
      * right. exists x. split; [now left | exact H].
      * now left.
      * right. exists y. split; [now right | exact Hk].
    + intros [H | (y & [-> | Hy] & Hk)].
      * destruct (decide (key x = k)); [left; now left | left; now right].
      * left. now left.
      * right. eauto.
Qed.

Lemma writes_false {X} (key : X -> Key) l : forall m k,
  (exists x, In x l /\ key x = k) \/ m !! k = Some false ->
  writes key (fun _ => false) l m !! k = Some false.
Proof.
  induction l as [|x l IH]; intros m k H.
  - destruct H as [(y & [] & _) | H]. exact H.
  - rewrite writes_cons. apply IH.
    destruct H as [(y & [<- | Hy] & Hk) | H].
    + right. rewrite <- Hk. apply lookup_insert_eq.
    + left. eauto.
    + right. destruct (decide (key x = k)) as [<- | Hne].
      * apply lookup_insert_eq.
      * now rewrite lookup_insert_ne.
Qed.

(** *** The two phases of [send_multiple_sms] *)

Lemma collect_tasks_spec cfg envs l : forall i results tasks,
  collect_tasks cfg envs i l results tasks
  = (writes entry_key (fun _ => false)
       (List.filter (fun r => negb (is_valid r)) l) results,
     (tasks ++ tasks_from cfg envs i l)%list).
Proof.
  induction l as [|r rest IH]; intros i results tasks.
  - simpl. now rewrite app_nil_r.
  - cbn [collect_tasks tasks_from List.filter].
    fold (is_valid r). destruct (is_valid r) eqn:Hv; cbn [negb].
    + rewrite IH. unfold entry_send. now rewrite <- app_assoc.
    + rewrite IH, writes_cons. reflexivity.
Qed.

Lemma gather_writes (tasks : list (PyVal * M bool)) m :
  fold_left
    (fun results '((phone, _), result) =>
       <[key_of phone := result_or_false result]> results)
    (combine tasks (map (fun t => outcome (snd t)) tasks)) m
  = writes (fun t => key_of (fst t))
      (fun t => result_or_false (outcome (snd t))) tasks m.
Proof.
  revert m. induction tasks as [|[phone task] tasks IH]; intros m.
  - reflexivity.
  - simpl. rewrite IH. reflexivity.
Qed.

Lemma send_multiple_sms_unfold cfg envs l :
  send_multiple_sms cfg envs l
  = (map (fun t => trace (snd t)) (tasks_from cfg envs 0 l),
     Ok (writes (fun t => key_of (fst t))
           (fun t => result_or_false (outcome (snd t)))
           (tasks_from cfg envs 0 l)
           (writes entry_key (fun _ => false)
              (List.filter (fun r => negb (is_valid r)) l) ∅))).
Proof.
  unfold send_multiple_sms. rewrite collect_tasks_spec. cbn [app].
  now rewrite gather_writes.
Qed.

Lemma tasks_from_app cfg envs l1 : forall i l2,
  tasks_from cfg envs i (l1 ++ l2)
  = (tasks_from cfg envs i l1
     ++ tasks_from cfg envs (i + length l1) l2)%list.
Proof.
  induction l1 as [|r l1 IH]; intros i l2.
  - simpl. now rewrite Nat.add_0_r.
  - cbn [app tasks_from length]. rewrite IH.
    replace (S i + length l1)%nat with (i + S (length l1))%nat by lia.
    now destruct (is_valid r).
Qed.

Lemma tasks_from_In cfg envs l : forall i t,
  In t (tasks_from cfg envs i l) ->
  exists r, In r l /\ is_valid r = true /\ key_of (fst t) = entry_key r.
Proof.
  induction l as [|r rest IH]; intros i t Ht; [destruct Ht |].
  cbn [tasks_from] in Ht. destruct (is_valid r) eqn:Hv.
  - destruct Ht as [<- | Ht].
    + exists r. split; [now left |]. split; [exact Hv |].
      unfold entry_key. apply andb_prop in Hv as [-> _]. reflexivity.
    + destruct (IH _ _ Ht) as (r' & Hin & Hv' & Hk).
      exists r'. split; [now right | auto].
  - destruct (IH _ _ Ht) as (r' & Hin & Hv' & Hk).
    exists r'. split; [now right | auto].
Qed.

Lemma tasks_from_valid cfg envs l : forall i r,
  In r l -> is_valid r = true ->
  exists t, In t (tasks_from cfg envs i l) /\ key_of (fst t) = entry_key r.
Proof.
  induction l as [|r' rest IH]; intros i r Hin Hv; [destruct Hin |].
  cbn [tasks_from]. destruct Hin as [-> | Hin].
  - rewrite Hv. eexists. split; [now left |].
    unfold entry_key. apply andb_prop in Hv as [-> _]. reflexivity.
  - destruct (IH (S i) r Hin Hv) as (t & Ht & Hk).
    exists t. split; [| exact Hk]. destruct (is_valid r'); [now right | exact Ht].
Qed.

Lemma tasks_from_length cfg envs l : forall i,
  length (tasks_from cfg envs i l) = length (List.filter is_valid l).
Proof.
  induction l as [|r rest IH]; intros i; [reflexivity |].
  cbn [tasks_from List.filter]. destruct (is_valid r); cbn [length];
    now rewrite IH.
Qed.

Lemma valid_entry_key r :
  is_valid r = true -> entry_key r = key_of (get_phone r).
Proof.
  intros Hv. unfold entry_key. now apply andb_prop in Hv as [-> _].
Qed.

(** C4, amended.  [send_multiple_sms] returns a map, whatever the list of
    requests.  Only the entries that have a phone and a message are sent:
    the tasks run are theirs, in order.  The keys of the map are the keys
    of the entries: the phone, or ["invalid"] when there is none.  An entry
    without phone or message is recorded as [False]; a valid entry is
    recorded with the outcome of its own send, [False] if that send raised;
    when two entries have the same key the later write wins, the valid
    entries being written after the invalid ones. *)
Theorem send_multiple_sms_results cfg envs sms_requests :
  exists results,
    snd (send_multiple_sms cfg envs sms_requests) = Ok results
    /\ fst (send_multiple_sms cfg envs sms_requests)
       = map (fun t => trace (snd t)) (tasks_from cfg envs 0 sms_requests)
    /\ length (fst (send_multiple_sms cfg envs sms_requests))
       = length (List.filter is_valid sms_requests)
    /\ (forall k, is_Some (results !! k)
                  <-> exists r, In r sms_requests /\ entry_key r = k)
    /\ (forall r, In r sms_requests -> is_valid r = false ->
          (forall r', In r' sms_requests -> is_valid r' = true ->
                      entry_key r' <> entry_key r) ->
          results !! entry_key r = Some false)
    /\ (forall pre r post, sms_requests = (pre ++ r :: post)%list ->
          is_valid r = true ->
          (forall r', In r' post -> is_valid r' = true ->
                      entry_key r' <> entry_key r) ->
          results !! entry_key r
          = Some (entry_outcome cfg (envs (length pre)) r))
    /\ (forall env r e,
          outcome (entry_send cfg env r) = Raise e ->
          entry_outcome cfg env r = false).
Proof.
  rewrite send_multiple_sms_unfold. eexists. split; [reflexivity |].
  split; [reflexivity |].
  split; [cbn [fst]; rewrite length_map; apply tasks_from_length |].
  split; [| split; [| split]].
  - intros k. rewrite !writes_is_Some, lookup_empty. split.
    + intros [[Hnone | (r & Hr & Hk)] | (t & Ht & Hk)].
      * now destruct Hnone.
      * apply filter_In in Hr as [Hr _]. eauto.
      * destruct (tasks_from_In _ _ _ _ _ Ht) as (r & Hr & _ & Hkr).
        exists r. split; [exact Hr | congruence].
    + intros (r & Hr & Hk). destruct (is_valid r) eqn:Hv.
      * right. destruct (tasks_from_valid cfg envs _ 0 r Hr Hv)
          as (t & Ht & Hkt).
        exists t. split; [exact Ht | congruence].
      * left. right. exists r. split; [| exact Hk].
        apply filter_In. split; [exact Hr | now rewrite Hv].
  - intros r Hr Hv Hfree. rewrite writes_other.
    + apply writes_false. left. exists r. split; [| reflexivity].
      apply filter_In. split; [exact Hr | now rewrite Hv].
    + intros t Ht Hk.
      destruct (tasks_from_In _ _ _ _ _ Ht) as (r' & Hr' & Hv' & Hkr).
      apply (Hfree r' Hr' Hv'). congruence.
  - intros pre r post -> Hv Hfree.
    rewrite tasks_from_app. cbn [tasks_from]. rewrite Hv.
    rewrite (valid_entry_key r Hv).
    apply (writes_last (fun t => key_of (fst t))
             (fun t => result_or_false (outcome (snd t)))
             (tasks_from cfg envs 0 pre)
             (get_phone r, entry_send cfg (envs (0 + length pre)%nat) r)).
    intros t Ht Hk.
    destruct (tasks_from_In _ _ _ _ _ Ht) as (r' & Hr' & Hv' & Hkr).
    apply (Hfree r' Hr' Hv'). rewrite (valid_entry_key r Hv).
    cbn [fst] in Hk. congruence.
  - intros env r e He. unfold entry_outcome. now rewrite He.
Qed.

(** C4 as stated fails when two entries share a key: the entry without
    message leaves no [False] in the map, the outcome of the valid entry
    with the same phone is written after it. *)
Lemma send_multiple_sms_same_phone :
  Forall (fun r => entry_key r = KStr "0911223344") same_phone_requests
  /\ map is_valid same_phone_requests = [true; false]
  /\ exists results,
       snd (send_multiple_sms generic_cfg (fun _ => ok_env)
              same_phone_requests) = Ok results
       /\ results !! KStr "0911223344" = Some true
       /\ size results = 1%nat.
Proof.
  split; [repeat constructor |]. split; [reflexivity |].
  eexists. split; [reflexivity |]. split; vm_compute; reflexivity.
Qed.

(** Three valid recipients and one entry without message: four results,
    the entry without message recorded as [False] under its phone, the
    others with their own outcome. *)
Example send_multiple_sms_four :
  let entry phone message :=
    mkSmsRequest (VStr phone) message None (Scalar VNone) in
  let envs (i : nat) :=
    mkEnv (fun attempt _ =>
             if Nat.eqb i 1 then Returned None
             else Returned (Some (mkResponse 200 "" true)))
      "20260101120000123456" "0123456789abcdef0123456789abcdef"
      (fun _ => None) in
  let sent :=
    send_multiple_sms generic_cfg envs
      [entry "0911000001" (VStr "a"); entry "0911000002" (VStr "b");
       entry "0911000003" VNone; entry "0911000004" (VStr "d")] in
  length (fst sent) = 3%nat
  /\ exists results,
       snd sent = Ok results
       /\ size results = 4%nat
       /\ results !! KStr "0911000001" = Some true
       /\ results !! KStr "0911000002" = Some false
       /\ results !! KStr "0911000003" = Some false
       /\ results !! KStr "0911000004" = Some true.
Proof.
  split; [reflexivity |]. eexists. split; [reflexivity |].
  repeat split; vm_compute; reflexivity.
Qed.

(** ** Amount formatting *)

Lemma chars_append s1 s2 : chars (s1 ++ s2) = (chars s1 ++ chars s2)%list.
Proof. induction s1 as [|c s1 IH]; simpl; [reflexivity | now rewrite IH]. Qed.

Lemma digit_is_digit d : (d < 10)%N -> is_ascii_digit (digit d) = true.
Proof.
  intros H. unfold is_ascii_digit, digit.
  rewrite N_ascii_embedding by lia.
  apply andb_true_intro. split; apply N.leb_le; lia.
Qed.

Lemma digit_not_minus c : is_ascii_digit c = true -> Ascii.eqb c "-" = false.
Proof.
  intros H. apply Ascii.eqb_neq. intros ->. discriminate.
Qed.

Lemma string_of_uint_digits d :
  forallb is_ascii_digit (chars (NilEmpty.string_of_uint d)) = true.
Proof. induction d; simpl; auto. Qed.

Lemma decimal_digits_digits n :
  forallb is_ascii_digit (decimal_digits n) = true.
Proof.
  unfold decimal_digits, NilZero.string_of_uint.
  destruct (N.to_uint n) eqn:H; try reflexivity;
    rewrite <- H; apply string_of_uint_digits.
Qed.

Lemma decimal_digits_nonempty n : decimal_digits n <> [].
Proof.
  unfold decimal_digits, NilZero.string_of_uint.
  destruct (N.to_uint n); discriminate.
Qed.

Lemma group3_more a b c d rest :
  group3 (a :: b :: c :: d :: rest)
  = a :: b :: c :: ","%char :: group3 (d :: rest).
Proof. reflexivity. Qed.

Lemma grouped_rev_more a b c rest :
  is_ascii_digit a = true -> is_ascii_digit b = true ->
  is_ascii_digit c = true ->
  grouped_rev (a :: b :: c :: ","%char :: rest) = grouped_rev rest.
Proof.
  intros Ha Hb Hc. cbn [grouped_rev].
  rewrite Ha, Hb, Hc, (digit_not_minus b Hb), (digit_not_minus c Hc).
  reflexivity.
Qed.

(** The grouping of a non-empty list of digits, followed by an optional
    sign, has the shape. *)
Lemma group3_shape (sign : bool) n : forall l,
  (length l <= n)%nat -> l <> [] -> forallb is_ascii_digit l = true ->
  grouped_rev (group3 l ++ chars (if sign then "-" else ""))%list = true.
Proof.
  induction n as [|n IH]; intros l Hlen Hne Hd.
  - destruct l; [congruence | simpl in Hlen; lia].
  - destruct l as [|a [|b [|c [|d rest]]]]; [congruence | | | |];
      cbn [forallb] in Hd;
      repeat match goal with
             | H : _ && _ = true |- _ => apply andb_prop in H as [? ?]
             end.
    + destruct sign; simpl; now rewrite H.
    + destruct sign; simpl; rewrite H, H0, (digit_not_minus b H0);
        reflexivity.
    + destruct sign; simpl;
        rewrite H, H0, H1, (digit_not_minus b H0), (digit_not_minus c H1);
        reflexivity.
    + rewrite group3_more. cbn [app].
      rewrite grouped_rev_more by assumption.
      apply IH.
      * simpl in Hlen. simpl. lia.
      * discriminate.
      * cbn [forallb]. apply andb_true_intro. split; assumption.
Qed.

Lemma forallb_rev_true {A} (f : A -> bool) l :
  forallb f l = true -> forallb f (rev l) = true.
Proof.
  rewrite !forallb_forall. intros H x Hx. apply H. now apply in_rev.
Qed.

Lemma rev_chars_append s1 s2 :
  rev (chars (s1 ++ s2)) = (rev (chars s2) ++ rev (chars s1))%list.
Proof. now rewrite chars_append, rev_app_distr. Qed.

(** A finite float is rendered with two decimals and grouped
    thousands. *)
Lemma format_2f_shape x : is_finite x = true -> money_shape (format_2f x) = true.
Proof.
  destruct x as [s | s | | s m e]; try discriminate; intros _.
  - now destruct s.
  - unfold format_2f, money_shape.
    set (c := cents m e).
    rewrite !rev_chars_append, !chars_text. cbn [rev app chars].
    change (list_ascii_of_string ".") with ["."%char]. cbn [rev app].
    unfold group_thousands. rewrite rev_involutive.
    rewrite !digit_is_digit.
    + cbn [andb]. change (Ascii.eqb "." ".") with true. cbn [andb].
      replace (rev (chars (if s then "-" else "")))
        with (chars (if s then "-" else "")) by now destruct s.
      apply (group3_shape s (length (rev (decimal_digits (c / 100))))).
      * lia.
      * intros H. apply (decimal_digits_nonempty (c / 100)).
        apply (f_equal (@rev ascii)) in H.
        now rewrite rev_involutive in H.
      * apply forallb_rev_true, decimal_digits_digits.
    + apply N.Div0.div_lt_upper_bound.
      pose proof (N.mod_upper_bound c 100). lia.
    + apply N.mod_upper_bound. lia.
Qed.


Lemma format_amount_str s :
  _format_amount (AStr s)
  = ret (match float_of_str s with
         | Some x => format_2f x
         | None => "0.00"
         end).
Proof. unfold _format_amount. now destruct (float_of_str s). Qed.

Lemma format_amount_decimal d :
  _format_amount (ADecimal d)
  = ret (match float_of_decimal d with
         | Some x => format_2f x
         | None => "0.00"
         end).
Proof. unfold _format_amount. now destruct (float_of_decimal d). Qed.



(** The formatter has no effect of its own, and only an integer beyond the
    range of the floats makes it raise. *)
Lemma format_amount_cases amount :
  (exists s, _format_amount amount = ret s)
  \/ _format_amount amount = raise OverflowError.
Proof.
  destruct amount as [x | d | s | z |].
  - left. eexists. reflexivity.
  - left. eexists. apply format_amount_decimal.
  - left. eexists. apply format_amount_str.
  - unfold _format_amount, format_spec. rewrite bind_ret.
    destruct (nearest_float (z <? 0) (Z.abs_N z) 0);
      [left | right | left | left]; try (eexists; reflexivity); reflexivity.
  - left. eexists. reflexivity.
Qed.

Example format_amount_int_overflow :
  outcome (_format_amount (AInt (2 ^ 1024))) = Raise OverflowError
  /\ _format_amount (AInt 12345678) = ret "12,345,678.00"
  /\ _format_amount (AInt 0) = ret "0.00".
Proof. repeat split; vm_compute; reflexivity. Qed.

(** ** Provider selection *)

Lemma send_custom_sms_gateway cfg env phone message message_type
    additional_data :
  _validate_phone phone = true ->
  _validate_message message <> "" ->
  gateway_selected cfg = true ->
  send_custom_sms cfg env phone message message_type additional_data
  = _send_geezsms cfg env phone (_validate_message message).
Proof.
  intros Hphone Hmsg Hgw. unfold send_custom_sms.
  rewrite Hphone, (str_truthy_nonempty _ Hmsg). cbn [negb].
  fold (gateway_selected cfg). now rewrite Hgw.
Qed.

Lemma send_custom_sms_generic_posts cfg env phone message message_type
    additional_data :
  gateway_selected cfg = false ->
  Forall (fun r => exists reference payload,
                     r = generic_request cfg reference payload)
    (posts (trace (send_custom_sms cfg env phone message message_type
                     additional_data))).
Proof.
  intros Hgen. unfold send_custom_sms.
  destruct (_validate_phone phone); cbn [negb]; [| constructor].
  destruct (str_truthy (Some (_validate_message message))); cbn [negb].
  - fold (gateway_selected cfg). rewrite Hgen.
    destruct (truthy_obj additional_data).
    + destruct additional_data as [[| | |] | d]; cbn [dict_update];
        rewrite ?bind_raise, ?bind_ret; try constructor.
      eapply Forall_impl; [apply send_sms_posts |]. intros r <-. eauto.
    + rewrite bind_ret.
      eapply Forall_impl; [apply send_sms_posts |]. intros r <-. eauto.
  - destruct phone; cbn [slice4]; rewrite ?bind_raise; constructor.
Qed.

Lemma validate_phone_str phone :
  _validate_phone phone = true -> exists p, phone = VStr p.
Proof. destruct phone; try discriminate. eauto. Qed.

Lemma bind_format_amount_posts {A} amount (k : string -> M A) (P : Request -> Prop) :
  (forall s, Forall P (posts (trace (k s)))) ->
  Forall P (posts (trace (bind (_format_amount amount) k))).
Proof.
  intros H. destruct (format_amount_cases amount) as [[s ->] | ->].
  - rewrite bind_ret. apply H.
  - rewrite bind_raise. constructor.
Qed.

Lemma send_sms_posts_generic cfg env reference payload phone :
  Forall (fun r => exists payload, r = generic_request cfg reference payload)
    (posts (trace (send_sms cfg env reference payload phone))).
Proof.
  eapply Forall_impl; [apply send_sms_posts |]. intros r <-. eauto.
Qed.

(** C3 as stated fails: with the base URL of the named gateway,
    [send_transaction_sms] posts the reference and the payload to the URL
    followed by [/send_sms], not the token, phone and message of the
    gateway. *)
Lemma send_transaction_sms_not_routed :
  gateway_selected geez_cfg = true
  /\ map (fun r => (rq_url r, rq_data r))
       (posts (trace (send_transaction_sms geez_cfg ok_env "TXN-1" "Savings"
                        (AStr "1234.5") "Bank" (VStr "0911223344"))))
     = [("https://api.geezsms.com/api/v1/sms/send/send_sms",
         GenericBody "TXN-1"
           (<["type" := VStr "transaction"]>
              (<["bank_name" := VStr "Bank"]>
                 (<["saving_balance" := VStr "1,234.50"]>
                    (<["product_name" := VStr "Savings"]> ∅)))))].
Proof. split; vm_compute; reflexivity. Qed.

(** C3, amended.  The provider is selected by [send_custom_sms], past its
    checks of the phone and of the message: when the base URL names the
    gateway the call is that of the gateway path, and every request
    carries the token, the normalised phone and the sanitised message to
    the base URL; otherwise every request is a generic one, to the base
    URL followed by [/send_sms].  [send_notification_sms] goes through
    [send_custom_sms].  [send_sms] and the operations that call it
    directly, such as [send_transaction_sms], [send_deposit_sms] and
    [send_subscription_sms], post generic requests whatever the base URL
    is. *)
Theorem provider_routing cfg env phone message message_type additional_data :
  _validate_phone phone = true ->
  _validate_message message <> "" ->
  (if gateway_selected cfg
   then
     send_custom_sms cfg env phone message message_type additional_data
     = _send_geezsms cfg env phone (_validate_message message)
     /\ Forall
          (fun r => exists p normalized,
             phone = VStr p
             /\ outcome (_normalize_ethiopian_phone p) = Ok (Some normalized)
             /\ r = gateway_request cfg normalized (_validate_message message))
          (posts (trace (send_custom_sms cfg env phone message message_type
                           additional_data)))
   else
     Forall (fun r => exists reference payload,
                        r = generic_request cfg reference payload)
       (posts (trace (send_custom_sms cfg env phone message message_type
                        additional_data))))
  /\ send_notification_sms cfg env phone message
     = send_custom_sms cfg env phone (VStr (_validate_message message))
         (VStr "notification") (Scalar VNone)
  /\ (forall reference payload phone',
        Forall (eq (generic_request cfg reference payload))
          (posts (trace (send_sms cfg env reference payload phone'))))
  /\ (forall reference product_name balance bank_name phone',
        Forall (fun r => exists payload,
                           r = generic_request cfg reference payload)
          (posts (trace (send_transaction_sms cfg env reference product_name
                           balance bank_name phone'))))
  /\ (forall phone' amount balance product_name bank_name reference
             customer_name,
        Forall (fun r => exists payload,
                           r = generic_request cfg reference payload)
          (posts (trace (send_deposit_sms cfg env phone' amount balance
                           product_name bank_name reference customer_name))))
  /\ (forall reference customer_name product_name bank_name subscription_type
             phone',
        Forall (fun r => exists payload,
                           r = generic_request cfg reference payload)
          (posts (trace (send_subscription_sms cfg env reference customer_name
                           product_name bank_name subscription_type
                           phone')))).
Proof.
  intros Hphone Hmsg. split; [| split; [| split; [| split; [| split]]]].
  - destruct (gateway_selected cfg) eqn:Hgw.
    + rewrite (send_custom_sms_gateway cfg env phone message message_type
                 additional_data Hphone Hmsg Hgw).
      split; [reflexivity |].
      destruct (validate_phone_str phone Hphone) as [p ->].
      eapply Forall_impl; [apply send_geezsms_posts |].
      intros r (normalized & Hn & ->). eauto.
    + now apply send_custom_sms_generic_posts.
  - unfold send_notification_sms.
    now rewrite (str_truthy_nonempty _ Hmsg).
  - intros. apply send_sms_posts.
  - intros. unfold send_transaction_sms.
    apply bind_format_amount_posts. intros s. apply send_sms_posts_generic.
  - intros. unfold send_deposit_sms.
    apply bind_format_amount_posts. intros s.
    apply bind_format_amount_posts. intros s'. apply send_sms_posts_generic.
  - intros. unfold send_subscription_sms. apply send_sms_posts_generic.
Qed.

Lemma provider_routing_witness :
  _validate_phone (VStr "0911223344") = true
  /\ _validate_message (VStr "hello") <> ""
  /\ send_custom_sms geez_cfg ok_env (VStr "0911223344") (VStr "hello")
       (VStr "notification") (Scalar VNone)
     = _send_geezsms geez_cfg ok_env (VStr "0911223344") "hello".
Proof.
  split; [reflexivity |]. split; [discriminate |].
  apply (provider_routing geez_cfg ok_env (VStr "0911223344") (VStr "hello")
           (VStr "notification") (Scalar VNone)).
  - reflexivity.
  - discriminate.
Defined.

(** *** The digits printed are those of the amount rounded to the cent *)

Lemma digits_value_fold l : digits_value l = fold_left next_digit l 0%N.
Proof. reflexivity. Qed.

Lemma fold_digits_acc d : forall acc,
  fold_left next_digit (chars (NilEmpty.string_of_uint d)) (Npos acc)
  = Npos (Pos.of_uint_acc d acc).
Proof.
  induction d; intros acc; cbn [NilEmpty.string_of_uint chars
    list_ascii_of_string fold_left Pos.of_uint_acc];
    try reflexivity;
    match goal with
    | |- fold_left _ _ ?n = _ =>
        match goal with
        | |- _ = Npos (Pos.of_uint_acc _ ?p) =>
            replace n with (Npos p)
              by (unfold next_digit; simpl N_of_ascii; lia)
        end
    end; apply IHd.
Qed.

Lemma fold_digits_uint d :
  fold_left next_digit (chars (NilEmpty.string_of_uint d)) 0%N
  = Pos.of_uint d.
Proof.
  induction d; cbn [NilEmpty.string_of_uint chars list_ascii_of_string
    fold_left Pos.of_uint]; try reflexivity; try exact IHd;
    apply fold_digits_acc.
Qed.

(** The digits of a number are its decimal writing. *)
Lemma digits_value_decimal n : digits_value (decimal_digits n) = n.
Proof.
  rewrite digits_value_fold. unfold decimal_digits, NilZero.string_of_uint.
  rewrite <- (DecimalN.Unsigned.of_to n) at 2. unfold N.of_uint.
  destruct (N.to_uint n) eqn:H; try reflexivity;
    rewrite <- H at 1; rewrite fold_digits_uint; now rewrite H.
Qed.

Lemma filter_group3 n : forall l,
  (length l <= n)%nat -> forallb is_ascii_digit l = true ->
  List.filter is_ascii_digit (group3 l) = l.
Proof.
  induction n as [|n IH]; intros l Hlen Hd.
  - destruct l; [reflexivity | simpl in Hlen; lia].
  - destruct l as [|a [|b [|c [|d rest]]]];
      cbn [forallb] in Hd;
      repeat match goal with
             | H : _ && _ = true |- _ => apply andb_prop in H as [? ?]
             end.
    + reflexivity.
    + simpl. now rewrite H.
    + simpl. now rewrite H, H0.
    + simpl. now rewrite H, H0, H1.
    + rewrite group3_more. cbn [List.filter]. rewrite H, H0, H1.
      change (is_ascii_digit ",") with false. cbv iota.
      rewrite IH; [reflexivity | simpl in *; lia |].
      cbn [forallb]. now rewrite H2.
Qed.

Lemma filter_digits_all l :
  forallb is_ascii_digit l = true -> List.filter is_ascii_digit l = l.
Proof.
  induction l as [|c l IH]; [reflexivity |]. cbn [forallb List.filter].
  intros H. apply andb_prop in H as [-> H]. now rewrite IH.
Qed.

Lemma filter_rev {A} (f : A -> bool) l :
  List.filter f (rev l) = rev (List.filter f l).
Proof.
  induction l as [|a l IH]; [reflexivity |]. cbn [rev List.filter].
  rewrite List.filter_app, IH. cbn [List.filter].
  destruct (f a); [reflexivity | now rewrite app_nil_r].
Qed.

(** Without the sign, the commas and the point, what is printed for a
    finite float is the decimal writing of its value in cents. *)
Lemma format_2f_digits s m e :
  digits_value
    (List.filter is_ascii_digit (chars (format_2f (S754_finite s m e))))
  = cents m e.
Proof.
  unfold format_2f. set (c := cents m e).
  rewrite !chars_append, !chars_text, !List.filter_app.
  replace (List.filter is_ascii_digit (chars (if s then "-" else "")))
    with (@nil ascii) by now destruct s.
  change (List.filter is_ascii_digit (chars ".")) with (@nil ascii).
  unfold group_thousands. rewrite filter_rev.
  rewrite (filter_group3 (length (rev (decimal_digits (c / 100)))))
    by (lia || apply forallb_rev_true, decimal_digits_digits).
  rewrite rev_involutive. cbn [app].
  assert (H1 : (c mod 100 / 10 < 10)%N).
  { apply N.Div0.div_lt_upper_bound.
    pose proof (N.mod_upper_bound c 100). lia. }
  assert (H2 : (c mod 100 mod 10 < 10)%N) by (apply N.mod_upper_bound; lia).
  cbn [List.filter]. rewrite !digit_is_digit by assumption.
  rewrite digits_value_fold, fold_left_app, <- digits_value_fold.
  rewrite digits_value_decimal. cbn [fold_left]. unfold next_digit, digit.
  rewrite !N_ascii_embedding by lia.
  clearbody c.
  pose proof (N.div_mod c 100 ltac:(lia)) as E1.
  pose proof (N.div_mod (c mod 100) 10 ltac:(lia)) as E2.
  set (a := (c / 100)%N) in *. set (b := (c mod 100)%N) in *.
  set (b1 := (b / 10)%N) in *. set (b0 := (b mod 10)%N) in *. lia.
Qed.

(** The value in cents is the integer nearest to a hundred times the
    float, the even one of the two when they are as near. *)
Lemma cents_nearest m e :
  (0 <= e -> Z.of_N (cents m e) = Zpos m * 2 ^ e * 100)
  /\ (e < 0 ->
      let d := 2 ^ (- e) in
      let gap := Z.of_N (cents m e) * d - Zpos m * 100 in
      2 * Z.abs gap <= d
      /\ (2 * Z.abs gap = d -> Z.even (Z.of_N (cents m e)) = true)).
Proof.
  unfold cents. split.
  - intros He. destruct (Z.leb_spec 0 e); [| lia].
    rewrite Z2N.id; [reflexivity |].
    pose proof (Z.pow_nonneg 2 e). lia.
  - intros He. destruct (Z.leb_spec 0 e); [lia |].
    set (n := Zpos m * 100). set (d := 2 ^ (- e)).
    assert (Hd : 0 < d) by (apply Z.pow_pos_nonneg; lia).
    pose proof (Z.div_mod n d ltac:(lia)) as Hdm.
    pose proof (Z.mod_pos_bound n d Hd) as Hr.
    assert (Hq : 0 <= n / d) by (apply Z.div_pos; lia).
    set (q := n / d) in *. set (r := n mod d) in *.
    cbv zeta.
    destruct (Z.ltb_spec d (2 * r)) as [Hlt | Hge]; cbn [orb].
    + rewrite Z2N.id by lia. split; [nia |]. intros Heq. nia.
    + destruct (Z.eqb_spec d (2 * r)) as [Heq | Hne]; cbn [andb].
      * destruct (Z.odd q) eqn:Hodd.
        -- rewrite Z2N.id by lia. split; [nia |]. intros _.
           rewrite Z.even_add, <- Z.negb_odd, Hodd. reflexivity.
        -- rewrite Z2N.id by lia. split; [nia |]. intros _.
           now rewrite <- Z.negb_odd, Hodd.
      * rewrite Z2N.id by lia. split; [nia |]. intros Heq. nia.
Qed.

(** ** The two phone checks together *)

Lemma isdigit_char_plain c :
  isdigit_char c = true ->
  isspace c = false /\ Ascii.eqb c " " = false
  /\ Ascii.eqb c "-" = false /\ Ascii.eqb c "+" = false.
Proof.
  destruct c as [[] [] [] [] [] [] [] []]; intros H;
    try discriminate H; repeat split.
Qed.

Lemma digits_nospace l :
  forallb isdigit_char l = true ->
  forallb (fun c => negb (isspace c)) l = true.
Proof.
  rewrite !forallb_forall. intros H c Hc.
  destruct (isdigit_char_plain c (H c Hc)) as [-> _]. reflexivity.
Qed.

Lemma strip_nospace l :
  forallb (fun c => negb (isspace c)) l = true -> strip l = l.
Proof.
  intros H. destruct l as [|c r]; [reflexivity |].
  apply tidy_strip_fixed. now apply tidy_nospace_nonempty.
Qed.

Lemma replace1_absent old new l :
  forallb (fun c => negb (Ascii.eqb c old)) l = true ->
  replace1 old new l = l.
Proof.
  induction l as [|c r IH]; [reflexivity |]. cbn [forallb].
  intros H. apply andb_prop in H as [Hc Hr]. apply negb_true_iff in Hc.
  unfold replace1 in *. cbn [flat_map]. rewrite Hc, (IH Hr). reflexivity.
Qed.

Lemma digits_without l (sep : ascii) :
  isdigit_char sep = false ->
  forallb isdigit_char l = true ->
  forallb (fun c => negb (Ascii.eqb c sep)) l = true.
Proof.
  intros Hsep. rewrite !forallb_forall. intros H c Hc.
  apply negb_true_iff, Ascii.eqb_neq. intros ->.
  rewrite (H _ Hc) in Hsep. discriminate.
Qed.

(** What the generic validator accepts: after the trim, the removal of the
    spaces and of one leading plus sign, at least nine digits. *)
Lemma validate_phone_digits p :
  _validate_phone (VStr p) = true ->
  let d := drop_plus (replace1 " " [] (strip (chars p))) in
  (9 <= length d)%nat /\ forallb isdigit_char d = true.
Proof.
  unfold _validate_phone. destruct (negb (truthy (VStr p))); [discriminate |].
  rewrite drop_plus_startswith. intros H. apply andb_prop in H as [H1 H2].
  unfold isdigit in H2. apply andb_prop in H2 as [_ H2].
  split; [now apply Nat.leb_le | exact H2].
Qed.

Lemma drop_plus_hyphens q :
  forallb isdigit_char (drop_plus q) = true ->
  drop_plus (replace1 "-" [] q) = drop_plus q.
Proof.
  destruct q as [|c r]; [reflexivity |]. cbn [drop_plus].
  destruct (Ascii.eqb c "+") eqn:Hc; intros Hd.
  - apply ascii_eqb_true in Hc. subst c.
    change (replace1 "-" [] ("+"%char :: r))
      with ("+"%char :: replace1 "-" [] r).
    cbn [drop_plus]. change (Ascii.eqb "+" "+") with true. cbv iota.
    apply replace1_absent. now apply digits_without.
  - rewrite replace1_absent by now apply digits_without.
    cbn [drop_plus]. now rewrite Hc.
Qed.

Lemma accept_gateway_inv l r :
  accept_gateway l = Some r ->
  r = text l /\ length l = 12%nat /\ startswith (chars "2519") l = true.
Proof.
  unfold accept_gateway.
  destruct (startswith (chars "2519") l) eqn:Hs; [| discriminate].
  destruct (Nat.eqb_spec (length l) 12) as [Hl | Hl]; [| discriminate].
  simpl. intros [= <-]. auto.
Qed.

Lemma forallb_skipn_true {A} (f : A -> bool) n l :
  forallb f l = true -> forallb f (skipn n l) = true.
Proof.
  rewrite !forallb_forall. intros H x Hx. apply H.
  rewrite <- (firstn_skipn n l). apply in_or_app. now right.
Qed.

(** A text of twelve digits that starts with 2519 passes the generic
    validator and is returned unchanged by the normaliser. *)
Lemma gateway_form_fixed l :
  length l = 12%nat -> startswith (chars "2519") l = true ->
  forallb isdigit_char l = true ->
  _validate_phone (VStr (text l)) = true
  /\ outcome (_normalize_ethiopian_phone (text l)) = Ok (Some (text l)).
Proof.
  intros Hlen Hs Hd.
  assert (Hstrip : strip l = l) by now apply strip_nospace, digits_nospace.
  assert (Hsp : replace1 " " [] l = l)
    by now apply replace1_absent, digits_without.
  assert (Hhy : replace1 "-" [] l = l)
    by now apply replace1_absent, digits_without.
  assert (Hplus : drop_plus l = l /\ startswith (chars "251") l = true).
  { destruct l as [|a [|b [|c [|d rest]]]];
      cbn [startswith chars list_ascii_of_string] in Hs;
      repeat match type of Hs with
             | _ && _ = true => apply andb_prop in Hs as [?H Hs]
             end;
      try discriminate Hs.
    repeat match goal with
           | H : Ascii.eqb _ _ = true |- _ => apply ascii_eqb_true in H
           end.
    subst. split; reflexivity. }
  destruct Hplus as [Hplus H251]. split.
  - unfold _validate_phone, truthy. rewrite length_text, Hlen. cbn [Nat.eqb negb].
    rewrite chars_text, Hstrip, Hsp, drop_plus_startswith, Hplus, Hlen.
    unfold isdigit. rewrite Hlen, Hd. reflexivity.
  - rewrite normalize_outcome. unfold normalizeGatewayPhone_amended.
    rewrite chars_text, Hstrip, <- replace1_separators, Hsp, Hhy, Hplus, H251.
    unfold accept_gateway. now rewrite Hs, Hlen.
Qed.

(** What the normaliser returns for a phone that the generic validator
    accepts: twelve digits, the first four being 2519. *)
Lemma validated_normalized_digits p r :
  _validate_phone (VStr p) = true ->
  outcome (_normalize_ethiopian_phone p) = Ok (Some r) ->
  exists l, r = text l /\ length l = 12%nat
            /\ startswith (chars "2519") l = true
            /\ forallb isdigit_char l = true.
Proof.
  intros Hv Hn.
  destruct (validate_phone_digits p Hv) as [_ Hd].
  rewrite normalize_outcome in Hn. injection Hn as Hn.
  unfold normalizeGatewayPhone_amended in Hn.
  rewrite <- replace1_separators, (drop_plus_hyphens _ Hd) in Hn.
  set (d := drop_plus (replace1 " " [] (strip (chars p)))) in *.
  repeat match type of Hn with
         | (if ?b then _ else _) = _ => destruct b
         end; try discriminate;
    apply accept_gateway_inv in Hn as (-> & Hl & Hs);
    eexists; (split; [reflexivity |]); (split; [exact Hl |]);
    (split; [exact Hs |]).
  - exact Hd.
  - rewrite forallb_app. apply andb_true_intro. split; [reflexivity |].
    now apply forallb_skipn_true.
  - rewrite forallb_app. apply andb_true_intro. split; [reflexivity |].
    exact Hd.
Qed.

(** X1.  The two phone checks compose.  When the generic validator
    accepts a phone and the normaliser of the gateway returns a number for
    it, that number is made of twelve digits, the first four being 2519;
    it passes the generic validator again, and the normaliser returns it
    unchanged. *)
Theorem validated_phone_normalises (p r : string) :
  _validate_phone (VStr p) = true ->
  outcome (_normalize_ethiopian_phone p) = Ok (Some r) ->
  String.length r = 12%nat
  /\ startswith (chars "2519") (chars r) = true
  /\ forallb isdigit_char (chars r) = true
  /\ _validate_phone (VStr r) = true
  /\ outcome (_normalize_ethiopian_phone r) = Ok (Some r).
Proof.
  intros Hv Hn.
  destruct (validated_normalized_digits p r Hv Hn)
    as (l & -> & Hl & Hs & Hdl).
  rewrite length_text, chars_text.
  destruct (gateway_form_fixed l Hl Hs Hdl) as [H1 H2]. auto.
Qed.

Lemma validated_phone_normalises_witness :
  _validate_phone (VStr "+251 911 223344") = true
  /\ outcome (_normalize_ethiopian_phone "+251 911 223344")
     = Ok (Some "251911223344")
  /\ _validate_phone (VStr "251911223344") = true.
Proof.
  split; [reflexivity |]. split; [reflexivity |].
  apply (validated_phone_normalises "+251 911 223344" "251911223344");
    reflexivity.
Defined.

(** ** Bounds of the sanitiser *)

Lemma lstrip_nil l : lstrip l = [] <-> blank l = true.
Proof.
  unfold blank. induction l as [|c r IH]; simpl; [tauto |].
  destruct (isspace c); simpl; [exact IH |]. split; discriminate.
Qed.

Lemma strip_nil l : strip l = [] <-> blank l = true.
Proof.
  rewrite <- lstrip_nil. unfold strip. split.
  - intros H. destruct (lstrip_head l) as [Hl | (c & r & Hl & Hc)];
      [exact Hl |].
    rewrite Hl in H. destruct (rstrip_head c r Hc) as [r' Hr'].
    rewrite Hr' in H. discriminate.
  - now intros ->.
Qed.

Lemma collapse_nil l : collapse_from false l = [] -> l = [].
Proof. destruct l as [|c r]; simpl; [auto |]. now destruct (isspace c). Qed.

Lemma lstrip_length l : (length (lstrip l) <= length l)%nat.
Proof.
  induction l as [|c r IH]; simpl; [lia |].
  destruct (isspace c); simpl; lia.
Qed.

Lemma rstrip_length l : (length (rstrip l) <= length l)%nat.
Proof.
  induction l as [|c r IH]; simpl; [lia |].
  destruct (rstrip r); [destruct (isspace c) |]; simpl in *; lia.
Qed.

Lemma collapse_length l : forall b,
  (length (collapse_from b l) <= length l)%nat.
Proof.
  induction l as [|c r IH]; intros b; simpl; [lia |].
  pose proof (IH true). pose proof (IH false).
  destruct (isspace c); [destruct b |]; simpl; lia.
Qed.

Lemma truncated_no_longer m : (length (truncated m) <= length m)%nat.
Proof.
  unfold truncated. destruct (Nat.ltb_spec 300 (length m)) as [H | H];
    [| lia].
  rewrite length_app, firstn_length_le by lia.
  change (length (chars "...")) with 3%nat. lia.
Qed.

(** X2.  What the sanitiser returns is never longer than 300 characters
    nor longer than its input; when it is not empty, it starts and ends
    with a character that is not whitespace, and its only whitespace is
    single spaces. *)
Theorem validate_message_bounds (s : string) :
  let out := _validate_message (VStr s) in
  (String.length out <= 300)%nat
  /\ (String.length out <= String.length s)%nat
  /\ (out = "" \/ tidy_from true (chars out) = true)
  /\ Forall (fun c => isspace c = true -> c = " "%char) (chars out).
Proof.
  cbv zeta.
  assert (Hsp : forall l b, tidy_from b l = true ->
            Forall (fun c => isspace c = true -> c = " "%char) l).
  { induction l as [|c r IH]; intros b Ht; constructor; simpl in Ht;
      destruct (isspace c) eqn:Hc.
    - intros _. apply andb_prop in Ht as [Ht _].
      apply andb_prop in Ht as [_ Ht]. now apply ascii_eqb_true in Ht.
    - discriminate.
    - apply andb_prop in Ht as [_ Ht]. eapply IH; eassumption.
    - eapply IH; eassumption. }
  destruct (validate_message_shape s) as [H | (m & H & Ht & Hlen)].
  - rewrite H. repeat split; simpl; try lia; [now left | constructor].
  - split; [rewrite H, length_text; exact Hlen |].
    split.
    + rewrite validate_message_unfold.
      destruct (Nat.eqb (String.length s) 0); [simpl; lia |].
      destruct (collapse_strip_tidy (chars s)) as [Hnil | Ht'].
      * rewrite Hnil. simpl. lia.
      * rewrite (newline_free_tidy _ (truncated_tidy _ Ht')), length_text.
        pose proof (truncated_no_longer (re_sub_spaces (strip (chars s)))).
        pose proof (collapse_length (strip (chars s)) false).
        pose proof (rstrip_length (lstrip (chars s))).
        pose proof (lstrip_length (chars s)).
        unfold re_sub_spaces, strip in *. rewrite <- length_chars. lia.
    + rewrite H, chars_text. split; [now right | eapply Hsp; eassumption].
Qed.

(** X3.  The sanitiser returns the empty string exactly for the values
    that are not strings and for the strings made of whitespace only (the
    empty string among them). *)
Theorem validate_message_blank (v : PyVal) :
  _validate_message v = ""
  <-> forall s, v = VStr s -> blank (chars s) = true.
Proof.
  destruct v as [| b | z | s]; try (split; [intros _ s' [=] | reflexivity]).
  rewrite validate_message_unfold. split.
  - intros H s' [= <-]. destruct (Nat.eqb_spec (String.length s) 0) as [Hs | Hs].
    + rewrite <- length_chars in Hs. now destruct (chars s).
    + apply strip_nil.
      destruct (collapse_strip_tidy (chars s)) as [Hnil | Ht].
      * now apply collapse_nil.
      * rewrite (newline_free_tidy _ (truncated_tidy _ Ht)) in H.
        apply (f_equal chars) in H. rewrite chars_text in H.
        apply truncated_tidy in Ht. rewrite H in Ht. discriminate.
  - intros H. specialize (H s eq_refl). apply strip_nil in H. rewrite H.
    now destruct (Nat.eqb (String.length s) 0).
Qed.

(** ** Every run of the retry loops *)

Section RetryRuns.

Variable cfg : Config.
Variable r : Request.
Variable loop : nat -> nat -> M bool.
Variable ok : nat -> bool.

Hypothesis run_done : forall attempt,
  outcome (loop 0%nat attempt) = Ok false
  /\ posts (trace (loop 0%nat attempt)) = []
  /\ sleeps (trace (loop 0%nat attempt)) = [].

Hypothesis run_step : forall todo attempt,
  if ok attempt
  then outcome (loop (S todo) attempt) = Ok true
       /\ posts (trace (loop (S todo) attempt)) = [r]
       /\ sleeps (trace (loop (S todo) attempt)) = []
  else outcome (loop (S todo) attempt) = outcome (loop todo (S attempt))
       /\ posts (trace (loop (S todo) attempt))
          = r :: posts (trace (loop todo (S attempt)))
       /\ sleeps (trace (loop (S todo) attempt))
          = (sleeps (backoff cfg attempt)
             ++ sleeps (trace (loop todo (S attempt))))%list.

(** A run of the loop makes [n] requests, the first [n - 1] of which
    fail, and sleeps after each of these; it returns [True] when the last
    one succeeds and [False] when none is left. *)
Lemma loop_run todo : forall attempt,
  SMS_RETRY_ATTEMPTS cfg = Z.of_nat (attempt + todo) ->
  exists n b,
    outcome (loop todo attempt) = Ok b
    /\ (n <= todo)%nat
    /\ posts (trace (loop todo attempt)) = repeat r n
    /\ sleeps (trace (loop todo attempt))
       = map capped_backoff (seq attempt (n - 1))
    /\ (forall k, (attempt <= k < attempt + n - 1)%nat -> ok k = false)
    /\ (if b
        then (1 <= n)%nat /\ ok (attempt + n - 1)%nat = true
        else n = todo
             /\ forall k, (attempt <= k < attempt + n)%nat -> ok k = false).
Proof.
  induction todo as [|todo IH]; intros attempt HN.
  - exists 0%nat, false. destruct (run_done attempt) as (Ho & Hp & Hs).
    rewrite Ho, Hp, Hs.
    refine (conj eq_refl (conj _ (conj eq_refl (conj eq_refl
              (conj _ (conj eq_refl _)))))).
    + lia.
    + intros k Hk. lia.
    + intros k Hk. lia.
  - pose proof (run_step todo attempt) as Hs.
    destruct (ok attempt) eqn:Hok.
    + destruct Hs as (Ho & Hp & Hsl). exists 1%nat, true.
      rewrite Ho, Hp, Hsl.
      refine (conj eq_refl (conj _ (conj eq_refl (conj eq_refl
                (conj _ (conj _ _)))))).
      * lia.
      * intros k Hk. lia.
      * lia.
      * now replace (attempt + 1 - 1)%nat with attempt by lia.
    + destruct Hs as (Ho & Hp & Hsl).
      destruct (IH (S attempt))
        as (n & b & Ho' & Hle & Hp' & Hsl' & Hbefore & Hb);
        [rewrite HN; f_equal; lia |].
      exists (S n), b. rewrite Ho, Hp, Hsl, Ho', Hp', Hsl'.
      refine (conj eq_refl (conj _ (conj eq_refl (conj _ (conj _ _))))).
      * lia.
      * replace (S n - 1)%nat with n by lia. unfold backoff. rewrite HN.
        destruct n as [|n].
        -- destruct b; [lia |]. destruct Hb as [Hb _].
           destruct (Z.ltb_spec (Z.of_nat attempt)
                       (Z.of_nat (attempt + S todo) - 1)); [lia | reflexivity].
        -- destruct (Z.ltb_spec (Z.of_nat attempt)
                       (Z.of_nat (attempt + S todo) - 1)); [| lia].
           cbn [seq map sleeps flat_map app].
           now replace (S n - 1)%nat with n by lia.
      * intros k Hk. destruct (Nat.eq_dec k attempt) as [-> | Hne];
          [exact Hok | apply Hbefore; lia].
      * destruct b.
        -- destruct Hb as [Hn Hlast]. split; [lia |].
           now replace (attempt + S n - 1)%nat with (S attempt + n - 1)%nat
             by lia.
        -- destruct Hb as [-> Hall]. split; [reflexivity |].
           intros k Hk. destruct (Nat.eq_dec k attempt) as [-> | Hne];
             [exact Hok | apply Hall; lia].
Qed.

Lemma run_by_loop :
  forall t, posts t = [] -> sleeps t = [] ->
  exists n b,
    run_by ok r (Z.to_nat (SMS_RETRY_ATTEMPTS cfg))
      (prefixed t (loop (Z.to_nat (SMS_RETRY_ATTEMPTS cfg)) 0%nat)) n b.
Proof.
  intros t Hp Hs. unfold run_by.
  rewrite outcome_prefixed, trace_prefixed, posts_app, sleeps_app, Hp, Hs.
  cbn [app].
  destruct (Z.le_gt_cases 0 (SMS_RETRY_ATTEMPTS cfg)) as [Hpos | Hneg].
  - destruct (loop_run (Z.to_nat (SMS_RETRY_ATTEMPTS cfg)) 0%nat)
      as (n & b & Ho & Hle & Hposts & Hsleeps & Hbefore & Hb);
      [cbn [Nat.add]; lia |].
    exists n, b. rewrite Ho, Hposts, Hsleeps.
    refine (conj eq_refl (conj Hle (conj eq_refl (conj eq_refl
              (conj _ (conj _ _)))))).
    + intros k Hk. apply Hbefore. lia.
    + intros ->. exact Hb.
    + intros [-> Hn]. destruct Hb as [Hlim Hall].
      split; [exact Hlim | apply Hall; lia].
  - replace (Z.to_nat (SMS_RETRY_ATTEMPTS cfg)) with 0%nat by lia.
    destruct (run_done 0%nat) as (Ho & Hposts & Hsleeps).
    exists 0%nat, false. rewrite Ho, Hposts, Hsleeps.
    refine (conj eq_refl (conj _ (conj eq_refl (conj eq_refl
              (conj _ (conj _ _)))))).
    + lia.
    + intros k Hk. lia.
    + discriminate.
    + intros [_ Hn]. lia.
Qed.

End RetryRuns.

Lemma normalize_quiet phone :
  posts (trace (_normalize_ethiopian_phone phone)) = []
  /\ sleeps (trace (_normalize_ethiopian_phone phone)) = [].
Proof.
  unfold _normalize_ethiopian_phone.
  rewrite replace1_separators, drop_plus_startswith.
  set (s := drop_plus (without_separators (strip (chars phone)))).
  destruct (startswith (chars "251") s).
  { cbn [bind ret]. now destruct (_ && _). }
  destruct (startswith (chars "0") s).
  { cbn [bind ret]. now destruct (_ && _). }
  destruct (startswith (chars "9") s && Nat.eqb (length s) 9).
  { cbn [bind ret]. now destruct (_ && _). }
  split; reflexivity.
Qed.

Lemma run_by_nothing ok r limit (t : list Event) :
  posts t = [] -> sleeps t = [] ->
  run_by ok r limit (t, Ok false) 0%nat false.
Proof.
  intros Hp Hs. unfold run_by. cbn [outcome trace fst snd].
  rewrite Hp, Hs.
  refine (conj eq_refl (conj _ (conj eq_refl (conj eq_refl
            (conj _ (conj _ _)))))).
  - lia.
  - intros k Hk. lia.
  - discriminate.
  - intros [_ Hn]. lia.
Qed.

(** X4.  Every call of [send_sms] returns a boolean, whatever the
    network does.  It posts the same generic request [n] times, with [n]
    at most [SMS_RETRY_ATTEMPTS]; the first [n - 1] requests failed and
    each was followed by the sleep [min(2^k, 10)]; there is no sleep after
    the last request.  The result is [True] exactly when the last request
    was answered with status 200, and [False] after at least one request
    only when all [SMS_RETRY_ATTEMPTS] requests failed. *)
Theorem send_sms_run cfg env reference payload phone :
  exists n b,
    run_of env ok_generic (generic_request cfg reference payload)
      (Z.to_nat (SMS_RETRY_ATTEMPTS cfg))
      (send_sms cfg env reference payload phone) n b.
Proof.
  change (exists n b,
            run_by (generic_attempt_ok env
                      (generic_request cfg reference payload))
              (generic_request cfg reference payload)
              (Z.to_nat (SMS_RETRY_ATTEMPTS cfg))
              (send_sms cfg env reference payload phone) n b).
  destruct (str_truthy (SAVING_API_URL cfg)) eqn:Hurl.
  - destruct (truthy phone && negb (_validate_phone phone)) eqn:Hphone.
    + exists 0%nat, false. unfold send_sms. rewrite Hurl, Hphone.
      now apply run_by_nothing.
    + rewrite (send_sms_dispatch cfg env reference payload phone Hurl Hphone).
      apply (run_by_loop cfg _ _ _
               (send_sms_attempts_done cfg env _ reference)
               (send_sms_attempts_iter cfg env _ reference));
        reflexivity.
  - exists 0%nat, false. unfold send_sms. rewrite Hurl.
    now apply run_by_nothing.
Qed.

(** X5.  Every call of [_send_geezsms] returns a boolean, for any value
    passed as phone, a string or not.  Its requests are [n] copies of one
    gateway request, which carries the normalised phone, with [n] at most
    [SMS_RETRY_ATTEMPTS]; the first [n - 1] attempts failed and each was
    followed by the sleep [min(2^k, 10)].  An attempt succeeds when its
    answer has status 200, the body is empty or parses as JSON, and the
    line that the code prints is written: where [print] raises (a standard
    output that cannot encode the text), an answer with status 200 is a
    failed attempt, and the message is posted again. *)
Theorem send_geezsms_run cfg env phone message :
  exists n b r,
    run_by (gateway_attempt_ok env r) r (Z.to_nat (SMS_RETRY_ATTEMPTS cfg))
      (_send_geezsms cfg env phone message) n b
    /\ ((1 <= n)%nat ->
        exists p normalized,
          phone = VStr p
          /\ outcome (_normalize_ethiopian_phone p) = Ok (Some normalized)
          /\ r = gateway_request cfg normalized message)
    /\ (forall k, gateway_attempt_ok env r k = true
                  <-> (exists resp,
                         transport env k r = Returned (Some resp)
                         /\ status_code resp = 200
                         /\ (resp_text resp = "" \/ json_parses resp = true))
                      /\ print_fault env k = None).
Proof.
  assert (Hok : forall r k,
            gateway_attempt_ok env r k = true
            <-> (exists resp,
                   transport env k r = Returned (Some resp)
                   /\ status_code resp = 200
                   /\ (resp_text resp = "" \/ json_parses resp = true))
                /\ print_fault env k = None).
  { intros r k. unfold gateway_attempt_ok, printed.
    rewrite andb_true_iff, ok_gateway_true.
    destruct (print_fault env k); split; intros [H1 H2];
      (split; [exact H1 |]); congruence. }
  pose (r0 := gateway_request cfg "" message).
  assert (Hnone : forall t : list Event, posts t = [] -> sleeps t = [] ->
            exists n b r,
              run_by (gateway_attempt_ok env r) r
                (Z.to_nat (SMS_RETRY_ATTEMPTS cfg)) (t, Ok false) n b
              /\ ((1 <= n)%nat ->
                  exists p normalized,
                    phone = VStr p
                    /\ outcome (_normalize_ethiopian_phone p)
                       = Ok (Some normalized)
                    /\ r = gateway_request cfg normalized message)
              /\ (forall k, gateway_attempt_ok env r k = true
                    <-> (exists resp,
                           transport env k r = Returned (Some resp)
                           /\ status_code resp = 200
                           /\ (resp_text resp = ""
                               \/ json_parses resp = true))
                        /\ print_fault env k = None)).
  { intros t Hp Hs. exists 0%nat, false, r0.
    split; [now apply run_by_nothing |]. split; [lia | apply Hok]. }
  destruct (str_truthy (SMS_API_KEY cfg)) eqn:Hkey.
  - destruct phone as [| b | z | p];
      try (unfold _send_geezsms; rewrite Hkey; apply Hnone; reflexivity).
    destruct (outcome (_normalize_ethiopian_phone p))
      as [[normalized |] | e] eqn:Hnorm.
    + rewrite (send_geezsms_dispatch cfg env p message normalized Hkey Hnorm).
      destruct (normalize_quiet p) as [Hp Hs].
      destruct (run_by_loop cfg _ _ _
                  (geezsms_attempts_done cfg env
                     (gateway_request cfg normalized message)
                     (text (firstn 8 (chars normalized))))
                  (geezsms_attempts_iter cfg env _ _)
                  (trace (_normalize_ethiopian_phone p)
                   ++ [Log INFO (GeezSending
                                   (text (firstn 8 (chars normalized))))]))
        as (n & b & Hrun).
      * now rewrite posts_app, Hp.
      * now rewrite sleeps_app, Hs.
      * exists n, b, (gateway_request cfg normalized message).
        split; [exact Hrun |]. split; [eauto | apply Hok].
    + unfold _send_geezsms. rewrite Hkey. cbv beta iota. cbn [negb].
      destruct (_normalize_ethiopian_phone p) as [t res] eqn:Hn.
      simpl in Hnorm. subst res. rewrite bind_returned. mnorm.
      cbn [str_truthy negb]. mnorm.
      destruct (normalize_quiet p) as [Hp Hs]. rewrite Hn in Hp, Hs.
      simpl in Hp, Hs. apply Hnone.
      * rewrite !posts_app, Hp. reflexivity.
      * rewrite !sleeps_app, Hs. reflexivity.
    + rewrite normalize_outcome in Hnorm. discriminate.
  - unfold _send_geezsms. rewrite Hkey. apply Hnone; reflexivity.
Qed.

(** The case of a standard output that cannot encode the line: every
    answer has status 200 and a JSON body, every [print] raises, and the
    call returns [False] after three requests. *)
Example send_geezsms_print_fault :
  let env :=
    mkEnv (fun _ _ => Returned (Some (mkResponse 200 "{}" true)))
      "20260101120000123456" "0123456789abcdef0123456789abcdef"
      (fun _ => Some UnicodeEncodeError) in
  let r := gateway_request geez_cfg "251911223344" "hello" in
  let sent := _send_geezsms geez_cfg env (VStr "0911223344") "hello" in
  outcome sent = Ok false
  /\ posts (trace sent) = [r; r; r]
  /\ sleeps (trace sent) = [1; 2].
Proof. repeat split; vm_compute; reflexivity. Qed.

(** ** The first success, and the calls that send nothing *)

(** The sleeps before the attempt of index [j], when it is not beyond the
    configured number of attempts. *)
Lemma backoff_before cfg j :
  Z.of_nat j < SMS_RETRY_ATTEMPTS cfg ->
  flat_map (fun k => sleeps (backoff cfg k)) (seq 0 j)
  = map capped_backoff (seq 0 j).
Proof.
  intros Hj. apply flat_map_singletons. intros k Hk. apply in_seq in Hk.
  unfold backoff.
  destruct (Z.ltb_spec (Z.of_nat k) (SMS_RETRY_ATTEMPTS cfg - 1));
    [reflexivity | lia].
Qed.

(** X6.  Generic path, any configured number of attempts: when the
    attempts before the one of index [j] fail and that one is answered
    with status 200, [send_sms] returns [True] after exactly [j + 1]
    requests and the sleeps [min(2^k, 10)] for [k < j]. *)
Theorem send_sms_first_success cfg env reference payload phone j :
  str_truthy (SAVING_API_URL cfg) = true ->
  truthy phone && negb (_validate_phone phone) = false ->
  Z.of_nat j < SMS_RETRY_ATTEMPTS cfg ->
  (forall k, (k < j)%nat ->
     ok_generic (transport env k (generic_request cfg reference payload))
     = false) ->
  ok_generic (transport env j (generic_request cfg reference payload))
  = true ->
  outcome (send_sms cfg env reference payload phone) = Ok true
  /\ posts (trace (send_sms cfg env reference payload phone))
     = repeat (generic_request cfg reference payload) (S j)
  /\ sleeps (trace (send_sms cfg env reference payload phone))
     = map capped_backoff (seq 0 j).
Proof.
  intros Hurl Hphone Hj Hfail Hok.
  rewrite (send_sms_dispatch cfg env reference payload phone Hurl Hphone).
  rewrite outcome_prefixed, trace_prefixed, posts_app, sleeps_app.
  cbn [posts sleeps flat_map app].
  rewrite <- (backoff_before cfg j Hj).
  apply (loop_succeeds cfg _ _ (generic_attempt_ok env _)
           (send_sms_attempts_iter cfg env _ reference) j).
  - lia.
  - intros k Hk. apply Hfail. lia.
  - exact Hok.
Qed.

Lemma send_sms_first_success_witness :
  let env :=
    mkEnv (fun attempt _ =>
             match attempt with
             | 0%nat => Failed TimeoutError
             | 1%nat => Returned (Some (mkResponse 503 "busy" false))
             | _ => Returned (Some (mkResponse 200 "" true))
             end)
      "20260101120000123456" "0123456789abcdef0123456789abcdef"
      (fun _ => None) in
  let cfg := mkConfig (Some "https://saving.example.com/api") None 5 in
  outcome (send_sms cfg env "REF-1" ∅ (VStr "0911223344")) = Ok true
  /\ length (posts (trace (send_sms cfg env "REF-1" ∅ (VStr "0911223344"))))
     = 3%nat
  /\ sleeps (trace (send_sms cfg env "REF-1" ∅ (VStr "0911223344"))) = [1; 2].
Proof.
  intros env cfg.
  destruct (send_sms_first_success cfg env "REF-1" ∅ (VStr "0911223344") 2)
    as (Ho & Hp & Hs).
  - reflexivity.
  - reflexivity.
  - simpl. lia.
  - intros k Hk. destruct k as [|[|k]]; [reflexivity | reflexivity | lia].
  - reflexivity.
  - rewrite Ho, Hp, Hs. repeat split.
Defined.

(** X7.  Gateway path, from [send_custom_sms]: for a valid phone that
    normalises and a message that is not blank, when the attempts before
    the one of index [j] fail and that one succeeds, the call returns
    [True] after exactly [j + 1] requests, each carrying the token, the
    normalised phone and the sanitised message, and the sleeps
    [min(2^k, 10)] for [k < j].  An attempt succeeds when its answer has
    status 200, the body is empty or parses as JSON, and the line that the
    code prints is written; an answer with status 200 whose line cannot be
    printed is a failed attempt. *)
Theorem send_custom_sms_gateway_first_success cfg env p message message_type
    additional_data normalized j :
  _validate_phone (VStr p) = true ->
  _validate_message message <> "" ->
  gateway_selected cfg = true ->
  str_truthy (SMS_API_KEY cfg) = true ->
  outcome (_normalize_ethiopian_phone p) = Ok (Some normalized) ->
  Z.of_nat j < SMS_RETRY_ATTEMPTS cfg ->
  let r := gateway_request cfg normalized (_validate_message message) in
  let sent :=
    send_custom_sms cfg env (VStr p) message message_type additional_data in
  (forall k, (k < j)%nat -> gateway_attempt_ok env r k = false) ->
  ok_gateway (transport env j r) = true ->
  print_fault env j = None ->
  outcome sent = Ok true
  /\ posts (trace sent) = repeat r (S j)
  /\ sleeps (trace sent) = map capped_backoff (seq 0 j).
Proof.
  intros Hphone Hmsg Hgw Hkey Hnorm Hj r sent Hfail Hok Hprint. unfold sent.
  rewrite (send_custom_sms_gateway cfg env (VStr p) message message_type
             additional_data Hphone Hmsg Hgw).
  rewrite (send_geezsms_dispatch cfg env p _ normalized Hkey Hnorm).
  rewrite outcome_prefixed, trace_prefixed, !posts_app, !sleeps_app.
  destruct (normalize_quiet p) as [-> ->].
  cbn [posts sleeps flat_map app].
  rewrite <- (backoff_before cfg j Hj).
  apply (loop_succeeds cfg r _ (gateway_attempt_ok env r)
           (geezsms_attempts_iter cfg env r _) j).
  - lia.
  - intros k Hk. apply Hfail. lia.
  - unfold gateway_attempt_ok, printed. cbn [Nat.add].
    now rewrite Hok, Hprint.
Qed.

Lemma send_custom_sms_gateway_first_success_witness :
  let env :=
    mkEnv (fun attempt _ =>
             match attempt with
             | 0%nat => Returned (Some (mkResponse 200 "OK" false))
             | _ => Returned (Some (mkResponse 200 "{}" true))
             end)
      "20260101120000123456" "0123456789abcdef0123456789abcdef"
      (fun attempt =>
         match attempt with
         | 1%nat => Some UnicodeEncodeError
         | _ => None
         end) in
  let sent :=
    send_custom_sms geez_cfg env (VStr "0911223344") (VStr " hello  there ")
      (VStr "otp") (Scalar VNone) in
  outcome sent = Ok true
  /\ posts (trace sent)
     = repeat (gateway_request geez_cfg "251911223344" "hello there") 3
  /\ sleeps (trace sent) = [1; 2].
Proof.
  intros env sent.
  apply (send_custom_sms_gateway_first_success geez_cfg env "0911223344"
           (VStr " hello  there ") (VStr "otp") (Scalar VNone)
           "251911223344" 2).
  - reflexivity.
  - discriminate.
  - reflexivity.
  - reflexivity.
  - reflexivity.
  - simpl. lia.
  - intros k Hk. destruct k as [|[|k]]; [reflexivity | reflexivity | lia].
  - reflexivity.
  - reflexivity.
Defined.

(** X8.  With the named gateway selected, [send_custom_sms] returns
    [False] without any request and without any sleep when the API key is
    missing, and when the phone does not normalise to an Ethiopian mobile
    number, even if the generic validator accepts it. *)
Theorem send_custom_sms_gateway_rejects cfg env phone message message_type
    additional_data :
  gateway_selected cfg = true ->
  str_truthy (SMS_API_KEY cfg) = false
  \/ (forall p, phone = VStr p ->
        outcome (_normalize_ethiopian_phone p) = Ok None) ->
  outcome (send_custom_sms cfg env phone message message_type
             additional_data) = Ok false
  /\ posts (trace (send_custom_sms cfg env phone message message_type
                     additional_data)) = []
  /\ sleeps (trace (send_custom_sms cfg env phone message message_type
                      additional_data)) = [].
Proof.
  intros Hgw Hrej. unfold send_custom_sms.
  destruct (_validate_phone phone) eqn:Hphone; cbn [negb];
    [| repeat split].
  destruct (validate_phone_str phone Hphone) as [p ->].
  destruct (str_truthy (Some (_validate_message message))); cbn [negb];
    [| repeat split].
  fold (gateway_selected cfg). rewrite Hgw. unfold _send_geezsms.
  destruct (str_truthy (SMS_API_KEY cfg)) eqn:Hkey; cbn [negb];
    [| repeat split].
  destruct Hrej as [Hrej | Hrej]; [discriminate |].
  specialize (Hrej p eq_refl).
  destruct (_normalize_ethiopian_phone p) as [t res] eqn:Hn.
  simpl in Hrej. subst res. rewrite bind_returned. mnorm.
  cbn [str_truthy negb]. mnorm.
  destruct (normalize_quiet p) as [Hp Hs]. rewrite Hn in Hp, Hs.
  simpl in Hp, Hs.
  rewrite outcome_prefixed, trace_prefixed, !posts_app, !sleeps_app, Hp, Hs.
  repeat split.
Qed.

Lemma send_custom_sms_gateway_rejects_witness :
  _validate_phone (VStr "+1 202 555 0100") = true
  /\ outcome (send_custom_sms geez_cfg ok_env (VStr "+1 202 555 0100")
                (VStr "hello") (VStr "notification") (Scalar VNone))
     = Ok false
  /\ posts (trace (send_custom_sms geez_cfg ok_env (VStr "+1 202 555 0100")
                     (VStr "hello") (VStr "notification") (Scalar VNone)))
     = [].
Proof.
  split; [reflexivity |].
  destruct (send_custom_sms_gateway_rejects geez_cfg ok_env
              (VStr "+1 202 555 0100") (VStr "hello") (VStr "notification")
              (Scalar VNone)) as (Ho & Hp & _).
  - reflexivity.
  - right. intros p [= <-]. reflexivity.
  - split; assumption.
Defined.

Lemma send_custom_sms_message cfg env phone m1 m2 message_type
    additional_data :
  _validate_message m1 = _validate_message m2 ->
  send_custom_sms cfg env phone m1 message_type additional_data
  = send_custom_sms cfg env phone m2 message_type additional_data.
Proof. intros H. unfold send_custom_sms. now rewrite H. Qed.

(** X9.  [send_notification_sms] is [send_custom_sms] with the type
    ["notification"] and no additional data whenever the message is not
    blank: sanitising the message twice changes nothing.  For a phone that
    is a string the two return the same result and post the same
    requests, whatever the message; for a blank message
    [send_notification_sms] posts nothing. *)
Theorem send_notification_sms_is_custom cfg env phone message :
  (_validate_message message <> "" ->
   send_notification_sms cfg env phone message
   = send_custom_sms cfg env phone message (VStr "notification")
       (Scalar VNone))
  /\ (forall p, phone = VStr p ->
        outcome (send_notification_sms cfg env phone message)
        = outcome (send_custom_sms cfg env phone message
                     (VStr "notification") (Scalar VNone))
        /\ posts (trace (send_notification_sms cfg env phone message))
           = posts (trace (send_custom_sms cfg env phone message
                             (VStr "notification") (Scalar VNone))))
  /\ (_validate_message message = "" ->
      posts (trace (send_notification_sms cfg env phone message)) = []).
Proof.
  assert (Hne : _validate_message message <> "" ->
            send_notification_sms cfg env phone message
            = send_custom_sms cfg env phone message (VStr "notification")
                (Scalar VNone)).
  { intros Hmsg. unfold send_notification_sms.
    rewrite (str_truthy_nonempty _ Hmsg). cbn [negb].
    apply send_custom_sms_message, validate_message_idempotent_any. }
  split; [exact Hne |]. split.
  - intros p ->.
    destruct (string_dec (_validate_message message) "") as [He | Hn].
    + unfold send_notification_sms, send_custom_sms. rewrite He.
      cbn [str_truthy String.length Nat.eqb negb slice4]. mnorm.
      destruct (_validate_phone (VStr p)); split; reflexivity.
    + rewrite (Hne Hn). split; reflexivity.
  - intros He. rewrite (send_notification_sms_blank cfg env phone message He).
    now destruct phone.
Qed.

Lemma send_sms_returns cfg env reference payload phone :
  exists b, outcome (send_sms cfg env reference payload phone) = Ok b.
Proof.
  destruct (str_truthy (SAVING_API_URL cfg)) eqn:Hurl.
  - destruct (truthy phone && negb (_validate_phone phone)) eqn:Hphone.
    + exists false. unfold send_sms. now rewrite Hurl, Hphone.
    + rewrite (send_sms_dispatch cfg env reference payload phone Hurl Hphone).
      rewrite outcome_prefixed. apply send_sms_attempts_returns.
  - exists false. unfold send_sms. now rewrite Hurl.
Qed.

Lemma send_geezsms_returns cfg env phone message :
  exists b, outcome (_send_geezsms cfg env phone message) = Ok b.
Proof.
  destruct (str_truthy (SMS_API_KEY cfg)) eqn:Hkey.
  - destruct phone as [| b | z | p];
      try (exists false; unfold _send_geezsms; now rewrite Hkey).
    destruct (outcome (_normalize_ethiopian_phone p))
      as [[normalized |] | e] eqn:Hnorm.
    + rewrite (send_geezsms_dispatch cfg env p message normalized Hkey Hnorm).
      rewrite outcome_prefixed. apply geezsms_attempts_returns.
    + exists false. unfold _send_geezsms. rewrite Hkey. cbv beta iota.
      cbn [negb]. destruct (_normalize_ethiopian_phone p) as [t res].
      simpl in Hnorm. subst res. rewrite bind_returned. mnorm.
      cbn [str_truthy negb]. now mnorm.
    + rewrite normalize_outcome in Hnorm. discriminate.
  - exists false. unfold _send_geezsms. now rewrite Hkey.
Qed.

(** X10.  For an [additional_data] that is [None], a boolean, an integer,
    a string or a dictionary with string keys, [send_custom_sms] raises
    exactly when, on the generic path and past the checks of the phone and
    of the message, [additional_data] is a true boolean, integer or
    string: [ValueError] for a string, [TypeError] for a boolean or an
    integer.  In every other case it returns a boolean.  (Other iterables,
    such as a list of pairs, which [dict.update] merges, are outside
    [PyObj].) *)
Theorem send_custom_sms_raises_iff cfg env phone message message_type
    additional_data e :
  outcome (send_custom_sms cfg env phone message message_type
             additional_data) = Raise e
  <-> _validate_phone phone = true
      /\ _validate_message message <> ""
      /\ gateway_selected cfg = false
      /\ exists v, additional_data = Scalar v /\ truthy v = true
                   /\ e = match v with
                          | VStr _ => ValueError
                          | _ => TypeError
                          end.
Proof.
  unfold send_custom_sms.
  destruct (_validate_phone phone) eqn:Hphone; cbn [negb].
  2:{ split; [discriminate | intros (H & _); discriminate]. }
  destruct (validate_phone_str phone Hphone) as [p ->].
  destruct (string_dec (_validate_message message) "") as [He | Hn].
  { rewrite He. cbn [str_truthy String.length Nat.eqb negb slice4]. mnorm.
    split; [discriminate | intros (_ & H & _); congruence]. }
  rewrite (str_truthy_nonempty _ Hn). cbn [negb].
  fold (gateway_selected cfg). destruct (gateway_selected cfg) eqn:Hgw.
  { destruct (send_geezsms_returns cfg env (VStr p) (_validate_message message))
      as [b Hb].
    rewrite Hb. split; [discriminate | intros (_ & _ & H & _); discriminate]. }
  fold (custom_payload (VStr p) (_validate_message message) message_type).
  destruct additional_data as [v | d].
  - cbn [truthy_obj]. destruct (truthy v) eqn:Hv.
    + destruct v as [| b | z | s]; cbn [dict_update]; rewrite bind_raise;
        (split;
         [intros [= <-]; repeat split; try assumption; eexists;
          repeat split; eassumption
         | intros (_ & _ & _ & v' & [= <-] & _ & ->); reflexivity]).
    + rewrite bind_ret.
      destruct (send_sms_returns cfg env (_generate_reference env "CUSTOM")
                  (custom_payload (VStr p) (_validate_message message)
                     message_type) (VStr p)) as [b Hb].
      rewrite Hb. split; [discriminate |].
      intros (_ & _ & _ & v' & [= <-] & Hv' & _). congruence.
  - assert (Hret : exists payload,
              (if truthy_obj (Dict d)
               then dict_update
                      (custom_payload (VStr p) (_validate_message message)
                         message_type) (Dict d)
               else ret (custom_payload (VStr p) (_validate_message message)
                           message_type)) = ret payload).
    { destruct (truthy_obj (Dict d)); eexists; reflexivity. }
    destruct Hret as [payload ->]. rewrite bind_ret.
    destruct (send_sms_returns cfg env (_generate_reference env "CUSTOM")
                payload (VStr p)) as [b Hb].
    rewrite Hb. split; [discriminate |].
    intros (_ & _ & _ & v' & [=] & _).
Qed.

(** ** What reaches the named gateway *)

(** X11.  With the named gateway selected, every request that
    [send_custom_sms] posts, for any arguments, goes to the base URL and
    carries the configured token, a phone of twelve digits that starts
    with 2519 and a message of 1 to 300 characters whose whitespace is
    single inner spaces. *)
Theorem send_custom_sms_gateway_requests cfg env phone message message_type
    additional_data :
  gateway_selected cfg = true ->
  Forall
    (fun r => rq_url r = default "" (SAVING_API_URL cfg)
              /\ rq_method r = "POST"
              /\ gateway_body_ok cfg (rq_data r))
    (posts (trace (send_custom_sms cfg env phone message message_type
                     additional_data))).
Proof.
  intros Hgw. unfold send_custom_sms.
  destruct (_validate_phone phone) eqn:Hphone; cbn [negb]; [| constructor].
  destruct (validate_phone_str phone Hphone) as [p ->].
  destruct (string_dec (_validate_message message) "") as [He | Hn].
  { rewrite He. cbn [str_truthy String.length Nat.eqb negb slice4]. mnorm.
    constructor. }
  rewrite (str_truthy_nonempty _ Hn). cbn [negb].
  fold (gateway_selected cfg). rewrite Hgw.
  eapply Forall_impl; [apply send_geezsms_posts |].
  intros r (normalized & Hnorm & ->).
  split; [reflexivity |]. split; [reflexivity |].
  cbn [rq_data gateway_request gateway_body_ok].
  destruct (validated_normalized_digits p normalized Hphone Hnorm)
    as (l & -> & Hl & Hs & Hd).
  rewrite length_text, chars_text.
  destruct message as [| | | s]; try (now destruct Hn).
  destruct (validate_message_shape s) as [He | (m & Hm & Ht & Hlen)];
    [congruence |].
  rewrite Hm, length_text, chars_text.
  repeat split; try assumption.
  destruct m; [discriminate | simpl; lia].
Qed.

Lemma send_custom_sms_gateway_requests_witness :
  Forall
    (fun r => rq_url r = "https://api.geezsms.com/api/v1/sms/send"
              /\ rq_method r = "POST"
              /\ gateway_body_ok geez_cfg (rq_data r))
    (posts (trace (send_custom_sms geez_cfg plain_ok_env (VStr "0911223344")
                     (VStr "hello") (VStr "notification") (Scalar VNone))))
  /\ length (posts (trace (send_custom_sms geez_cfg plain_ok_env
                             (VStr "0911223344") (VStr "hello")
                             (VStr "notification") (Scalar VNone))))
     = 3%nat.
Proof.
  split; [| reflexivity].
  apply (send_custom_sms_gateway_requests geez_cfg plain_ok_env
           (VStr "0911223344") (VStr "hello") (VStr "notification")
           (Scalar VNone)).
  reflexivity.
Defined.

(** ** Bounds of the bulk dispatcher *)






(** ** The amount printed *)

Lemma group3_last n : forall l a,
  (length l <= n)%nat -> exists pre, group3 (l ++ [a]) = (pre ++ [a])%list.
Proof.
  induction n as [|n IH]; intros l a Hlen.
  - destruct l; [| simpl in Hlen; lia]. now exists [].
  - destruct l as [|x [|y [|z rest]]].
    + now exists [].
    + now exists [x].
    + now exists [x; y].
    + destruct (IH rest a) as [pre Hpre]; [simpl in Hlen; lia |].
      exists (x :: y :: z :: ","%char :: pre).
      change ((x :: y :: z :: rest) ++ [a])%list
        with (x :: y :: z :: (rest ++ [a]))%list.
      destruct (rest ++ [a])%list as [|d rest'] eqn:Hr;
        [now destruct rest |].
      rewrite group3_more, Hpre. reflexivity.
Qed.

(** The grouping keeps the first digit first. *)
Lemma group_thousands_head a l :
  exists rest, group_thousands (a :: l) = a :: rest.
Proof.
  unfold group_thousands. cbn [rev].
  destruct (group3_last (length (rev l)) (rev l) a) as [pre ->]; [lia |].
  rewrite rev_app_distr. cbn [rev app]. eauto.
Qed.

(** X13.  For a finite float that is not zero, [_format_amount] prints a
    grouped amount with two decimals, with a minus sign exactly when the
    float is negative; the digits printed are the integer nearest to a
    hundred times the absolute value, the even one on a tie.  A negative
    float that rounds to zero cents is printed as [-0.00]. *)
Theorem format_amount_rounds_to_cent (s : bool) (m : positive) (e : Z) :
  exists out,
    _format_amount (AFloat (S754_finite s m e)) = ret out
    /\ money_shape out = true
    /\ startswith (chars "-") (chars out) = s
    /\ (let c := Z.of_N (digits_value
                           (List.filter is_ascii_digit (chars out))) in
        (0 <= e -> c = Zpos m * 2 ^ e * 100)
        /\ (e < 0 ->
            2 * Z.abs (c * 2 ^ (- e) - Zpos m * 100) <= 2 ^ (- e)
            /\ (2 * Z.abs (c * 2 ^ (- e) - Zpos m * 100) = 2 ^ (- e) ->
                Z.even c = true))
        /\ (c = 0 -> out = if s then "-0.00" else "0.00")).
Proof.
  exists (format_2f (S754_finite s m e)).
  split; [reflexivity |]. split; [now apply format_2f_shape |].
  split.
  - unfold format_2f. rewrite chars_append.
    destruct s; [reflexivity |]. cbn [chars list_ascii_of_string app].
    rewrite chars_append, chars_text. unfold group_thousands.
    pose proof (decimal_digits_digits (cents m e / 100)) as Hd.
    pose proof (decimal_digits_nonempty (cents m e / 100)) as Hne.
    destruct (decimal_digits (cents m e / 100)) as [|a l] eqn:Hl;
      [congruence |].
    cbn [forallb] in Hd. apply andb_prop in Hd as [Ha _].
    destruct (group_thousands_head a l) as [rest Hrest].
    unfold group_thousands in Hrest. rewrite Hrest. cbn [app startswith].
    rewrite Ascii.eqb_sym, (digit_not_minus a Ha). reflexivity.
  - cbv zeta. rewrite format_2f_digits.
    destruct (cents_nearest m e) as [Hpos Hneg].
    split; [exact Hpos |]. split; [exact Hneg |].
    intros Hc. unfold format_2f.
    replace (cents m e) with 0%N by lia. now destruct s.
Qed.

(** ** The fee of a withdrawal *)

Lemma float_of_amount_cases amount :
  (exists x, float_of_amount amount = ret x)
  \/ (exists e, float_of_amount amount = raise e).
Proof.
  destruct amount as [x | d | s | z |]; cbn [float_of_amount].
  - left. eauto.
  - destruct (float_of_decimal d); [left | right]; eauto.
  - destruct (float_of_str s); [left | right]; eauto.
  - destruct (nearest_float (z <? 0) (Z.abs_N z) 0);
      [left | right | left | left]; eauto.
  - right. eauto.
Qed.

(** An amount that [float] reads is formatted as the float it reads. *)
Lemma format_amount_of_float amount x :
  float_of_amount amount = ret x ->
  _format_amount amount = ret (format_2f x).
Proof.
  destruct amount as [y | d | s | z |]; cbn [float_of_amount].
  - now intros [= ->].
  - rewrite format_amount_decimal.
    destruct (float_of_decimal d); [now intros [= ->] | discriminate].
  - rewrite format_amount_str.
    destruct (float_of_str s); [now intros [= ->] | discriminate].
  - unfold _format_amount, format_spec. rewrite bind_ret.
    destruct (nearest_float (z <? 0) (Z.abs_N z) 0);
      try discriminate; now intros [= <-].
  - discriminate.
Qed.

(** X14.  In every request of [send_withdrawal_sms] the payload has the
    key ["fee_amount"] exactly when the fee is a true value whose float is
    greater than zero, and then with that float formatted; it has the key
    ["customer_name"] exactly when the name is a true value.  When the fee
    is a true value that [float] refuses, the exception reaches the caller
    before any request; a non-empty string that does not read as a number
    is such a fee, although [_format_amount] renders it as ["0.00"]. *)
Theorem send_withdrawal_sms_fee cfg env phone amount balance product_name
    bank_name reference fee_amount customer_name :
  Forall
    (fun r => exists payload,
       r = generic_request cfg reference payload
       /\ payload !! "fee_amount" = fee_field fee_amount
       /\ payload !! "customer_name" = optional_field customer_name
       /\ payload !! "type" = Some (VStr "withdrawal_confirmation"))
    (posts (trace (send_withdrawal_sms cfg env phone amount balance
                     product_name bank_name reference fee_amount
                     customer_name)))
  /\ (forall a b e,
        _format_amount amount = ret a -> _format_amount balance = ret b ->
        amount_truthy fee_amount = true ->
        float_of_amount fee_amount = raise e ->
        send_withdrawal_sms cfg env phone amount balance product_name
          bank_name reference fee_amount customer_name = raise e)
  /\ (forall s, fee_amount = AStr s -> s <> "" -> float_of_str s = None ->
        amount_truthy fee_amount = true
        /\ float_of_amount fee_amount = raise ValueError
        /\ _format_amount fee_amount = ret "0.00").
Proof.
  split; [| split].
  - unfold send_withdrawal_sms.
    apply bind_format_amount_posts. intros a.
    apply bind_format_amount_posts. intros b.
    unfold fee_field, optional_field.
    destruct (amount_truthy fee_amount).
    + destruct (float_of_amount_cases fee_amount) as [[x Hx] | [e He]].
      * rewrite Hx. cbn [outcome ret snd]. mnorm.
        destruct (float_gt_zero x).
        -- rewrite (format_amount_of_float _ _ Hx). mnorm.
           eapply Forall_impl; [apply send_sms_posts |].
           intros r <-. eexists. split; [reflexivity |].
           destruct (truthy customer_name); now simplify_map_eq.
        -- mnorm. eapply Forall_impl; [apply send_sms_posts |].
           intros r <-. eexists. split; [reflexivity |].
           destruct (truthy customer_name); now simplify_map_eq.
      * rewrite He. mnorm. constructor.
    + mnorm. eapply Forall_impl; [apply send_sms_posts |].
      intros r <-. eexists. split; [reflexivity |].
      destruct (truthy customer_name); now simplify_map_eq.
  - intros a b e Ha Hb Ht He. unfold send_withdrawal_sms.
    rewrite Ha, Hb, Ht, He. now mnorm.
  - intros s -> Hs Hf. rewrite format_amount_str. cbn [float_of_amount].
    rewrite Hf. destruct s; [congruence | repeat split].
Qed.

(** ** The operations that build a payload *)

(** X15.  [send_transaction_sms], [send_deposit_sms] and
    [send_transfer_sms] raise exactly when one of their amounts makes
    [_format_amount] raise, and the exception is then [OverflowError];
    only an integer beyond the range of the floats does so.
    [send_subscription_sms], which formats no amount, never raises. *)
Theorem typed_operations_raise cfg env e :
  (forall reference product_name balance bank_name phone,
     outcome (send_transaction_sms cfg env reference product_name balance
                bank_name phone) = Raise e
     <-> e = OverflowError /\ overflows balance)
  /\ (forall phone amount balance product_name bank_name reference
             customer_name,
        outcome (send_deposit_sms cfg env phone amount balance product_name
                   bank_name reference customer_name) = Raise e
        <-> e = OverflowError /\ (overflows amount \/ overflows balance))
  /\ (forall reference amount debit_product credit_product debit_balance
             credit_balance bank_name recipient_name phone,
        outcome (send_transfer_sms cfg env reference amount debit_product
                   credit_product debit_balance credit_balance bank_name
                   recipient_name phone) = Raise e
        <-> e = OverflowError
            /\ (overflows amount \/ overflows debit_balance
                \/ overflows credit_balance))
  /\ (forall reference customer_name product_name bank_name
             subscription_type phone,
        outcome (send_subscription_sms cfg env reference customer_name
                   product_name bank_name subscription_type phone)
        <> Raise e)
  /\ (forall amount, overflows amount ->
        exists z sign,
          amount = AInt z
          /\ nearest_float (z <? 0) (Z.abs_N z) 0 = S754_infinity sign).
Proof.
  unfold overflows.
  assert (Hsms : forall reference payload phone,
            outcome (send_sms cfg env reference payload phone) <> Raise e).
  { intros reference payload phone H.
    destruct (send_sms_returns cfg env reference payload phone) as [b Hb].
    congruence. }
  split; [| split; [| split; [| split]]].
  - intros. unfold send_transaction_sms.
    destruct (format_amount_cases balance) as [[s ->] | ->].
    + rewrite bind_ret. split; [intros H; now apply Hsms in H |].
      intros [_ H]. discriminate.
    + rewrite bind_raise. split; [intros [= <-]; auto | now intros [-> _]].
  - intros. unfold send_deposit_sms.
    destruct (format_amount_cases amount) as [[a ->] | ->].
    + rewrite bind_ret.
      destruct (format_amount_cases balance) as [[b ->] | ->].
      * rewrite bind_ret. split; [intros H; now apply Hsms in H |].
        intros [_ [H | H]]; discriminate.
      * rewrite bind_raise. split; [intros [= <-]; auto | now intros [-> _]].
    + rewrite bind_raise. split; [intros [= <-]; auto | now intros [-> _]].
  - intros. unfold send_transfer_sms.
    destruct (format_amount_cases amount) as [[a ->] | ->].
    + rewrite bind_ret.
      destruct (format_amount_cases debit_balance) as [[b ->] | ->].
      * rewrite bind_ret.
        destruct (format_amount_cases credit_balance) as [[c ->] | ->].
        -- rewrite bind_ret. split; [intros H; now apply Hsms in H |].
           intros [_ [H | [H | H]]]; discriminate.
        -- rewrite bind_raise.
           split; [intros [= <-]; auto | now intros [-> _]].
      * rewrite bind_raise. split; [intros [= <-]; auto | now intros [-> _]].
    + rewrite bind_raise. split; [intros [= <-]; auto | now intros [-> _]].
  - intros. unfold send_subscription_sms. apply Hsms.
  - intros amount H. destruct amount as [x | d | s | z |].
    + discriminate.
    + rewrite format_amount_decimal in H. discriminate.
    + rewrite format_amount_str in H. discriminate.
    + unfold _format_amount, format_spec in H. rewrite bind_ret in H.
      destruct (nearest_float (z <? 0) (Z.abs_N z) 0) as [| sign | |] eqn:Hn;
        try discriminate.
      exists z, sign. split; [reflexivity | exact Hn].
    + discriminate.
Qed.

(** X16.  The phone passed to [send_transaction_sms], [send_transfer_sms]
    and [send_subscription_sms] is not part of what they post: the payload
    of every request has no key ["phone"].  [send_deposit_sms] and
    [send_withdrawal_sms] post it under that key. *)
Theorem phone_in_payload cfg env :
  (forall reference product_name balance bank_name phone,
     Forall (fun r => exists payload,
               r = generic_request cfg reference payload
               /\ payload !! "phone" = None)
       (posts (trace (send_transaction_sms cfg env reference product_name
                        balance bank_name phone))))
  /\ (forall reference amount debit_product credit_product debit_balance
             credit_balance bank_name recipient_name phone,
        Forall (fun r => exists payload,
                  r = generic_request cfg reference payload
                  /\ payload !! "phone" = None)
          (posts (trace (send_transfer_sms cfg env reference amount
                           debit_product credit_product debit_balance
                           credit_balance bank_name recipient_name phone))))
  /\ (forall reference customer_name product_name bank_name
             subscription_type phone,
        Forall (fun r => exists payload,
                  r = generic_request cfg reference payload
                  /\ payload !! "phone" = None)
          (posts (trace (send_subscription_sms cfg env reference
                           customer_name product_name bank_name
                           subscription_type phone))))
  /\ (forall phone amount balance product_name bank_name reference
             customer_name,
        Forall (fun r => exists payload,
                  r = generic_request cfg reference payload
                  /\ payload !! "phone" = Some phone)
          (posts (trace (send_deposit_sms cfg env phone amount balance
                           product_name bank_name reference customer_name))))
  /\ (forall phone amount balance product_name bank_name reference fee_amount
             customer_name,
        Forall (fun r => exists payload,
                  r = generic_request cfg reference payload
                  /\ payload !! "phone" = Some phone)
          (posts (trace (send_withdrawal_sms cfg env phone amount balance
                           product_name bank_name reference fee_amount
                           customer_name)))).
Proof.
  split; [| split; [| split; [| split]]]; intros.
  - unfold send_transaction_sms.
    apply bind_format_amount_posts. intros s.
    eapply Forall_impl; [apply send_sms_posts |].
    intros r <-. eexists. split; [reflexivity | now simplify_map_eq].
  - unfold send_transfer_sms.
    apply bind_format_amount_posts. intros a.
    apply bind_format_amount_posts. intros b.
    apply bind_format_amount_posts. intros c.
    eapply Forall_impl; [apply send_sms_posts |].
    intros r <-. eexists. split; [reflexivity |].
    destruct (truthy recipient_name); now simplify_map_eq.
  - unfold send_subscription_sms.
    eapply Forall_impl; [apply send_sms_posts |].
    intros r <-. eexists. split; [reflexivity | now simplify_map_eq].
  - unfold send_deposit_sms.
    apply bind_format_amount_posts. intros a.
    apply bind_format_amount_posts. intros b.
    eapply Forall_impl; [apply send_sms_posts |].
    intros r <-. eexists. split; [reflexivity |].
    destruct (truthy customer_name); now simplify_map_eq.
  - unfold send_withdrawal_sms.
    apply bind_format_amount_posts. intros a.
    apply bind_format_amount_posts. intros b.
    assert (Hfee : forall payload : gmap string PyVal,
              payload !! "phone" = Some phone ->
              Forall (fun r => exists payload,
                        r = generic_request cfg reference payload
                        /\ payload !! "phone" = Some phone)
                (posts (trace
                   (send_sms cfg env reference
                      (if truthy customer_name
                       then <["customer_name" := customer_name]> payload
                       else payload) phone)))).
    { intros payload Hp. eapply Forall_impl; [apply send_sms_posts |].
      intros r <-. eexists. split; [reflexivity |].
      destruct (truthy customer_name); now simplify_map_eq. }
    destruct (amount_truthy fee_amount).
    + destruct (float_of_amount_cases fee_amount) as [[x Hx] | [e He]].
      * rewrite Hx. mnorm. destruct (float_gt_zero x).
        -- rewrite (format_amount_of_float _ _ Hx). mnorm.
           apply Hfee. now simplify_map_eq.
        -- mnorm. apply Hfee. now simplify_map_eq.
      * rewrite He. mnorm. constructor.
    + mnorm. apply Hfee. now simplify_map_eq.
Qed.

(** ** The HTTP views *)

(** Without additional data, [send_custom_sms] returns. *)
Lemma send_custom_sms_returns cfg env phone message message_type :
  exists b,
    outcome (send_custom_sms cfg env phone message message_type
               (Scalar VNone)) = Ok b.
Proof.
  unfold send_custom_sms.
  destruct (_validate_phone phone) eqn:Hphone; cbn [negb];
    [| now exists false].
  destruct (validate_phone_str phone Hphone) as [p ->].
  destruct (str_truthy (Some (_validate_message message))); cbn [negb].
  - destruct (_ && _).
    + apply send_geezsms_returns.
    + cbn [truthy_obj truthy]. rewrite bind_ret. apply send_sms_returns.
  - cbn [slice4]. mnorm. now exists false.
Qed.

Lemma bind_ok {A B} (m : M A) (a : A) (k : A -> M B) :
  outcome m = Ok a -> bind m k = prefixed (trace m) (k a).
Proof.
  destruct m as [t res]. simpl. intros ->. apply bind_returned.
Qed.

(** X17.  [SendSmsView.post] always answers, with status 200, 400 or
    500.  It answers 400 exactly when [json.loads] raises
    [JSONDecodeError] (a body that is text but not JSON) or the body is an
    object without a true phone or a true message, and the service is then
    not called; it answers 200 exactly when the body is an object with
    both and [send_custom_sms] returned [True].  Any other exception of
    [json.loads], such as the [UnicodeDecodeError] of a body that is not
    UTF-8, is answered with status 500 and the text of the exception, and
    so is a body that is JSON but not an object. *)
Theorem SendSmsView_post_status cfg env body :
  (exists resp,
     outcome (SendSmsView_post cfg env body) = Ok resp
     /\ (jr_status resp = 200 \/ jr_status resp = 400 \/ jr_status resp = 500)
     /\ (jr_status resp = 400
         <-> body = Raise JSONDecodeError
             \/ exists d, body = Ok (JObject d)
                          /\ has_phone_and_message d = false)
     /\ (jr_status resp = 400 -> trace (SendSmsView_post cfg env body) = [])
     /\ (jr_status resp = 200
         <-> exists d,
               body = Ok (JObject d) /\ has_phone_and_message d = true
               /\ outcome (send_custom_sms cfg env (dict_get d "phone")
                             (dict_get d "message") (VStr "notification")
                             (Scalar VNone)) = Ok true))
  /\ (forall e, body = Raise e -> e <> JSONDecodeError ->
        SendSmsView_post cfg env body
        = ret (mkJsonResponse
                 [("status", Lit "error"); ("message", StrOf e)] 500))
  /\ (body = Raise UnicodeDecodeError ->
      SendSmsView_post cfg env body
      = ret (mkJsonResponse
               [("status", Lit "error");
                ("message", StrOf UnicodeDecodeError)] 500))
  /\ (body = Ok JOther ->
      SendSmsView_post cfg env body
      = ret (mkJsonResponse
               [("status", Lit "error"); ("message", StrOf AttributeError)]
               500)).
Proof.
  split.
  {
    unfold SendSmsView_post, has_phone_and_message.
    destruct body as [[d |] | e].
    - rewrite bind_returned, prefixed_nil, bind_ret.
      destruct (truthy (dict_get d "phone")) eqn:Hp;
        [destruct (truthy (dict_get d "message")) eqn:Hm |]; cbn [negb orb andb].
      + destruct (send_custom_sms_returns cfg env (dict_get d "phone")
                    (dict_get d "message") (VStr "notification")) as [b Hb].
        rewrite (bind_ok _ b _ Hb).
        destruct b; mnorm; eexists; (split; [reflexivity |]); cbn [jr_status].
        * split; [now left |]. split; [| split; [discriminate |]].
          -- split; [discriminate |].
             intros [H | (d' & [= <-] & H)]; [discriminate |].
             rewrite Hp, Hm in H. discriminate.
          -- split; [| reflexivity]. intros _. exists d.
             rewrite Hp, Hm. auto.
        * split; [now right; right |]. split; [| split; [discriminate |]].
          -- split; [discriminate |].
             intros [H | (d' & [= <-] & H)]; [discriminate |].
             rewrite Hp, Hm in H. discriminate.
          -- split; [discriminate |].
             intros (d' & [= <-] & _ & H). rewrite Hb in H. discriminate.
      + mnorm. eexists. split; [reflexivity |]. cbn [jr_status].
        split; [now right; left |]. split; [| split; [reflexivity |]].
        * split; [| reflexivity]. intros _. right. exists d.
          now rewrite Hp, Hm.
        * split; [discriminate |].
          intros (d' & [= <-] & H & _). rewrite Hp, Hm in H. discriminate.
      + mnorm. eexists. split; [reflexivity |]. cbn [jr_status].
        split; [now right; left |]. split; [| split; [reflexivity |]].
        * split; [| reflexivity]. intros _. right. exists d. now rewrite Hp.
        * split; [discriminate |].
          intros (d' & [= <-] & H & _). rewrite Hp in H. discriminate.
    - rewrite bind_returned, prefixed_nil, bind_raise, catch_raise.
      eexists. split; [reflexivity |]. cbn [jr_status].
      split; [now right; right |]. split; [| split; [discriminate |]].
      + split; [discriminate |].
        intros [H | (d' & H & _)]; discriminate.
      + split; [discriminate |]. intros (d' & H & _). discriminate.
    - change (([] : list Event, Raise e : Result JsonValue))
        with (@raise JsonValue e).
      rewrite bind_raise, catch_raise.
      destruct e; eexists; (split; [reflexivity |]); cbn [jr_status];
        try (split; [now right; right |]; split; [| split; [discriminate |]];
             [split; [discriminate |];
              intros [H | (d' & H & _)]; discriminate
             | split; [discriminate |]; intros (d' & H & _); discriminate]).
      split; [now right; left |]. split; [| split; [reflexivity |]].
      + split; [now left | reflexivity].
      + split; [discriminate |]. intros (d' & H & _). discriminate.
  }
  split; [| split].
  - intros e -> Hne. destruct e; try reflexivity. congruence.
  - intros ->. reflexivity.
  - intros ->. reflexivity.
Qed.

(** X18.  The send view against the mock view.  When the network hands
    every request to [MockSavingApiView.post], the base URL is configured
    and is not that of the named gateway, and at least one attempt is
    configured, a body with a valid phone and a message that is not blank
    is answered with status 200 after exactly one request and no sleep. *)
Theorem SendSmsView_post_against_mock cfg env d :
  served_by_mock env ->
  str_truthy (SAVING_API_URL cfg) = true ->
  gateway_selected cfg = false ->
  0 < SMS_RETRY_ATTEMPTS cfg ->
  _validate_phone (dict_get d "phone") = true ->
  _validate_message (dict_get d "message") <> "" ->
  let answered := SendSmsView_post cfg env (Ok (JObject d)) in
  outcome answered
  = Ok (mkJsonResponse
          [("status", Lit "success"); ("message", Lit "SMS sent")] 200)
  /\ posts (trace answered)
     = [generic_request cfg (_generate_reference env "CUSTOM")
          (custom_payload (dict_get d "phone")
             (_validate_message (dict_get d "message"))
             (VStr "notification"))]
  /\ sleeps (trace answered) = [].
Proof.
  intros Hmock Hurl Hgen Hpos Hphone Hmsg answered.
  unfold answered, SendSmsView_post.
  rewrite bind_returned, prefixed_nil, bind_ret.
  assert (Hp : truthy (dict_get d "phone") = true).
  { destruct (dict_get d "phone") as [| | | s]; try discriminate.
    unfold _validate_phone in Hphone.
    destruct (truthy (VStr s)); [reflexivity | discriminate]. }
  assert (Hm : truthy (dict_get d "message") = true).
  { destruct (dict_get d "message") as [| | | s];
      try (now destruct Hmsg).
    unfold _validate_message in Hmsg.
    destruct (truthy (VStr s)); [reflexivity | now destruct Hmsg]. }
  rewrite Hp, Hm. cbn [negb orb].
  set (r := generic_request cfg (_generate_reference env "CUSTOM")
              (custom_payload (dict_get d "phone")
                 (_validate_message (dict_get d "message"))
                 (VStr "notification"))).
  assert (Hsend :
            outcome (send_custom_sms cfg env (dict_get d "phone")
                       (dict_get d "message") (VStr "notification")
                       (Scalar VNone)) = Ok true
            /\ posts (trace (send_custom_sms cfg env (dict_get d "phone")
                         (dict_get d "message") (VStr "notification")
                         (Scalar VNone))) = [r]
            /\ sleeps (trace (send_custom_sms cfg env (dict_get d "phone")
                          (dict_get d "message") (VStr "notification")
                          (Scalar VNone))) = []).
  { unfold send_custom_sms.
    rewrite Hphone, (str_truthy_nonempty _ Hmsg). cbn [negb].
    fold (gateway_selected cfg). rewrite Hgen.
    cbn [truthy_obj truthy]. rewrite bind_ret.
    fold (custom_payload (dict_get d "phone")
            (_validate_message (dict_get d "message")) (VStr "notification")).
    rewrite send_sms_dispatch; [| exact Hurl | now rewrite Hphone, andb_false_r].
    rewrite outcome_prefixed, trace_prefixed, posts_app, sleeps_app.
    cbn [posts sleeps flat_map app]. fold r.
    apply (loop_succeeds cfg r _ (generic_attempt_ok env r)
             (send_sms_attempts_iter cfg env r _) 0).
    - lia.
    - intros k Hk. lia.
    - destruct (Hmock 0%nat r) as (resp & Hresp & Hstatus).
      unfold generic_attempt_ok. cbn [Nat.add]. rewrite Hresp.
      cbn [ok_generic is_200].
      rewrite Hstatus. reflexivity. }
  destruct Hsend as (Ho & Hposts & Hsleeps).
  rewrite (bind_ok _ true _ Ho). mnorm.
  rewrite outcome_prefixed, trace_prefixed, posts_app, sleeps_app, Hposts,
    Hsleeps.
  repeat split.
Qed.

Lemma SendSmsView_post_against_mock_witness :
  let body :=
    Ok (JObject (<["message" := VStr "hello"]>
                   (<["phone" := VStr "0911223344"]> ∅))) in
  served_by_mock mock_env
  /\ outcome (SendSmsView_post mock_cfg mock_env body)
     = Ok (mkJsonResponse
             [("status", Lit "success"); ("message", Lit "SMS sent")] 200).
Proof.
  intros body.
  assert (Hmock : served_by_mock mock_env).
  { intros attempt r. eexists. split; reflexivity. }
  split; [exact Hmock |].
  apply (SendSmsView_post_against_mock mock_cfg mock_env
           (<["message" := VStr "hello"]>
              (<["phone" := VStr "0911223344"]> ∅)) Hmock).
  - reflexivity.
  - reflexivity.
  - reflexivity.
  - reflexivity.
  - discriminate.
Defined.

(** ** References *)

(** X19.  With a clock of twenty digits and thirty-two random digits, a
    reference is the prefix followed by 27 characters, and two references
    with the same prefix are equal exactly when the two calls read the
    same millisecond and drew the same first eight random digits. *)
Theorem generate_reference_collisions env env' prefix :
  well_formed env -> well_formed env' ->
  String.length (_generate_reference env prefix)
  = (String.length prefix + 27)%nat
  /\ (_generate_reference env prefix = _generate_reference env' prefix
      <-> reference_stamp env = reference_stamp env').
Proof.
  intros [Hc Hu] [Hc' Hu']. unfold _generate_reference, reference_stamp.
  rewrite <- length_chars in Hc, Hu, Hc', Hu'.
  rewrite Hc, Hc'. change (20 - 3)%nat with 17%nat.
  set (ts := firstn 17 (chars (strftime_now env))).
  set (ts' := firstn 17 (chars (strftime_now env'))).
  set (sx := firstn 8 (chars (uuid4_hex env))).
  set (sx' := firstn 8 (chars (uuid4_hex env'))).
  assert (Hts : length ts = 17%nat) by (unfold ts; rewrite firstn_length_le; lia).
  assert (Hts' : length ts' = 17%nat)
    by (unfold ts'; rewrite firstn_length_le; lia).
  assert (Hsx : length sx = 8%nat) by (unfold sx; rewrite firstn_length_le; lia).
  split.
  - rewrite <- !length_chars, !chars_append, !length_app, !chars_text.
    rewrite Hts, Hsx. simpl. lia.
  - split.
    + intros H. apply (f_equal chars) in H.
      rewrite !chars_append, !chars_text in H.
      apply app_inv_head in H. cbn [chars list_ascii_of_string app] in H.
      injection H as H.
      apply app_inj_1 in H as [H1 H2]; [| congruence].
      cbn [app] in H2. injection H2 as H2. now rewrite H1, H2.
    + intros [= -> ->]. reflexivity.
Qed.

Lemma generate_reference_collisions_witness :
  String.length (_generate_reference ok_env "CUSTOM") = 33%nat
  /\ _generate_reference ok_env "CUSTOM" = "CUSTOM_20260101120000123_01234567".
Proof.
  split; [| reflexivity].
  apply (generate_reference_collisions ok_env ok_env "CUSTOM");
    split; reflexivity.
Defined.
